(** * USBDescriptor.h: the descriptor arena, the string table, the
      descriptor tree and the descriptor parser

    A shallow embedding of [src/USBDescriptor.h].  Integers of the source
    ([int], [uint8_t], [uint16_t]) are [Z] with the wrap-around of the
    narrow types written out ([int] arithmetic is taken without overflow,
    which C++ gives no meaning either); storage obtained from [new T[n]] is a list of
    [n] cells; a pointer into the descriptor arena is the byte offset from
    the start of the arena's storage; a pointer to a tree node is the index
    of the node in a store of nodes.  An access outside the storage a
    pointer belongs to, or through a null pointer, has no meaning in C++:
    the embedding stops there with a [Fault]. *)

From Stdlib Require Import ZArith Lia List String Ascii.
From stdpp Require Import base tactics option list numbers.

Open Scope Z_scope.

(** ** Outcomes *)

Inductive fault : Type :=
| NullDeref      (* access through a null pointer *)
| OutOfBounds    (* access outside the storage of an allocation *)
| OutOfFuel.     (* the bound given to a loop of the model was too small *)

Inductive result (A : Type) : Type :=
| Ok (a : A)
| Fault (f : fault).
Arguments Ok {A} a.
Arguments Fault {A} f.

Definition rbind {A B} (r : result A) (k : A -> result B) : result B :=
  match r with
  | Ok a => k a
  | Fault f => Fault f
  end.

(** ** Storage cells *)

(** [p[i]] *)
Definition load {T} (l : list T) (i : Z) : result T :=
  if 0 <=? i then
    match l !! Z.to_nat i with
    | Some x => Ok x
    | None => Fault OutOfBounds
    end
  else Fault OutOfBounds.

(** [p[i] = x] *)
Definition store {T} (l : list T) (i : Z) (x : T) : result (list T) :=
  if (0 <=? i) && (i <? Z.of_nat (length l))
  then Ok (<[Z.to_nat i := x]> l)
  else Fault OutOfBounds.

(** [memcpy(dst + at, src, n)] on cells *)
Definition memcpy {T} (dst : list T) (at_ : Z) (src : list T) (n : Z)
  : result (list T) :=
  if (0 <=? at_) && (0 <=? n)
     && (n <=? Z.of_nat (length src))
     && (at_ + n <=? Z.of_nat (length dst))
  then Ok (take (Z.to_nat at_) dst ++ take (Z.to_nat n) src
             ++ drop (Z.to_nat (at_ + n)) dst)
  else Fault OutOfBounds.

Definition uint8 (x : Z) : Z := x mod 256.
Definition uint16 (x : Z) : Z := x mod 65536.
Definition b2z (b : bool) : Z := if b then 1 else 0.

(** ** Vector<T> *)

Section VectorModel.
Context {T : Type}.

(** What [new T[n]] hands out: [n] cells of indeterminate content, cell
    [i] holding [junk i]. *)
Variable junk : nat -> T.

Definition alloc (n : Z) : list T := map junk (seq 0 (Z.to_nat n)).

Record Vector : Type := mkVector {
  max_size : Z;
  actual_size : Z;
  increment_by : Z;
  data_ : list T;     (* [] is the null pointer *)
  empty : T
}.

Definition newSizeCalculated (increment newSize : Z) : Z :=
  if increment >? 0 then (newSize ÷ increment + 1) * increment else newSize.

(** [Vector::grow]. [new] does not return null, so the out-of-memory
    branch of the source is not taken; the old cells are copied when
    [data_] is not null. *)
Definition grow (newSize : Z) (v : Vector) : result (bool * Vector) :=
  if newSize >? max_size v then
    let n := newSizeCalculated (increment_by v) newSize in
    rbind (match data_ v with
           | [] => Ok (alloc n)
           | _ => memcpy (alloc n) 0 (data_ v) (actual_size v)
           end) (fun new_data =>
    Ok (true, {| max_size := n; actual_size := actual_size v;
                 increment_by := increment_by v; data_ := new_data;
                 empty := empty v |}))
  else Ok (true, v).

(** [Vector(const T empty, int initial_size, int incrementBy)] *)
Definition Vector_new (empty0 : T) (initial_size incrementBy : Z)
  : result Vector :=
  rbind (grow initial_size
           {| max_size := 0; actual_size := 0; increment_by := incrementBy;
              data_ := []; empty := empty0 |})
        (fun r => Ok (snd r)).

(** [Vector()]; the member [empty] is left uninitialised by the source
    and holds [uninit]. *)
Definition Vector_default (uninit : T) : result Vector :=
  rbind (grow 5
           {| max_size := 0; actual_size := 0; increment_by := 5;
              data_ := []; empty := uninit |})
        (fun r => Ok (snd r)).

(** [Vector::append] *)
Definition append (value : T) (v : Vector) : result Vector :=
  rbind (grow (actual_size v) v) (fun r =>
  let v1 := snd r in
  if fst r then
    rbind (store (data_ v1) (actual_size v1) value) (fun d =>
    Ok {| max_size := max_size v1; actual_size := actual_size v1 + 1;
          increment_by := increment_by v1; data_ := d;
          empty := empty v1 |})
  else Ok v1).

Definition size (v : Vector) : Z := actual_size v.

(** [Vector::get] *)
Definition get (index : Z) (v : Vector) : result T :=
  if index >=? actual_size v then Ok (empty v)
  else load (data_ v) index.

(** [Vector::operator[](uint16_t pos)] *)
Definition at_pos (pos : Z) (v : Vector) : result T := get (uint16 pos) v.

Definition clear (v : Vector) : Vector :=
  {| max_size := max_size v; actual_size := 0;
     increment_by := increment_by v; data_ := data_ v; empty := empty v |}.


Definition checkSize (size_ : Z) (v : Vector) : bool := size_ <? max_size v.

(** The storage holds [max_size] cells, of which [actual_size] are used. *)
Definition Vector_wf (v : Vector) : Prop :=
  0 <= actual_size v <= max_size v
  /\ Z.of_nat (length (data_ v)) = max_size v.

End VectorModel.

Arguments Vector T : clear implicits.

(** ** USBConfigurationDescriptorData: the descriptor arena *)

Record USBConfigurationDescriptorData : Type := mkArena {
  buffer_ptr : option (Vector Z);   (* None is the null pointer *)
  arena_length : Z                  (* uint16_t length *)
}.

Definition EMPTY : Z := 0.

Section Arena.
(** Content of the bytes handed out by [new uint8_t[n]]. *)
Variable junk : nat -> Z.

(** [USBConfigurationDescriptorData::buffer]: the storage is allocated
    the first time it is used. *)
Definition buffer (d : USBConfigurationDescriptorData)
  : result (Vector Z * USBConfigurationDescriptorData) :=
  match buffer_ptr d with
  | Some v => Ok (v, d)
  | None =>
      rbind (Vector_new junk EMPTY 256 0) (fun v =>
      Ok (v, {| buffer_ptr := Some v; arena_length := arena_length d |}))
  end.

Definition totalSize (d : USBConfigurationDescriptorData) : Z :=
  arena_length d.

(** [USBConfigurationDescriptorData::addDescriptor(ptr, size_in)].
    [ptr] is the caller's array ([None]: null pointer); the result is the
    offset of the appended bytes ([None]: null pointer, nothing
    appended). *)
Definition addDescriptor (ptr : option (list Z)) (size_in : Z)
    (d : USBConfigurationDescriptorData)
  : result (option Z * USBConfigurationDescriptorData) :=
  rbind (if size_in =? 0
         then match ptr with
              | Some src => load src 0
              | None => Fault NullDeref
              end
         else Ok size_in) (fun size_ =>
  rbind (buffer d) (fun vd =>
  let v := fst vd in
  let d1 := snd vd in
  if negb (checkSize (totalSize d1 + size_in) v) then Ok (None, d1)
  else
    let result_ := arena_length d1 in
    rbind (match ptr with
           | Some src => memcpy (data_ v) result_ src size_
           | None => Ok (data_ v)
           end) (fun bytes =>
    Ok (Some result_,
        {| buffer_ptr :=
             Some {| max_size := max_size v; actual_size := actual_size v;
                     increment_by := increment_by v; data_ := bytes;
                     empty := empty v |};
           arena_length := uint16 (arena_length d1 + size_) |})))).

(** [USBConfigurationDescriptorData::clear] *)
Definition arena_clear (d : USBConfigurationDescriptorData)
  : result USBConfigurationDescriptorData :=
  rbind (buffer d) (fun vd =>
  Ok {| buffer_ptr := Some (clear (fst vd)); arena_length := 0 |}).

(** [USBConfigurationDescriptorData::data]: the bytes at the returned
    address, up to the end of the storage. *)
Definition arena_data (d : USBConfigurationDescriptorData)
  : result (list Z * USBConfigurationDescriptorData) :=
  rbind (buffer d) (fun vd => Ok (data_ (fst vd), snd vd)).

End Arena.

(** ** USBStrings: the string table *)

(** The cells of a freshly allocated vector of pointers.  The source never
    reads a cell at or above [actual_size] ([get] hands out [empty] there),
    so their content is immaterial; they hold null. *)
Definition unset {A} : nat -> option A := fun _ => None.

Definition DEFAULT_LANGUAGE : Z := 0x0409.

(** [strlen]: the characters before the first NUL. *)
Fixpoint strlen (s : string) : Z :=
  match s with
  | EmptyString => 0
  | String c r => if Ascii.eqb c Ascii.zero then 0 else 1 + strlen r
  end.

(** [str[i]] for [i < strlen(str)], as the value stored into a [uint16_t].
    Plain [char] is read unsigned, as on the ARM targets the library is
    built for; for 7-bit text the signed reading gives the same value. *)
Definition char_at (s : string) (i : Z) : Z :=
  match String.get (Z.to_nat i) s with
  | Some c => Z.of_nat (nat_of_ascii c)
  | None => 0
  end.

(** Where a [uint16_t*] handed out by the string table points. *)
Inductive strptr : Type :=
| PNull
| PLanguage     (* the member [language] *)
| PResult.      (* the member [result], shared by all calls *)

Record USBStrings : Type := mkStrings {
  char_array : Vector (option string);
  result_buf : list Z;     (* uint16_t result[32] *)
  language : list Z        (* uint16_t language[2] *)
}.

(** Writing the two bytes of a little-endian [uint16_t] cell through a
    [uint8_t*]. *)
Definition set_lo_byte (cell b : Z) : Z := (cell / 256 mod 256) * 256 + uint8 b.
Definition set_hi_byte (cell b : Z) : Z := uint8 b * 256 + cell mod 256.

Definition strings_add (str : option string) (s : USBStrings)
  : result (Z * USBStrings) :=
  rbind (append unset str (char_array s)) (fun ca =>
  Ok (uint8 (size ca),
      {| char_array := ca; result_buf := result_buf s;
         language := language s |})).

(** [USBStrings::get] *)
Definition strings_get (index : Z) (s : USBStrings) : result (option string) :=
  at_pos (index - 1) (char_array s).

Definition strings_size (s : USBStrings) : Z := size (char_array s).

(** [USBStrings::setLanguage] *)
Definition setLanguage (lang : Z) (s : USBStrings) : result USBStrings :=
  rbind (load (language s) 0) (fun c0 =>
  rbind (store (language s) 0 (set_hi_byte (set_lo_byte c0 4) 0x03)) (fun l1 =>
  rbind (store l1 1 (uint16 lang)) (fun l2 =>
  Ok {| char_array := char_array s; result_buf := result_buf s;
        language := l2 |}))).

(** The loop [for (i = 0; i < len; i++) result[1+i] = str[i]] of
    [toUtf], from [i] for [n] more rounds. *)
Fixpoint toUtf_copy (str : string) (i : Z) (n : nat) (res : list Z)
  : result (list Z) :=
  match n with
  | O => Ok res
  | S n' =>
      rbind (store res (1 + i) (uint16 (char_at str i))) (fun res' =>
      toUtf_copy str (i + 1) n' res')
  end.

(** [USBStrings::toUtf] *)
Definition toUtf (str : option string) (s : USBStrings)
  : result (strptr * USBStrings) :=
  match str with
  | None => Ok (PNull, s)
  | Some t =>
      let len := if strlen t >? 31 then 31 else strlen t in
      rbind (toUtf_copy t 0 (Z.to_nat len) (result_buf s)) (fun r1 =>
      rbind (load r1 0) (fun c0 =>
      rbind (store r1 0 (set_hi_byte (set_lo_byte c0 (2 * len + 2)) 0x03))
        (fun r2 =>
      Ok (PResult,
          {| char_array := char_array s; result_buf := r2;
             language := language s |}))))
  end.

(** [USBStrings::string] *)
Definition strings_string (index : Z) (s : USBStrings)
  : result (strptr * USBStrings) :=
  if index =? 0 then Ok (PLanguage, s)
  else rbind (strings_get index s) (fun str => toUtf str s).

Definition strings_clear (s : USBStrings) : USBStrings :=
  {| char_array := clear (char_array s); result_buf := result_buf s;
     language := language s |}.

(** The table as the singleton is first created: static storage is
    zeroed, [char_array] is [Vector(nullptr, 5, 5)], and the constructor
    sets the language. *)
Definition USBStrings_new : result USBStrings :=
  rbind (Vector_new unset None 5 5) (fun ca =>
  setLanguage DEFAULT_LANGUAGE
    {| char_array := ca; result_buf := repeat 0 32;
       language := repeat 0 2 |}).

(** The cells a handed-out pointer refers to, in the current table. *)
Definition deref_strptr (p : strptr) (s : USBStrings) : option (list Z) :=
  match p with
  | PNull => None
  | PLanguage => Some (language s)
  | PResult => Some (result_buf s)
  end.

(** The bytes of a run of little-endian [uint16_t] cells. *)
Definition cell_bytes (cells : list Z) : list Z :=
  flat_map (fun c => [c mod 256; c / 256 mod 256]) cells.

(** The descriptor a host reads at a [uint16_t*]: as many bytes as the
    first byte says. *)
Definition wire_record (cells : list Z) : list Z :=
  let bytes := cell_bytes cells in
  take (Z.to_nat (nth 0 bytes 0)) bytes.

(** Reading UTF-16LE bytes back as a text of one-byte characters: every
    code unit, low byte first, must be the code of such a character, that
    is, its high byte must be 0; bytes that are not such a text have no
    reading. *)
Fixpoint decode_units (bytes : list Z) : option string :=
  match bytes with
  | [] => Some EmptyString
  | lo :: hi :: rest =>
      if (0 <=? lo) && (lo <? 256) && (hi =? 0) then
        match decode_units rest with
        | Some t => Some (String (ascii_of_nat (Z.to_nat lo)) t)
        | None => None
        end
      else None
  | [_] => None
  end.

(** Reading a string descriptor back: the code units after the two header
    bytes. *)
Definition decode_utf16 (record : list Z) : option string :=
  decode_units (drop 2 record).

(** [memcmp(a, b, n)] on bytes.  C fixes the sign of the result only,
    which is what a [comparison] keeps: how the first [n] bytes compare. *)
Fixpoint compare_bytes (a b : list Z) : comparison :=
  match a, b with
  | x :: a', y :: b' => if x =? y then compare_bytes a' b' else x ?= y
  | _, _ => Eq
  end.

Definition memcmp (a b : list Z) (n : Z) : result comparison :=
  if (0 <=? n) && (n <=? Z.of_nat (length a)) && (n <=? Z.of_nat (length b))
  then Ok (compare_bytes (take (Z.to_nat n) a) (take (Z.to_nat n) b))
  else Fault OutOfBounds.

(** [USBStrings::equals(str1, str2)] on the cells the two pointers refer
    to.  The [int] of [memcmp] is returned as [bool], which is true for
    every value but 0. *)
Definition strings_equals (str1 str2 : list Z) : result bool :=
  let char_ptr1 := cell_bytes str1 in
  let char_ptr2 := cell_bytes str2 in
  rbind (load char_ptr1 0) (fun l1 =>
  rbind (load char_ptr2 0) (fun l2 =>
  if negb (l1 =? l2) then Ok false
  else
    rbind (memcmp char_ptr1 char_ptr2 l1) (fun c =>
    Ok (match c with Eq => false | _ => true end)))).

(** ** The descriptor tree *)

(** Modelled from the spec: [sizeof(tusb_desc_device_t)]; [tusb.h] is not
    part of the sources.  The Device record has 18 bytes. *)
Definition sizeof_device : Z := 18.

(** Modelled from the spec: [sizeof(tusb_desc_configuration_t)]; [tusb.h]
    is not part of the sources.  The Configuration record has 9 bytes. *)
Definition sizeof_configuration : Z := 9.

(** Modelled from the spec: [sizeof(tusb_desc_interface_t)]; [tusb.h] is
    not part of the sources.  The Interface record has 9 bytes. *)
Definition sizeof_interface : Z := 9.

(** Modelled from the spec: [sizeof(tusb_desc_endpoint_t)]; [tusb.h] is not
    part of the sources.  The Endpoint record has 7 bytes. *)
Definition sizeof_endpoint : Z := 7.

(** Modelled from the spec: the field offsets of the packed records of
    [tusb.h], which is not part of the sources (multi-byte fields are
    little-endian).  The fields the table of the spec leaves out take the
    offsets left, in the order of the members. *)
Module Off.
(* every record *)
Definition bLength : Z := 0.
Definition bDescriptorType : Z := 1.
(* Device *)
Definition bcdUSB : Z := 2.
Definition bDeviceClass : Z := 4.
Definition bDeviceSubClass : Z := 5.
Definition bDeviceProtocol : Z := 6.
Definition bMaxPacketSize0 : Z := 7.
Definition idVendor : Z := 8.
Definition idProduct : Z := 10.
Definition bcdDevice : Z := 12.
Definition iManufacturer : Z := 14.
Definition iProduct : Z := 15.
Definition iSerialNumber : Z := 16.
Definition bNumConfigurations : Z := 17.
(* Configuration *)
Definition wTotalLength : Z := 2.
Definition bNumInterfaces : Z := 4.
Definition bConfigurationValue : Z := 5.
Definition iConfiguration : Z := 6.
Definition bmAttributes : Z := 7.
Definition bMaxPower : Z := 8.
(* Interface *)
Definition bInterfaceNumber : Z := 2.
Definition bAlternateSetting : Z := 3.
Definition bNumEndpoints : Z := 4.
Definition bInterfaceClass : Z := 5.
Definition bInterfaceSubClass : Z := 6.
Definition bInterfaceProtocol : Z := 7.
Definition iInterface : Z := 8.
(* Endpoint *)
Definition bEndpointAddress : Z := 2.
Definition ep_bmAttributes : Z := 3.
Definition wMaxPacketSize : Z := 4.
Definition bInterval : Z := 6.
End Off.

Inductive TransferType : Type := Control | Isochronous | Bulk | Interrupt.

Definition TransferType_code (x : TransferType) : Z :=
  match x with
  | Control => 0
  | Isochronous => 1
  | Bulk => 2
  | Interrupt => 3
  end.

(** Modelled from the spec: the bit fields [xfer], [sync], [usage] of the
    endpoint's [bmAttributes] byte ([tusb.h] is not part of the sources):
    two bits each, from bit 0 upwards; assigning one leaves the other bits
    of the byte as they are. *)
Definition set_bits (old lo width v : Z) : Z :=
  Z.lor (Z.land old (Z.lxor 255 (Z.shiftl (2 ^ width - 1) lo)))
        (Z.shiftl (v mod 2 ^ width) lo).

(** The expression [endpointNumber & 0b00000111 | isInput<7] of the
    endpoint constructor: [<] binds tighter than [&], which binds tighter
    than [|]. *)
Definition endpoint_address (endpointNumber : Z) (isInput : bool) : Z :=
  Z.lor (Z.land endpointNumber 7) (b2z (b2z isInput <? 7)).

Record USBEndpoint : Type := mkEndpoint {
  ep_parent : option nat;            (* USBInterface *parent *)
  ep_descriptor_data : option Z      (* tusb_desc_endpoint_t* *)
}.

Record USBInterface : Type := mkInterface {
  itf_parent : option nat;           (* USBConfiguration *parent *)
  endpoints : Vector (option nat);   (* Vector<USBEndpoint*> *)
  itf_descriptor_data : option Z     (* tusb_desc_interface_t* *)
}.

Record USBConfiguration : Type := mkConfiguration {
  interfaces : Vector (option nat);  (* Vector<USBInterface*> *)
  conf_descriptor_data : option Z;   (* tusb_desc_configuration_t* *)
  conf_id : Z                        (* int id *)
}.

Record USBDevice : Type := mkDevice {
  dev_descriptor_data : option (list Z);   (* tusb_desc_device_t*, storage of its own *)
  configurations : Vector (option nat);    (* Vector<USBConfiguration*> *)
  descriptor_total_size : Z
}.

(** The singletons and the nodes created with [new]; a pointer to a node is
    its index in the list of the nodes of its class. *)
Record World : Type := mkWorld {
  arena : USBConfigurationDescriptorData;
  strings : USBStrings;
  device : USBDevice;
  configuration_objs : list USBConfiguration;
  interface_objs : list USBInterface;
  endpoint_objs : list USBEndpoint
}.

(** State and faults threaded through the calls. *)
Definition M (A : Type) : Type := World -> result (A * World).

Definition ret {A} (a : A) : M A := fun w => Ok (a, w).

Definition bind {A B} (m : M A) (k : A -> M B) : M B :=
  fun w => match m w with
           | Ok (a, w') => k a w'
           | Fault f => Fault f
           end.

Definition fail {A} (f : fault) : M A := fun _ => Fault f.

Definition lift {A} (r : result A) : M A :=
  fun w => match r with Ok a => Ok (a, w) | Fault f => Fault f end.

Notation "'let*' x ':=' m 'in' k" := (bind m (fun x => k))
  (at level 10, x name, m at level 100, k at level 200,
   format "'[v' 'let*'  x  ':='  m  'in' '/' k ']'").
Notation "m '>>' k" := (bind m (fun _ => k))
  (at level 100, k at level 200, right associativity).

Definition get_world : M World := fun w => Ok (w, w).

Definition set_arena (d : USBConfigurationDescriptorData) : M unit :=
  fun w => Ok (tt, {| arena := d; strings := strings w; device := device w;
                      configuration_objs := configuration_objs w;
                      interface_objs := interface_objs w;
                      endpoint_objs := endpoint_objs w |}).

Definition set_strings (s : USBStrings) : M unit :=
  fun w => Ok (tt, {| arena := arena w; strings := s; device := device w;
                      configuration_objs := configuration_objs w;
                      interface_objs := interface_objs w;
                      endpoint_objs := endpoint_objs w |}).

Definition set_device (d : USBDevice) : M unit :=
  fun w => Ok (tt, {| arena := arena w; strings := strings w; device := d;
                      configuration_objs := configuration_objs w;
                      interface_objs := interface_objs w;
                      endpoint_objs := endpoint_objs w |}).

Definition set_configuration_objs (l : list USBConfiguration) : M unit :=
  fun w => Ok (tt, {| arena := arena w; strings := strings w;
                      device := device w; configuration_objs := l;
                      interface_objs := interface_objs w;
                      endpoint_objs := endpoint_objs w |}).

Definition set_interface_objs (l : list USBInterface) : M unit :=
  fun w => Ok (tt, {| arena := arena w; strings := strings w;
                      device := device w;
                      configuration_objs := configuration_objs w;
                      interface_objs := l;
                      endpoint_objs := endpoint_objs w |}).

Definition set_endpoint_objs (l : list USBEndpoint) : M unit :=
  fun w => Ok (tt, {| arena := arena w; strings := strings w;
                      device := device w;
                      configuration_objs := configuration_objs w;
                      interface_objs := interface_objs w;
                      endpoint_objs := l |}).

(** Dereferencing a node pointer. *)
Definition deref {A} (objs : list A) (p : option nat) : result A :=
  match p with
  | None => Fault NullDeref
  | Some i => match objs !! i with
              | Some x => Ok x
              | None => Fault OutOfBounds
              end
  end.

Definition the_configuration (c : nat) : M USBConfiguration :=
  fun w => lift (deref (configuration_objs w) (Some c)) w.
Definition the_interface (i : nat) : M USBInterface :=
  fun w => lift (deref (interface_objs w) (Some i)) w.
Definition the_endpoint (e : nat) : M USBEndpoint :=
  fun w => lift (deref (endpoint_objs w) (Some e)) w.

Definition put_configuration (c : nat) (x : USBConfiguration) : M unit :=
  fun w => set_configuration_objs (<[c := x]> (configuration_objs w)) w.
Definition put_interface (i : nat) (x : USBInterface) : M unit :=
  fun w => set_interface_objs (<[i := x]> (interface_objs w)) w.
Definition put_endpoint (e : nat) (x : USBEndpoint) : M unit :=
  fun w => set_endpoint_objs (<[e := x]> (endpoint_objs w)) w.

(** [new X(...)]: the node joins the store, its index is the pointer. *)
Definition new_configuration (x : USBConfiguration) : M nat :=
  fun w => (set_configuration_objs (configuration_objs w ++ [x])
            >> ret (length (configuration_objs w))) w.
Definition new_interface (x : USBInterface) : M nat :=
  fun w => (set_interface_objs (interface_objs w ++ [x])
            >> ret (length (interface_objs w))) w.
Definition new_endpoint (x : USBEndpoint) : M nat :=
  fun w => (set_endpoint_objs (endpoint_objs w ++ [x])
            >> ret (length (endpoint_objs w))) w.

(** Access to a byte of the arena through a pointer into it:
    [((uint8_t* )p)[k]]. *)
Definition rd8 (p : option Z) (k : Z) : M Z :=
  fun w => match p with
           | None => Fault NullDeref
           | Some off =>
               match buffer_ptr (arena w) with
               | None => Fault OutOfBounds
               | Some v => lift (load (data_ v) (off + k)) w
               end
           end.

Definition wr8 (p : option Z) (k : Z) (x : Z) : M unit :=
  fun w => match p with
           | None => Fault NullDeref
           | Some off =>
               match buffer_ptr (arena w) with
               | None => Fault OutOfBounds
               | Some v =>
                   (let* bytes := lift (store (data_ v) (off + k) (uint8 x)) in
                    set_arena
                      {| buffer_ptr :=
                           Some {| max_size := max_size v;
                                   actual_size := actual_size v;
                                   increment_by := increment_by v;
                                   data_ := bytes; empty := empty v |};
                         arena_length := arena_length (arena w) |}) w
               end
           end.

(** A little-endian [uint16_t] field. *)
Definition wr16 (p : option Z) (k : Z) (x : Z) : M unit :=
  wr8 p k (uint16 x mod 256) >> wr8 p (k + 1) (uint16 x / 256).

(** Modelled from the spec: the assignment [wMaxPacketSize.size = x] of
    the endpoint constructor; [tusb.h], which declares the member [size],
    is not part of the sources.  The field wMaxPacketSize is the two bytes
    at offset 4. *)
Definition set_wMaxPacketSize_size (p : option Z) (x : Z) : M unit :=
  wr16 p Off.wMaxPacketSize x.

Definition rd16 (p : option Z) (k : Z) : M Z :=
  let* lo := rd8 p k in
  let* hi := rd8 p (k + 1) in
  ret (lo + 256 * hi).

(** [for (int i = 0; i < n; i++) body(i)], from [i] for [n] more rounds. *)
Fixpoint for_range (i : Z) (n : nat) (body : Z -> M unit) : M unit :=
  match n with
  | O => ret tt
  | S n' => body i >> for_range (i + 1) n' body
  end.

Section Tree.
(** Content of the bytes handed out by [new uint8_t[n]] for the arena. *)
Variable junk : nat -> Z.

(** What the member [descriptor_data] of a new [USBConfiguration] holds.
    The constructor does not assign it, so it keeps what the storage handed
    out by [new] held: [stale c] for the node [c], which is null or an
    address, given as its offset from the start of the arena's storage (an
    address elsewhere is an offset outside that storage). *)
Variable stale : nat -> option Z.

(** A call on the arena singleton. *)
Definition on_arena {A}
    (f : USBConfigurationDescriptorData
         -> result (A * USBConfigurationDescriptorData)) : M A :=
  fun w => (let* r := lift (f (arena w)) in
            set_arena (snd r) >> ret (fst r)) w.

(** A call on the string table singleton. *)
Definition on_strings {A} (f : USBStrings -> result (A * USBStrings)) : M A :=
  fun w => (let* r := lift (f (strings w)) in
            set_strings (snd r) >> ret (fst r)) w.

(** *** USBEndpoint *)

Definition ep_descriptor (e : nat) : M (option Z) :=
  let* x := the_endpoint e in ret (ep_descriptor_data x).

(** [USBEndpoint::wMaxPacketSize(uint16_t val)] *)
Definition ep_wMaxPacketSize (e : nat) (val : Z) : M nat :=
  let* d := ep_descriptor e in
  wr8 d Off.bInterval (uint16 val) >> ret e.

(** [USBEndpoint::bInterval(uint8_t val)] *)
Definition ep_bInterval (e : nat) (val : Z) : M nat :=
  let* d := ep_descriptor e in
  wr8 d Off.bInterval (uint8 val) >> ret e.

Definition ep_size (e : nat) : M Z :=
  let* d := ep_descriptor e in rd8 d Off.bLength.

(** [USBEndpoint::USBEndpoint(parent, endpointNumber, isInput, xfer)] *)
Definition USBEndpoint_new (parent : option nat) (endpointNumber : Z)
    (isInput : bool) (xfer : TransferType) : M nat :=
  let* d := on_arena (addDescriptor junk None sizeof_endpoint) in
  wr8 d Off.bLength sizeof_endpoint >>
  wr8 d Off.bDescriptorType 0x05 >>
  wr8 d Off.bEndpointAddress (endpoint_address endpointNumber isInput) >>
  (let* a := rd8 d Off.ep_bmAttributes in
   wr8 d Off.ep_bmAttributes (set_bits a 0 2 (TransferType_code xfer))) >>
  (let* a := rd8 d Off.ep_bmAttributes in
   wr8 d Off.ep_bmAttributes (set_bits a 2 2 0x00)) >>
  (let* a := rd8 d Off.ep_bmAttributes in
   wr8 d Off.ep_bmAttributes (set_bits a 4 2 0x00)) >>
  set_wMaxPacketSize_size d 64 >>
  wr8 d Off.bInterval 1 >>
  new_endpoint {| ep_parent := parent; ep_descriptor_data := d |}.

(** [USBEndpoint::USBEndpoint(parent, data)] *)
Definition USBEndpoint_of_data (parent : option nat) (data : option Z)
  : M nat :=
  new_endpoint {| ep_parent := parent; ep_descriptor_data := data |}.

(** *** USBInterface *)

Definition itf_descriptor (i : nat) : M (option Z) :=
  let* x := the_interface i in ret (itf_descriptor_data x).

Definition usbEndpointCount (i : nat) : M Z :=
  let* x := the_interface i in ret (size (endpoints x)).

(** [endpoints.append(result)] *)
Definition itf_append_endpoint (i : nat) (e : nat) : M unit :=
  let* x := the_interface i in
  let* es := lift (append unset (Some e) (endpoints x)) in
  put_interface i {| itf_parent := itf_parent x; endpoints := es;
                     itf_descriptor_data := itf_descriptor_data x |}.

(** [descriptor()->bNumEndpoints++] *)
Definition itf_bNumEndpoints_incr (i : nat) : M unit :=
  let* d := itf_descriptor i in
  let* n := rd8 d Off.bNumEndpoints in
  wr8 d Off.bNumEndpoints (n + 1).

(** [USBInterface::createEndpoint(bool isInput, TransferType xfer)] *)
Definition createEndpoint (i : nat) (isInput : bool) (xfer : TransferType)
  : M nat :=
  let* n := usbEndpointCount i in
  let* e := USBEndpoint_new (Some i) n isInput xfer in
  itf_bNumEndpoints_incr i >>
  itf_append_endpoint i e >>
  ret e.

(** [USBInterface::createEndpoint(tusb_desc_endpoint_t *data)] *)
Definition createEndpoint_of_data (i : nat) (data : option Z) : M nat :=
  let* e := USBEndpoint_of_data (Some i) data in
  itf_bNumEndpoints_incr i >>
  itf_append_endpoint i e >>
  ret e.

(** [USBInterface::usbEndpoint(int index)], as the pointer held in the
    vector. *)
Definition usbEndpoint (i : nat) (index : Z) : M (option nat) :=
  let* x := the_interface i in lift (at_pos index (endpoints x)).

(** [USBInterface::name(char *name)] *)
Definition itf_name (i : nat) (name : option string) : M nat :=
  let* d := itf_descriptor i in
  let* idx := on_strings (strings_add name) in
  wr8 d Off.iInterface idx >> ret i.

Definition itf_size (i : nat) : M Z :=
  let* d := itf_descriptor i in rd8 d Off.bLength.

(** [USBInterface::USBInterface(parent, interfaceNumber)].  The member
    [endpoints] is built by [Vector()] before the body runs. *)
Definition USBInterface_new (parent : nat) (interfaceNumber : Z) : M nat :=
  let* es := lift (Vector_default unset None) in
  let* d := on_arena (addDescriptor junk None sizeof_interface) in
  let* i := new_interface {| itf_parent := Some parent; endpoints := es;
                             itf_descriptor_data := d |} in
  wr8 d Off.bLength sizeof_interface >>
  wr8 d Off.bDescriptorType 0x04 >>
  wr8 d Off.bInterfaceNumber interfaceNumber >>
  wr8 d Off.bAlternateSetting 0 >>
  wr8 d Off.bNumEndpoints 0 >>
  wr8 d Off.bInterfaceClass 0 >>
  wr8 d Off.bInterfaceSubClass 0 >>
  wr8 d Off.bInterfaceProtocol 0 >>
  wr8 d Off.iInterface 0 >>
  createEndpoint i true Control >>
  ret i.

(** [USBInterface::USBInterface(parent, data)] *)
Definition USBInterface_of_data (parent : nat) (data : option Z) : M nat :=
  let* es := lift (Vector_default unset None) in
  new_interface {| itf_parent := Some parent; endpoints := es;
                   itf_descriptor_data := data |}.

(** *** USBConfiguration *)

Definition set_conf_descriptor_data (c : nat) (d : option Z) : M unit :=
  let* x := the_configuration c in
  put_configuration c {| interfaces := interfaces x;
                         conf_descriptor_data := d;
                         conf_id := conf_id x |}.

(** [USBConfiguration::descriptor]: the record is appended the first
    time it is asked for. *)
Definition conf_descriptor (c : nat) : M (option Z) :=
  let* x := the_configuration c in
  match conf_descriptor_data x with
  | Some p => ret (Some p)
  | None =>
      let* d := on_arena (addDescriptor junk None sizeof_configuration) in
      set_conf_descriptor_data c d >>
      wr8 d Off.bLength sizeof_configuration >>
      wr8 d Off.bDescriptorType 0x02 >>
      wr8 d Off.bConfigurationValue (conf_id x) >>
      wr8 d Off.iConfiguration 0 >>
      wr8 d Off.bmAttributes 0 >>
      wr8 d Off.bMaxPower 50 >>
      wr8 d Off.bNumInterfaces 0 >>
      ret d
  end.

Definition usbInterfaceCount (c : nat) : M Z :=
  let* x := the_configuration c in ret (size (interfaces x)).

(** [USBConfiguration::usbInterface(int idx)], as the pointer held in
    the vector. *)
Definition usbInterface (c : nat) (idx : Z) : M (option nat) :=
  let* x := the_configuration c in lift (at_pos idx (interfaces x)).

(** [interfaces.append(result)] *)
Definition conf_append_interface (c : nat) (i : nat) : M unit :=
  let* x := the_configuration c in
  let* itfs := lift (append unset (Some i) (interfaces x)) in
  put_configuration c {| interfaces := itfs;
                         conf_descriptor_data := conf_descriptor_data x;
                         conf_id := conf_id x |}.

(** [USBConfiguration::createInterface()] *)
Definition createInterface (c : nat) : M nat :=
  (let* d := conf_descriptor c in
   let* n := rd8 d Off.bNumInterfaces in
   wr8 d Off.bNumInterfaces (n + 1)) >>
  let* k := usbInterfaceCount c in
  let* i := USBInterface_new c k in
  conf_append_interface c i >>
  ret i.

(** [USBConfiguration::createInterface(tusb_desc_interface_t *data)] *)
Definition createInterface_of_data (c : nat) (data : option Z) : M nat :=
  let* i := USBInterface_of_data c data in
  conf_append_interface c i >>
  (let* d := conf_descriptor c in
   let* k := usbInterfaceCount c in
   wr8 d Off.bNumInterfaces k) >>
  ret i.

(** One round of the loop of [parseDescriptor] on the record at [ptr]:
    the [switch], which yields the interface that is current afterwards. *)
Definition parse_record (c : nat) (ptr : Z) (actual_itf : option nat)
  : M (option nat) :=
  let* tag := rd8 (Some ptr) 1 in
  if tag =? 0x04 then
    let* i := createInterface_of_data c (Some ptr) in ret (Some i)
  else if tag =? 0x05 then
    match actual_itf with
    | Some i => createEndpoint_of_data i (Some ptr) >> ret actual_itf
    | None => ret actual_itf
    end
  else ret actual_itf.

(** The rest of the round: [ptr += len; len = ptr[0]].  The round hands
    on the local variables [ptr], [len] and [actual_itf]. *)
Definition parse_round (c : nat) (ptr len : Z) (actual_itf : option nat)
  : M (Z * Z * option nat) :=
  let* actual_itf' := parse_record c ptr actual_itf in
  let* len' := rd8 (Some (ptr + len)) 0 in
  ret (ptr + len, len', actual_itf').

(** The loop [while (ptr<end && len>0)] of [parseDescriptor], for at most
    [fuel] rounds. *)
Fixpoint parse_loop (fuel : nat) (c : nat) (end_ ptr len : Z)
    (actual_itf : option nat) : M unit :=
  if (ptr <? end_) && (len >? 0) then
    match fuel with
    | O => fail OutOfFuel
    | S fuel' =>
        let* st := parse_round c ptr len actual_itf in
        parse_loop fuel' c end_ (fst (fst st)) (snd (fst st)) (snd st)
    end
  else ret tt.

(** [USBConfiguration::parseDescriptor(data, data_len)].  Every round
    advances [ptr] by at least one byte, so [data_len] rounds are all the
    loop can make. *)
Definition parseDescriptor (c : nat) (data : option Z) (data_len : Z)
  : M unit :=
  match data with
  | None => fail NullDeref
  | Some ptr =>
      let* len := rd8 (Some ptr) 0 in
      parse_loop (Z.to_nat data_len) c (ptr + data_len) ptr len None
  end.

(** [USBConfiguration::setConfigurationDescriptor(desc, len, parse)] *)
Definition setConfigurationDescriptor (c : nat) (desc : option (list Z))
    (len : Z) (parse : bool) : M unit :=
  let* d := on_arena (addDescriptor junk desc len) in
  set_conf_descriptor_data c d >>
  if parse then parseDescriptor c d len else ret tt.

(** [USBConfiguration::totalSize] *)
Definition conf_totalSize (c : nat) : M Z :=
  let* d := conf_descriptor c in rd16 d Off.wTotalLength.

(** The bytes at the address [data.data()] hands out, [data] being the
    copy of the arena singleton taken when the world was [w0]: the
    singleton's storage if it had one then, else storage of the copy's
    own. *)
Definition copy_data (w0 : World) : M (list Z) :=
  match buffer_ptr (arena w0) with
  | Some _ =>
      let* w := get_world in
      lift (rbind (arena_data junk (arena w)) (fun r => Ok (fst r)))
  | None => ret (alloc junk 256)
  end.

(** [USBConfiguration::configurationDescriptor] *)
Definition configurationDescriptor (c : nat) : M (list Z) :=
  the_configuration c >>
  let* w0 := get_world in
  copy_data w0.

(** [USBConfiguration::configurationDescriptorExt(packetSizeHighSpeed)];
    [high_speed] is [tud_speed_get() == TUSB_SPEED_HIGH], decided by the
    device stack. *)
Definition configurationDescriptorExt (high_speed : bool) (c : nat)
    (packetSizeHighSpeed : Z) : M (list Z) :=
  (if high_speed then
     let* n := usbInterfaceCount c in
     for_range 0 (Z.to_nat n) (fun j =>
       let* pi := usbInterface c j in
       let* w := get_world in
       let* itf := lift (deref (interface_objs w) pi) in
       for_range 0 (Z.to_nat (size (endpoints itf))) (fun i =>
         let* pe := lift (at_pos i (endpoints itf)) in
         match pe with
         | Some e => ep_wMaxPacketSize e packetSizeHighSpeed >> ret tt
         | None => fail NullDeref
         end))
   else ret tt) >>
  let* w0 := get_world in
  (let* d := conf_descriptor c in
   wr16 d Off.wTotalLength (totalSize (arena w0))) >>
  copy_data w0.

(** *** USBDevice *)

Definition dev_rd8 (k : Z) : M Z :=
  fun w => lift (rbind (match dev_descriptor_data (device w) with
                        | Some bytes => Ok bytes
                        | None => Fault NullDeref
                        end) (fun bytes => load bytes k)) w.

Definition dev_wr8 (k : Z) (x : Z) : M unit :=
  fun w => match dev_descriptor_data (device w) with
           | None => Fault NullDeref
           | Some bytes =>
               (let* bytes' := lift (store bytes k (uint8 x)) in
                set_device
                  {| dev_descriptor_data := Some bytes';
                     configurations := configurations (device w);
                     descriptor_total_size :=
                       descriptor_total_size (device w) |}) w
           end.

Definition dev_wr16 (k : Z) (x : Z) : M unit :=
  dev_wr8 k (uint16 x mod 256) >> dev_wr8 (k + 1) (uint16 x / 256).

(** [USBDevice::descriptor_ptr]: the record is created, in storage of
    its own ([new tusb_desc_device_t()], zeroed), the first time it is
    asked for. *)
Definition descriptor_ptr : M unit :=
  let* w := get_world in
  match dev_descriptor_data (device w) with
  | Some _ => ret tt
  | None =>
      set_device {| dev_descriptor_data :=
                      Some (repeat 0 (Z.to_nat sizeof_device));
                    configurations := configurations (device w);
                    descriptor_total_size :=
                      descriptor_total_size (device w) |} >>
      dev_wr8 Off.bLength sizeof_device >>
      dev_wr8 Off.bDescriptorType 0x01 >>
      dev_wr16 Off.bcdUSB 0x0200 >>
      dev_wr8 Off.bDeviceClass 0x00 >>
      dev_wr8 Off.bDeviceSubClass 0x00 >>
      dev_wr8 Off.bDeviceProtocol 0x00 >>
      dev_wr8 Off.bMaxPacketSize0 64 >>
      dev_wr16 Off.idVendor 0x0000 >>
      dev_wr16 Off.idProduct 0x0001 >>
      dev_wr16 Off.bcdDevice 0x0001 >>
      dev_wr8 Off.iManufacturer 0x00 >>
      dev_wr8 Off.iProduct 0x00 >>
      dev_wr8 Off.iSerialNumber 0x00 >>
      dev_wr8 Off.bNumConfigurations 0x00
  end.

(** [USBDevice::deviceDescriptor]: the bytes of the device record. *)
Definition deviceDescriptor : M (list Z) :=
  descriptor_ptr >>
  let* w := get_world in
  match dev_descriptor_data (device w) with
  | Some bytes => ret bytes
  | None => fail NullDeref
  end.

Definition usbConfigurationCount : M Z :=
  let* w := get_world in ret (size (configurations (device w))).

(** [USBDevice::usbConfiguration(int idx)], as the pointer held in the
    vector. *)
Definition usbConfiguration (idx : Z) : M (option nat) :=
  let* w := get_world in lift (at_pos idx (configurations (device w))).

(** [USBDevice::createConfiguration].  The constructor of
    [USBConfiguration] sets [parent] and [id] and leaves [descriptor_data]
    as the storage of the new node held it. *)
Definition createConfiguration : M nat :=
  descriptor_ptr >>
  (let* n := dev_rd8 Off.bNumConfigurations in
   dev_wr8 Off.bNumConfigurations (n + 1)) >>
  let* k := usbConfigurationCount in
  let* itfs := lift (Vector_default unset None) in
  let* w0 := get_world in
  let* c := new_configuration {| interfaces := itfs;
                                 conf_descriptor_data :=
                                   stale (length (configuration_objs w0));
                                 conf_id := k |} in
  let* w := get_world in
  let* cs := lift (append unset (Some c) (configurations (device w))) in
  set_device {| dev_descriptor_data := dev_descriptor_data (device w);
                configurations := cs;
                descriptor_total_size := descriptor_total_size (device w) |} >>
  ret c.

(** [USBDevice::singleConfiguration] *)
Definition singleConfiguration : M (option nat) :=
  let* n := usbConfigurationCount in
  if n =? 0 then let* c := createConfiguration in ret (Some c)
  else usbConfiguration 0.

(** [USBDevice::setConfigurationDescriptor(descriptors, len, parse)] *)
Definition dev_setConfigurationDescriptor (descriptors : option (list Z))
    (len : Z) (parse : bool) : M (option nat) :=
  let* config := singleConfiguration in
  match config with
  | Some c => setConfigurationDescriptor c descriptors len parse >> ret config
  | None => fail NullDeref
  end.

(** [USBDevice::configurationDescriptor(int idx)] *)
Definition dev_configurationDescriptor (idx : Z) : M (list Z) :=
  let* conf := usbConfiguration idx in
  match conf with
  | Some c => configurationDescriptor c
  | None => fail NullDeref
  end.

(** [USBDevice::manufacturer(const char* str)] *)
Definition dev_manufacturer (str : option string) : M unit :=
  descriptor_ptr >>
  let* idx := on_strings (strings_add str) in
  dev_wr8 Off.iManufacturer idx.

(** [USBDevice::product(const char* str)] *)
Definition dev_product (str : option string) : M unit :=
  descriptor_ptr >>
  let* idx := on_strings (strings_add str) in
  dev_wr8 Off.iProduct idx.

(** [USBDevice::serialNumber(const char* str)] *)
Definition dev_serialNumber (str : option string) : M unit :=
  descriptor_ptr >>
  let* idx := on_strings (strings_add str) in
  dev_wr8 Off.iSerialNumber idx.

(** [USBDevice::string(int index)] *)
Definition dev_string (index : Z) : M strptr :=
  on_strings (strings_string index).

(** [USBDevice::clear] *)
Definition dev_clear : M unit :=
  (let* w := get_world in
   set_device {| dev_descriptor_data := dev_descriptor_data (device w);
                 configurations := clear (configurations (device w));
                 descriptor_total_size := descriptor_total_size (device w) |}) >>
  (let* w := get_world in set_strings (strings_clear (strings w))) >>
  (let* w := get_world in
   let* d := lift (arena_clear junk (arena w)) in set_arena d).

End Tree.

(** *** Further calls on the nodes *)

Section Accessors.
(** Content of the bytes handed out by [new uint8_t[n]] for the arena. *)
Variable junk : nat -> Z.

(** [USBInterface::iInterface(uint16_t idx)] *)
Definition itf_iInterface (i : nat) (idx : Z) : M nat :=
  let* d := itf_descriptor i in
  wr8 d Off.iInterface (uint16 idx) >> ret i.

(** [USBInterface::bAlternateSetting(uint8_t value)] *)
Definition itf_bAlternateSetting (i : nat) (value : Z) : M nat :=
  let* d := itf_descriptor i in
  wr8 d Off.bAlternateSetting (uint8 value) >> ret i.

(** [USBInterface::bInterfaceClass(uint8_t value)] *)
Definition itf_bInterfaceClass (i : nat) (value : Z) : M nat :=
  let* d := itf_descriptor i in
  wr8 d Off.bInterfaceClass (uint8 value) >> ret i.

(** [USBInterface::bInterfaceSubClass(uint8_t value)] *)
Definition itf_bInterfaceSubClass (i : nat) (value : Z) : M nat :=
  let* d := itf_descriptor i in
  wr8 d Off.bInterfaceSubClass (uint8 value) >> ret i.

(** [USBInterface::bInterfaceProtocol(uint8_t value)] *)
Definition itf_bInterfaceProtocol (i : nat) (value : Z) : M nat :=
  let* d := itf_descriptor i in
  wr8 d Off.bInterfaceProtocol (uint8 value) >> ret i.

(** [USBConfiguration::bMaxPower(uint8_t mAmp)] *)
Definition conf_bMaxPower (c : nat) (mAmp : Z) : M nat :=
  let* d := conf_descriptor junk c in
  wr8 d Off.bMaxPower (uint8 mAmp / 2) >> ret c.

(** [USBConfiguration::bmAttributes(uint8_t value)] *)
Definition conf_bmAttributes (c : nat) (value : Z) : M nat :=
  let* d := conf_descriptor junk c in
  wr8 d Off.bmAttributes (uint8 value) >> ret c.

(** [USBConfiguration::size] *)
Definition conf_size (c : nat) : M Z :=
  let* d := conf_descriptor junk c in rd8 d Off.bLength.

(** The loop of [findDescriptor], for at most [fuel] rounds. *)
Fixpoint find_loop (fuel : nat) (id idx : Z) (end_ ptr find_count : Z)
  : M (option Z) :=
  if ptr <? end_ then
    match fuel with
    | O => fail OutOfFuel
    | S fuel' =>
        let* len := rd8 (Some ptr) 0 in
        let* tag := rd8 (Some ptr) 1 in
        if tag =? id then
          if find_count =? idx then ret (Some ptr)
          else find_loop fuel' id idx end_ (ptr + len) (find_count + 1)
        else find_loop fuel' id idx end_ (ptr + len) find_count
    end
  else ret None.

(** [USBConfiguration::findDescriptor(uint8_t id, uint8_t idx)].  The loop
    has no bound of its own: [fuel] is the number of rounds it is given. *)
Definition findDescriptor (fuel : nat) (c : nat) (id idx : Z) : M (option Z) :=
  the_configuration c >>
  let* _ := on_arena (buffer junk) in
  let* w := get_world in
  find_loop fuel (uint8 id) (uint8 idx) (0 + totalSize (arena w)) 0 0.

(** [USBDevice::bcdUSB(uint16_t bcd)]; the copy of the device that the
    setters of the device return is left aside. *)
Definition dev_bcdUSB (bcd : Z) : M unit :=
  descriptor_ptr >> dev_wr16 Off.bcdUSB bcd.

(** [USBDevice::bDeviceClass(uint8_t arg)] *)
Definition dev_bDeviceClass (arg : Z) : M unit :=
  descriptor_ptr >> dev_wr8 Off.bDeviceClass arg.

(** [USBDevice::bDeviceSubClass(uint8_t arg)] *)
Definition dev_bDeviceSubClass (arg : Z) : M unit :=
  descriptor_ptr >> dev_wr8 Off.bDeviceSubClass arg.

(** [USBDevice::bDeviceProtocol(uint8_t arg)] *)
Definition dev_bDeviceProtocol (arg : Z) : M unit :=
  descriptor_ptr >> dev_wr8 Off.bDeviceProtocol arg.

(** [USBDevice::bMaxPacketSize0(uint8_t arg)] *)
Definition dev_bMaxPacketSize0 (arg : Z) : M unit :=
  descriptor_ptr >> dev_wr8 Off.bMaxPacketSize0 arg.

(** [USBDevice::idVendor(uint16_t arg)] *)
Definition dev_idVendor (arg : Z) : M unit :=
  descriptor_ptr >> dev_wr16 Off.idVendor arg.

(** [USBDevice::idProduct(uint16_t arg)] *)
Definition dev_idProduct (arg : Z) : M unit :=
  descriptor_ptr >> dev_wr16 Off.idProduct arg.

(** [USBDevice::bcdDevice(uint16_t arg)] *)
Definition dev_bcdDevice (arg : Z) : M unit :=
  descriptor_ptr >> dev_wr16 Off.bcdDevice arg.

(** [USBDevice::size] *)
Definition dev_size : M Z := descriptor_ptr >> dev_rd8 Off.bLength.

(** [USBDevice::descriptorTotalSize(int size)].  [cd] is a copy of the
    arena singleton: the vector made for [size] bytes goes to the copy and
    is lost with it.  When the singleton has storage,
    [delete cd.buffer_ptr] frees the [Vector] the singleton still points
    to; the answer tells whether that happened, and every later use of the
    arena is then a use of freed storage. *)
Definition descriptorTotalSize (size_ : Z) : M bool :=
  let* w := get_world in
  set_device {| dev_descriptor_data := dev_descriptor_data (device w);
                configurations := configurations (device w);
                descriptor_total_size := size_ |} >>
  let cd := arena w in
  let deleted := match buffer_ptr cd with Some _ => true | None => false end in
  let* _ := lift (Vector_new junk EMPTY size_ 0) in
  ret deleted.

(** [USBDevice::getDescriptorTotalSize] *)
Definition getDescriptorTotalSize : M Z :=
  let* w := get_world in ret (descriptor_total_size (device w)).

End Accessors.

(** The process at start: the singletons as their static initialisation
    and constructors leave them, no node created yet. *)
Definition World_new : result World :=
  rbind USBStrings_new (fun s =>
  rbind (Vector_new unset None 1 1) (fun cs =>
  Ok {| arena := {| buffer_ptr := None; arena_length := 0 |};
        strings := s;
        device := {| dev_descriptor_data := None; configurations := cs;
                     descriptor_total_size := 225 |};
        configuration_objs := [];
        interface_objs := [];
        endpoint_objs := [] |})).

(** Running a builder program from the start of the process. *)
Definition from_start {A} (m : M A) : result (A * World) :=
  rbind World_new m.

(** What a program answers, the world left aside. *)
Definition answer {A} (r : result (A * World)) : result A :=
  match r with
  | Ok (a, _) => Ok a
  | Fault f => Fault f
  end.

(** The used bytes of the arena. *)
Definition arena_bytes (w : World) : list Z :=
  match buffer_ptr (arena w) with
  | Some v => take (Z.to_nat (arena_length (arena w))) (data_ v)
  | None => []
  end.

(** The byte [k] of the arena's storage. *)
Definition arena_byte (w : World) (k : Z) : option Z :=
  match buffer_ptr (arena w) with
  | Some v => if 0 <=? k then data_ v !! Z.to_nat k else None
  | None => None
  end.

(** * Vocabulary of the properties *)



(** ** Builder programs *)

(** The calls with which a caller assembles a tree; nodes are named by the
    pointers the creating calls returned. *)
Inductive step : Type :=
| CreateConfiguration
| CreateInterface (c : nat)
| CreateEndpoint (i : nat) (isInput : bool) (xfer : TransferType)
| SetMaxPacketSize (e : nat) (val : Z)
| SetInterval (e : nat) (val : Z)
| SetInterfaceName (i : nat) (name : string)
| SetManufacturer (str : string)
| SetProduct (str : string)
| SetSerialNumber (str : string).

Definition do_step (junk : nat -> Z) (stale : nat -> option Z) (s : step)
  : M unit :=
  match s with
  | CreateConfiguration => createConfiguration stale >> ret tt
  | CreateInterface c => createInterface junk c >> ret tt
  | CreateEndpoint i isInput xfer => createEndpoint junk i isInput xfer >> ret tt
  | SetMaxPacketSize e val => ep_wMaxPacketSize e val >> ret tt
  | SetInterval e val => ep_bInterval e val >> ret tt
  | SetInterfaceName i name => itf_name i (Some name) >> ret tt
  | SetManufacturer str => dev_manufacturer (Some str)
  | SetProduct str => dev_product (Some str)
  | SetSerialNumber str => dev_serialNumber (Some str)
  end.

Fixpoint do_steps (junk : nat -> Z) (stale : nat -> option Z)
    (prog : list step) : M unit :=
  match prog with
  | [] => ret tt
  | s :: rest => do_step junk stale s >> do_steps junk stale rest
  end.

Definition is_CreateConfiguration (s : step) : bool :=
  match s with CreateConfiguration => true | _ => false end.

(** How many configurations a program creates. *)
Fixpoint created_configurations (prog : list step) : Z :=
  match prog with
  | [] => 0
  | s :: rest =>
      (if is_CreateConfiguration s then 1 else 0) + created_configurations rest
  end.

(** ** Records in the arena *)

Inductive kind : Type := KConfiguration | KInterface | KEndpoint.

Definition kind_len (k : kind) : Z :=
  match k with
  | KConfiguration => sizeof_configuration
  | KInterface => sizeof_interface
  | KEndpoint => sizeof_endpoint
  end.

Definition kind_tag (k : kind) : Z :=
  match k with
  | KConfiguration => 0x02
  | KInterface => 0x04
  | KEndpoint => 0x05
  end.

(** Bytes a chain of records of the kinds [ks] takes. *)
Fixpoint chain_total (ks : list kind) : Z :=
  match ks with
  | [] => 0
  | k :: rest => kind_len k + chain_total rest
  end.

(** From offset [off] on, [bytes] holds records of the kinds [ks] back to
    back, each with its length in byte 0 and its type tag in byte 1. *)
Fixpoint chain_at (bytes : list Z) (off : Z) (ks : list kind) : Prop :=
  match ks with
  | [] => True
  | k :: rest =>
      bytes !! Z.to_nat off = Some (kind_len k)
      /\ bytes !! Z.to_nat (off + 1) = Some (kind_tag k)
      /\ chain_at bytes (off + kind_len k) rest
  end.

(** A record of kind [k] starts at offset [p] of a chain of kinds [ks]. *)
Definition record_at (ks : list kind) (p : Z) (k : kind) : Prop :=
  exists pre post, ks = pre ++ k :: post /\ p = chain_total pre.

(** The arena and the nodes agree with the layout [ls]; the records of its
    prefix [hs] have their two header bytes in place. *)
Record Laid (hs ls : list kind) (w : World) : Prop := {
  laid_prefix : exists ps, ls = hs ++ ps;
  laid_buffer :
    match buffer_ptr (arena w) with
    | Some v => max_size v = 256 /\ Z.of_nat (length (data_ v)) = 256
                /\ chain_at (data_ v) 0 hs
    | None => ls = []
    end;
  laid_length : arena_length (arena w) = chain_total ls;
  laid_confs : forall c x p,
    configuration_objs w !! c = Some x -> conf_descriptor_data x = Some p ->
    record_at ls p KConfiguration;
  laid_itfs : forall i x,
    interface_objs w !! i = Some x ->
    exists p, itf_descriptor_data x = Some p /\ record_at ls p KInterface;
  laid_eps : forall e x,
    endpoint_objs w !! e = Some x ->
    exists p, ep_descriptor_data x = Some p /\ record_at ls p KEndpoint
}.

(** The device as [n] calls of [createConfiguration] leave it. *)
Definition device_after (n : Z) (w : World) : Prop :=
  0 <= n <= 2
  /\ max_size (configurations (device w)) = 2
  /\ increment_by (configurations (device w)) = 1
  /\ actual_size (configurations (device w)) = n
  /\ Z.of_nat (length (data_ (configurations (device w)))) = 2
  /\ match dev_descriptor_data (device w) with
     | Some bytes =>
         length bytes = 18%nat /\ bytes !! 0%nat = Some sizeof_device
         /\ bytes !! 1%nat = Some 0x01 /\ bytes !! 17%nat = Some n
     | None => n = 0
     end.

(** Every node's record starts with its length and its type tag. *)
Definition headers_in_place (w : World) : Prop :=
  (forall bytes, dev_descriptor_data (device w) = Some bytes ->
     length bytes = Z.to_nat sizeof_device
     /\ bytes !! 0%nat = Some sizeof_device /\ bytes !! 1%nat = Some 0x01)
  /\ (forall c x p, configuration_objs w !! c = Some x ->
        conf_descriptor_data x = Some p ->
        arena_byte w p = Some sizeof_configuration
        /\ arena_byte w (p + 1) = Some 0x02)
  /\ (forall i x, interface_objs w !! i = Some x ->
        exists p, itf_descriptor_data x = Some p
        /\ arena_byte w p = Some sizeof_interface
        /\ arena_byte w (p + 1) = Some 0x04)
  /\ (forall e x, endpoint_objs w !! e = Some x ->
        exists p, ep_descriptor_data x = Some p
        /\ arena_byte w p = Some sizeof_endpoint
        /\ arena_byte w (p + 1) = Some 0x05).

(** The used part of the arena is a chain of records of the kinds [ks]. *)
Definition arena_chain (w : World) (ks : list kind) : Prop :=
  totalSize (arena w) = chain_total ks
  /\ match buffer_ptr (arena w) with
     | Some v => chain_at (data_ v) 0 ks
     | None => ks = []
     end.

(** ** The scan of the parser *)

(** The first [n] rounds of the loop of [parseDescriptor] (fewer if the
    loop condition fails before): the local variables they leave. *)
Fixpoint parse_rounds (junk : nat -> Z) (n : nat) (c : nat)
    (end_ ptr len : Z) (actual_itf : option nat) : M (Z * Z * option nat) :=
  match n with
  | O => ret (ptr, len, actual_itf)
  | S n' =>
      if (ptr <? end_) && (len >? 0) then
        let* st := parse_round junk c ptr len actual_itf in
        parse_rounds junk n' c end_ (fst (fst st)) (snd (fst st)) (snd st)
      else ret (ptr, len, actual_itf)
  end.

(** ** Sample inputs *)

(** Fresh storage that happens to hold zeros. *)
Definition zeroed : nat -> Z := fun _ => 0.

(** New configurations whose member [descriptor_data] happens to hold
    null. *)
Definition born_null : nat -> option Z := fun _ => None.

(** A configuration with one interface. *)
Definition build_1_interface (junk : nat -> Z) (stale : nat -> option Z)
  : M (nat * nat) :=
  let* c := createConfiguration stale in
  let* i := createInterface junk c in
  ret (c, i).

(** A configuration with one interface and one endpoint besides the
    control endpoint. *)
Definition build_1_interface_1_endpoint (junk : nat -> Z)
    (stale : nat -> option Z) (isInput : bool) (xfer : TransferType)
  : M (nat * nat * nat) :=
  let* c := createConfiguration stale in
  let* i := createInterface junk c in
  let* e := createEndpoint junk i isInput xfer in
  ret (c, i, e).

(** Serialising what was built, and parsing the bytes into the tree of a
    process of its own. *)
Definition reparse (junk : nat -> Z) (stale : nat -> option Z)
    (bytes : list Z) : result (option nat * World) :=
  from_start (dev_setConfigurationDescriptor junk stale (Some bytes)
                (Z.of_nat (length bytes)) true).

(** The interfaces of the first configuration and the endpoints of its
    first interface. *)
Definition tree_counts : M (Z * Z) :=
  let* c := usbConfiguration 0 in
  match c with
  | None => fail NullDeref
  | Some c =>
      let* n := usbInterfaceCount c in
      let* i := usbInterface c 0 in
      match i with
      | None => fail NullDeref
      | Some i => let* m := usbEndpointCount i in ret (n, m)
      end
  end.

(** A record chain with a record of length 0 in it: a configuration, an
    interface, two zero bytes, an endpoint. *)
Definition chain_with_zero_length : list Z :=
  [9; 2; 27; 0; 1; 1; 0; 128; 50] ++ [9; 4; 0; 0; 1; 0; 0; 0; 0]
  ++ [0; 0] ++ [7; 5; 129; 2; 64; 0; 0].

(** A record chain with a class-specific record (type 0x24) in it: a
    configuration, an interface, the class-specific record, an endpoint. *)
Definition chain_with_class_record : list Z :=
  [9; 2; 32; 0; 1; 1; 0; 128; 50] ++ [9; 4; 0; 0; 1; 1; 3; 0; 0]
  ++ [7; 0x24; 1; 0; 1; 7; 0] ++ [7; 5; 129; 2; 64; 0; 0].

(** [n] calls of [add] with the same text: the indices they return. *)
Fixpoint add_many (n : nat) (text : string) (s : USBStrings)
  : result (list Z * USBStrings) :=
  match n with
  | O => Ok ([], s)
  | S n' =>
      rbind (strings_add (Some text) s) (fun r =>
      rbind (add_many n' text (snd r)) (fun r' =>
      Ok (fst r :: fst r', snd r')))
  end.

(** ** Observations on sample runs *)

(** The first four bytes at the address [configurationDescriptor(0)] hands
    out for a built configuration, and the arena's total size. *)
Definition observe_wTotalLength (junk : nat -> Z) (stale : nat -> option Z)
  : result (list Z * Z) :=
  answer (from_start (build_1_interface junk stale >>
                      let* bytes := dev_configurationDescriptor junk 0 in
                      let* w := get_world in
                      ret (take 4 bytes, totalSize (arena w)))).

(** The same through [configurationDescriptorExt]. *)
Definition observe_wTotalLength_ext (junk : nat -> Z)
    (stale : nat -> option Z) : result (list Z * Z) :=
  answer (from_start (let* b := build_1_interface junk stale in
                      let* bytes := configurationDescriptorExt junk false
                                      (fst b) 512 in
                      let* w := get_world in
                      ret (take 4 bytes, totalSize (arena w)))).

(** Build, serialise, parse: the counts of the built tree, the serialised
    bytes, the counts of the parsed tree, the bytes the parsed tree lies
    over. *)
Definition roundtrip (junk : nat -> Z) (stale : nat -> option Z)
    (isInput : bool) (xfer : TransferType)
  : result ((Z * Z) * list Z * (Z * Z) * list Z) :=
  rbind (from_start (build_1_interface_1_endpoint junk stale isInput xfer >>
                     let* counts := tree_counts in
                     let* w := get_world in
                     ret (counts, arena_bytes w))) (fun built =>
  rbind (reparse junk stale (snd (fst built))) (fun parsed =>
  rbind (tree_counts (snd parsed)) (fun counts' =>
  Ok (fst (fst built), snd (fst built), fst counts',
      arena_bytes (snd parsed))))).

(** The endpoint number [createEndpoint] passes to the constructor, and
    the [bEndpointAddress] byte the endpoint then holds. *)
Definition observe_address (junk : nat -> Z) (stale : nat -> option Z)
    (isInput : bool) (xfer : TransferType) : result (Z * Z) :=
  answer (from_start (let* c := createConfiguration stale in
                      let* i := createInterface junk c in
                      let* n := usbEndpointCount i in
                      let* e := createEndpoint junk i isInput xfer in
                      let* d := ep_descriptor e in
                      let* a := rd8 d Off.bEndpointAddress in
                      ret (n, a))).

(** The fields [wMaxPacketSize] and [bInterval] of an endpoint. *)
Definition ep_fields (e : nat) : M (Z * Z) :=
  let* d := ep_descriptor e in
  let* size_ := rd16 d Off.wMaxPacketSize in
  let* interval := rd8 d Off.bInterval in
  ret (size_, interval).

(** The endpoint built, its fields, the node [wMaxPacketSize(val)]
    returns, the fields afterwards. *)
Definition observe_wMaxPacketSize (junk : nat -> Z)
    (stale : nat -> option Z) (val : Z)
  : result (nat * (Z * Z) * nat * (Z * Z)) :=
  answer (from_start (let* b := build_1_interface_1_endpoint junk stale
                                  true Bulk in
                      let* before := ep_fields (snd b) in
                      let* e' := ep_wMaxPacketSize (snd b) val in
                      let* after := ep_fields (snd b) in
                      ret (snd b, before, e', after))).

Definition interface_record : list Z := [9; 4; 0; 0; 1; 0; 0; 0; 0].

(** Parsing [chain_with_zero_length]: the configuration handed back, its
    number of interfaces, the number of endpoint nodes made. *)
Definition observe_zero_length (junk : nat -> Z) (stale : nat -> option Z)
  : result (option nat * Z * nat) :=
  rbind (reparse junk stale chain_with_zero_length) (fun r =>
  match fst r with
  | Some c =>
      rbind (usbInterfaceCount c (snd r)) (fun n =>
      Ok (fst r, fst n, length (endpoint_objs (snd r))))
  | None => Fault NullDeref
  end).

(** After [createConfiguration] alone: the device record, the number of
    configuration nodes, whether the arena has storage, its length. *)
Definition observe_construction (stale : nat -> option Z)
  : result (option (list Z) * nat * bool * Z) :=
  rbind (from_start (createConfiguration stale)) (fun r =>
  let w := snd r in
  Ok (dev_descriptor_data (device w), length (configuration_objs w),
      bool_decide (is_Some (buffer_ptr (arena w))), arena_length (arena w))).

(** Ten calls of [add] on the new table, then an eleventh: the indices of
    the ten, the capacity and the size of the table after them, and what
    the eleventh call comes to. *)
Definition observe_eleven_adds (text : string)
  : result (list Z * Z * Z * result Z) :=
  rbind USBStrings_new (fun s =>
  rbind (add_many 10 text s) (fun r =>
  Ok (fst r, max_size (char_array (snd r)), size (char_array (snd r)),
      rbind (strings_add (Some text) (snd r)) (fun r' => Ok (fst r'))))).

(** [add(a)], [add(b)], then [string(index)]: the two indices, and the
    record at the pointer handed out. *)
Definition observe_two_strings (a b : string) (index : Z)
  : result (Z * Z * option (list Z)) :=
  rbind USBStrings_new (fun s =>
  rbind (strings_add (Some a) s) (fun r1 =>
  rbind (strings_add (Some b) (snd r1)) (fun r2 =>
  rbind (strings_string index (snd r2)) (fun r3 =>
  Ok (fst r1, fst r2,
      option_map wire_record (deref_strptr (fst r3) (snd r3))))))).

(** The chain copied into the arena, then the first two rounds of the
    scan from its start: the local variables [ptr], [len], [actual_itf]
    they leave. *)
Definition observe_scan (junk : nat -> Z) (stale : nat -> option Z)
  : result (Z * Z * option nat) :=
  answer (from_start
            (dev_setConfigurationDescriptor junk stale
               (Some chain_with_zero_length) 27 false >>
             parse_rounds junk 2 0 27 0 9 None)).

(** [parseDescriptor(data, data_len)] cut short after at most [n] rounds of
    its loop: the local variables [ptr], [len], [actual_itf] at that
    point. *)
Definition scan (junk : nat -> Z) (n : nat) (c : nat) (data : Z)
    (data_len : Z) : M (Z * Z * option nat) :=
  let* len := rd8 (Some data) 0 in
  parse_rounds junk n c (data + data_len) data len None.

(** A world with nothing in it, standing in where a sample run gives
    none. *)
Definition blank_world : World :=
  {| arena := {| buffer_ptr := None; arena_length := 0 |};
     strings := {| char_array := mkVector 0 0 0 [] None;
                   result_buf := []; language := [] |};
     device := {| dev_descriptor_data := None;
                  configurations := mkVector 0 0 0 [] None;
                  descriptor_total_size := 0 |};
     configuration_objs := []; interface_objs := []; endpoint_objs := [] |}.

Definition world_of {A} (r : result (A * World)) : World :=
  match r with
  | Ok (_, w) => w
  | Fault _ => blank_world
  end.

(** The world once [chain_with_zero_length] has been copied into the arena
    of a new process, before it is parsed. *)
Definition world_with_chain : World :=
  Eval vm_compute in
    world_of (from_start
                (dev_setConfigurationDescriptor zeroed born_null
                   (Some chain_with_zero_length) 27 false)).

(** The world once [chain_with_class_record] has been copied into the
    arena of a new process. *)
Definition world_with_class_record : World :=
  Eval vm_compute in
    world_of (from_start
                (dev_setConfigurationDescriptor zeroed born_null
                   (Some chain_with_class_record) 32 false)).

(** A small builder program and the world it leaves. *)
Definition sample_program : list step :=
  [SetManufacturer "TinyUSB"; CreateConfiguration; CreateInterface 0;
   SetInterfaceName 0 "MIDI"; CreateEndpoint 0 true Bulk; SetInterval 1 10;
   CreateConfiguration].

Definition sample_world : World :=
  Eval vm_compute in world_of (from_start (do_steps zeroed born_null sample_program)).

(** A parse is refused when the call faults or hands back no
    configuration. *)
Definition refused {A} (r : result (option A * World)) : Prop :=
  match r with
  | Ok (Some _, _) => False
  | _ => True
  end.

(** ** Assertions on programs *)

(** If [m] starts where [P] holds and completes, [Q] holds of its answer
    and of the world it leaves. *)
Definition hoare {A} (P : World -> Prop) (m : M A) (Q : A -> World -> Prop)
  : Prop :=
  forall w a w', P w -> m w = Ok (a, w') -> Q a w'.

(** [m] leaves the part [f] of the world as it is. *)
Definition keeps {A B} (f : World -> B) (m : M A) : Prop :=
  forall w a w', m w = Ok (a, w') -> f w' = f w.

(** The parts of the world the layout of the arena speaks about. *)
Definition layout_view (w : World) :=
  (arena w, configuration_objs w, interface_objs w, endpoint_objs w).

(** The world once byte [q] of the arena's storage holds [x]. *)
Definition poke_world (w : World) (q : Z) (x : Z) : World :=
  match buffer_ptr (arena w) with
  | Some v =>
      {| arena :=
           {| buffer_ptr :=
                Some {| max_size := max_size v; actual_size := actual_size v;
                        increment_by := increment_by v;
                        data_ := <[Z.to_nat q := x]> (data_ v);
                        empty := empty v |};
              arena_length := arena_length (arena w) |};
         strings := strings w; device := device w;
         configuration_objs := configuration_objs w;
         interface_objs := interface_objs w;
         endpoint_objs := endpoint_objs w |}
  | None => w
  end.

(** ** String records *)

(** How many characters [toUtf] encodes. *)
Definition encoded_len (t : string) : Z :=
  if strlen t >? 31 then 31 else strlen t.

(** The code units of the first [n] characters. *)
Definition utf16_units (t : string) (n : nat) : list Z :=
  map (fun i => uint16 (char_at t (Z.of_nat i))) (seq 0 n).

(** The UTF-16LE bytes of a text of one-byte characters: for each
    character its code, then a zero byte. *)
Fixpoint utf16le (t : string) : list Z :=
  match t with
  | EmptyString => []
  | String c r => Z.of_nat (nat_of_ascii c) :: 0 :: utf16le r
  end.

(** Every character of the text is 7-bit, the ASCII text [toUtf] is
    written for; for such text it makes no difference whether plain [char]
    is signed. *)
Fixpoint ascii7 (t : string) : bool :=
  match t with
  | EmptyString => true
  | String c r => (nat_of_ascii c <? 128)%nat && ascii7 r
  end.

(** The string descriptor of a text: its length in bytes, the type tag
    0x03, and the UTF-16LE bytes of the characters before the first NUL, 31
    of them at most. *)
Definition string_record (t : string) : list Z :=
  [2 * Z.min (strlen t) 31 + 2; 0x03]
  ++ utf16le (substring 0 (Z.to_nat (Z.min (strlen t) 31)) t).

(** ** Records of a chain by type *)


(** ** Records of any type *)

(** Bytes a chain of records takes; a record is given by its length and
    its type tag. *)
Fixpoint records_total (rs : list (Z * Z)) : Z :=
  match rs with
  | [] => 0
  | r :: rest => fst r + records_total rest
  end.

(** From offset [off] on, [bytes] holds the records [rs] back to back, each
    with its length in byte 0 and its type tag in byte 1. *)
Fixpoint records_at (bytes : list Z) (off : Z) (rs : list (Z * Z)) : Prop :=
  match rs with
  | [] => True
  | r :: rest =>
      bytes !! Z.to_nat off = Some (fst r)
      /\ bytes !! Z.to_nat (off + 1) = Some (snd r)
      /\ records_at bytes (off + fst r) rest
  end.

(** How many of the records have the type tag [id]. *)
Fixpoint count_type (id : Z) (rs : list (Z * Z)) : Z :=
  match rs with
  | [] => 0
  | r :: rest => (if snd r =? id then 1 else 0) + count_type id rest
  end.

(** ** Fields with a setter *)

(** The fields of the device record that have a setter of their own. *)
Inductive device_field : Type :=
| F_bcdUSB | F_bDeviceClass | F_bDeviceSubClass | F_bDeviceProtocol
| F_bMaxPacketSize0 | F_idVendor | F_idProduct | F_bcdDevice.

Definition device_setter (f : device_field) : Z -> M unit :=
  match f with
  | F_bcdUSB => dev_bcdUSB
  | F_bDeviceClass => dev_bDeviceClass
  | F_bDeviceSubClass => dev_bDeviceSubClass
  | F_bDeviceProtocol => dev_bDeviceProtocol
  | F_bMaxPacketSize0 => dev_bMaxPacketSize0
  | F_idVendor => dev_idVendor
  | F_idProduct => dev_idProduct
  | F_bcdDevice => dev_bcdDevice
  end.

Definition device_field_offset (f : device_field) : Z :=
  match f with
  | F_bcdUSB => Off.bcdUSB
  | F_bDeviceClass => Off.bDeviceClass
  | F_bDeviceSubClass => Off.bDeviceSubClass
  | F_bDeviceProtocol => Off.bDeviceProtocol
  | F_bMaxPacketSize0 => Off.bMaxPacketSize0
  | F_idVendor => Off.idVendor
  | F_idProduct => Off.idProduct
  | F_bcdDevice => Off.bcdDevice
  end.

(** Bytes a field of the device record takes. *)
Definition device_field_width (f : device_field) : Z :=
  match f with
  | F_bcdUSB | F_idVendor | F_idProduct | F_bcdDevice => 2
  | _ => 1
  end.

(** The little-endian value of the [width] bytes from [off] on. *)
Fixpoint read_le (bytes : list Z) (off : nat) (width : nat) : option Z :=
  match width with
  | O => Some 0
  | S n =>
      match bytes !! off, read_le bytes (S off) n with
      | Some b, Some rest => Some (b + 256 * rest)
      | _, _ => None
      end
  end.

(** The three strings of the device record. *)
Inductive device_string : Type := S_manufacturer | S_product | S_serialNumber.

Definition device_string_setter (f : device_string) : option string -> M unit :=
  match f with
  | S_manufacturer => dev_manufacturer
  | S_product => dev_product
  | S_serialNumber => dev_serialNumber
  end.

Definition device_string_offset (f : device_string) : Z :=
  match f with
  | S_manufacturer => Off.iManufacturer
  | S_product => Off.iProduct
  | S_serialNumber => Off.iSerialNumber
  end.

(** The fields of the interface record that have a setter of their own. *)
Inductive interface_field : Type :=
| I_iInterface | I_bAlternateSetting | I_bInterfaceClass
| I_bInterfaceSubClass | I_bInterfaceProtocol.

Definition interface_setter (f : interface_field) : nat -> Z -> M nat :=
  match f with
  | I_iInterface => itf_iInterface
  | I_bAlternateSetting => itf_bAlternateSetting
  | I_bInterfaceClass => itf_bInterfaceClass
  | I_bInterfaceSubClass => itf_bInterfaceSubClass
  | I_bInterfaceProtocol => itf_bInterfaceProtocol
  end.

Definition interface_field_offset (f : interface_field) : Z :=
  match f with
  | I_iInterface => Off.iInterface
  | I_bAlternateSetting => Off.bAlternateSetting
  | I_bInterfaceClass => Off.bInterfaceClass
  | I_bInterfaceSubClass => Off.bInterfaceSubClass
  | I_bInterfaceProtocol => Off.bInterfaceProtocol
  end.

(** ** Loops and their bounds *)

(** [m] never stops for want of fuel. *)
Definition fuel_free {A} (m : M A) : Prop := forall w, m w <> Fault OutOfFuel.

(** The same of a call that does not touch the world. *)
Definition fuel_free_result {A} (r : result A) : Prop := r <> Fault OutOfFuel.

(** ** A program that fills the arena *)

(** Two configurations with seven interfaces each, and one more endpoint:
    249 of the 256 bytes. *)
Definition filling_program : list step :=
  [CreateConfiguration; CreateConfiguration]
  ++ repeat (CreateInterface 0) 7 ++ repeat (CreateInterface 1) 7
  ++ [CreateEndpoint 0 true Bulk].

Definition full_world : World :=
  Eval vm_compute in world_of (from_start (do_steps zeroed born_null filling_program)).

(** ** The layout a builder program makes *)

(** Whether the record of a configuration exists. *)
Definition has_record (x : USBConfiguration) : bool :=
  match conf_descriptor_data x with Some _ => true | None => false end.

(** For each configuration node, whether its record exists. *)
Definition have_of (w : World) : list bool :=
  map has_record (configuration_objs w).

(** The records a builder call appends to the arena, [have] telling which
    configurations have their record. *)
Definition step_layout (s : step) (have : list bool) : list kind :=
  match s with
  | CreateInterface c =>
      match have !! c with
      | Some false => [KConfiguration; KInterface; KEndpoint]
      | _ => [KInterface; KEndpoint]
      end
  | CreateEndpoint _ _ _ => [KEndpoint]
  | _ => []
  end.

Definition step_have (s : step) (have : list bool) : list bool :=
  match s with
  | CreateConfiguration => have ++ [false]
  | CreateInterface c => <[c := true]> have
  | _ => have
  end.

(** The records a builder program appends, in order. *)
Fixpoint layout_of (prog : list step) (have : list bool) : list kind :=
  match prog with
  | [] => []
  | s :: rest => step_layout s have ++ layout_of rest (step_have s have)
  end.

(** * Properties *)

(** ** Vector *)

Lemma length_alloc {T} (junk : nat -> T) (n : Z) :
  length (alloc junk n) = Z.to_nat n.
Proof. unfold alloc. by rewrite length_map, length_seq. Qed.

Lemma memcpy_Ok {T} (dst src : list T) (at_ n : Z) :
  0 <= at_ -> 0 <= n -> n <= Z.of_nat (length src) ->
  at_ + n <= Z.of_nat (length dst) ->
  memcpy dst at_ src n
  = Ok (take (Z.to_nat at_) dst ++ take (Z.to_nat n) src
          ++ drop (Z.to_nat (at_ + n)) dst).
Proof.
  intros H1 H2 H3 H4. unfold memcpy.
  destruct (0 <=? at_) eqn:E1; [|lia].
  destruct (0 <=? n) eqn:E2; [|lia].
  destruct (n <=? Z.of_nat (length src)) eqn:E3; [|lia].
  destruct (at_ + n <=? Z.of_nat (length dst)) eqn:E4; [|lia].
  reflexivity.
Qed.





(** ** The state monad *)

Lemma bind_Ok {A B} (m : M A) (k : A -> M B) (w : World) (r : B * World) :
  bind m k w = Ok r <-> exists a w1, m w = Ok (a, w1) /\ k a w1 = Ok r.
Proof.
  unfold bind. split.
  - destruct (m w) as [[a w1]|f]; [eauto|discriminate].
  - intros (a & w1 & -> & H). exact H.
Qed.

Lemma lift_Ok {A} (r : result A) (w : World) (a : A) (w' : World) :
  lift r w = Ok (a, w') <-> r = Ok a /\ w' = w.
Proof.
  unfold lift. destruct r as [a0|f]; split.
  - intros [= -> ->]. done.
  - intros [[= ->] ->]. done.
  - discriminate.
  - intros [[=] _].
Qed.

Lemma rd8_world (p : option Z) (k : Z) (w : World) (x : Z) (w' : World) :
  rd8 p k w = Ok (x, w') -> w' = w.
Proof.
  unfold rd8. destruct p; [|discriminate].
  destruct (buffer_ptr (arena w)); [|discriminate].
  intros H. apply lift_Ok in H. tauto.
Qed.

Lemma rbind_Ok {A B} (r : result A) (k : A -> result B) (b : B) :
  rbind r k = Ok b <-> exists a, r = Ok a /\ k a = Ok b.
Proof.
  destruct r as [a|f]; simpl; split.
  - eauto.
  - by intros (a' & [= <-] & H).
  - discriminate.
  - by intros (a' & [=] & _).
Qed.

Lemma load_Ok {T} (l : list T) (i : Z) (x : T) :
  load l i = Ok x <-> 0 <= i /\ l !! Z.to_nat i = Some x.
Proof.
  unfold load. destruct (0 <=? i) eqn:E.
  - apply Z.leb_le in E. destruct (l !! Z.to_nat i) as [y|]; split.
    + by intros [= ->].
    + by intros [_ [= ->]].
    + discriminate.
    + by intros [_ [=]].
  - apply Z.leb_gt in E. split; [discriminate|lia].
Qed.

Lemma store_Ok {T} (l l' : list T) (i : Z) (x : T) :
  store l i x = Ok l'
  <-> 0 <= i < Z.of_nat (length l) /\ l' = <[Z.to_nat i := x]> l.
Proof.
  unfold store.
  destruct ((0 <=? i) && (i <? Z.of_nat (length l))) eqn:E.
  - apply andb_true_iff in E as [E1%Z.leb_le E2%Z.ltb_lt].
    split; [intros [= <-]; split; [lia|done]|intros [_ ->]; done].
  - apply andb_false_iff in E as [E%Z.leb_gt|E%Z.ltb_ge];
      (split; [discriminate|lia]).
Qed.

(** ** The total-length field *)

(** C1 fails on the code: a configuration with one interface is built,
    [configurationDescriptor(0)] is asked for: the arena holds 25 bytes,
    and bytes 2 and 3 at the address handed out, the total-length field,
    are the two bytes the fresh storage held there: no call has written
    them. *)
Theorem configurationDescriptor_leaves_wTotalLength (junk : nat -> Z) :
  observe_wTotalLength junk born_null
  = Ok ([9; 2; junk 2%nat; junk 3%nat], 25).
Proof. vm_compute. reflexivity. Qed.

(** In storage that held zeros the field reads 0, not 25. *)
Lemma configurationDescriptor_wTotalLength_zeroed :
  observe_wTotalLength zeroed born_null = Ok ([9; 2; 0; 0], 25).
Proof. vm_compute. reflexivity. Qed.

(** The sibling [configurationDescriptorExt] does write the field. *)
Lemma configurationDescriptorExt_sets_wTotalLength (junk : nat -> Z) :
  observe_wTotalLength_ext junk born_null = Ok ([9; 2; 25; 0], 25).
Proof. vm_compute. reflexivity. Qed.

(** ** Round trip through the parser *)

(** C2 fails on the code: a configuration with one interface and one
    endpoint besides the control endpoint is built, its 32 bytes are parsed
    back: the counts of interfaces and of endpoints agree (1 and 2), but
    byte 13, the interface record's bNumEndpoints, is 2 in the bytes built
    and 4 in the bytes the parsed tree lies over; every other byte
    agrees. *)
Theorem reparse_counts_endpoints_again (isInput : bool) (xfer : TransferType) :
  exists original parsed,
    roundtrip zeroed born_null isInput xfer
    = Ok ((1, 2), original, (1, 2), parsed)
    /\ length original = 32%nat
    /\ original !! 13%nat = Some 2
    /\ parsed = <[13%nat := 4]> original.
Proof.
  destruct isInput, xfer;
    (eexists _, _; split; [vm_compute; reflexivity|]; repeat split).
Qed.

(** ** Endpoint address *)

(** The direction never reaches the address: [isInput<7] is 1 for both
    directions. *)
Lemma endpoint_address_value (n : Z) (isInput : bool) :
  endpoint_address n isInput = Z.lor (Z.land n 7) 1.
Proof. unfold endpoint_address. by destruct isInput. Qed.

Lemma endpoint_address_bit7 (n : Z) (isInput : bool) :
  Z.testbit (endpoint_address n isInput) 7 = false.
Proof.
  rewrite endpoint_address_value, Z.lor_spec, Z.land_spec.
  replace (Z.testbit 7 7) with false by reflexivity.
  rewrite andb_false_r. reflexivity.
Qed.

(** C3 fails on the code: the endpoint created after the control endpoint
    gets endpoint number 1, and for both directions its bEndpointAddress is
    0x01; for direction in the claim has 0x81. *)
Theorem endpoint_1_address (junk : nat -> Z) (isInput : bool)
    (xfer : TransferType) :
  observe_address junk born_null isInput xfer = Ok (1, 0x01).
Proof. destruct isInput, xfer; vm_compute; reflexivity. Qed.

(** ** wMaxPacketSize *)

(** X15: on every endpoint and for every value, the setter
    [wMaxPacketSize] does what the setter [bInterval] does: same outcome,
    same bytes. *)
Lemma wMaxPacketSize_is_bInterval (e : nat) (val : Z) (w : World) :
  ep_wMaxPacketSize e val w = ep_bInterval e val w.
Proof.
  unfold ep_wMaxPacketSize, ep_bInterval, bind.
  destruct (ep_descriptor e w) as [[d w1]|]; [|reflexivity].
  unfold wr8. destruct d; [|reflexivity].
  destruct (buffer_ptr (arena w1)); [|reflexivity].
  unfold bind. replace (uint8 (uint16 val)) with (uint8 (uint8 val)); [reflexivity|].
  unfold uint8, uint16. rewrite Z.mod_mod by lia.
  change 65536 with (256 * 256). symmetry. 
  rewrite Z.rem_mul_r by lia. rewrite Z.mul_comm, Z.mod_add by lia. apply Z.mod_mod. lia.
Qed.

(** C4 fails on the code: on a new endpoint (wMaxPacketSize 64, bInterval
    1), [wMaxPacketSize(512)] returns the node, leaves the field
    wMaxPacketSize at 64 and sets bInterval to 0, the low byte of 512. *)
Theorem wMaxPacketSize_sets_bInterval (junk : nat -> Z) :
  observe_wMaxPacketSize junk born_null 512
  = Ok (1%nat, (64, 1), 1%nat, (64, 0)).
Proof. vm_compute. reflexivity. Qed.

(** ** Capacity of the arena *)

(** C5 fails on the code: [filling_program] leaves 249 of the 256 bytes of
    the arena used.  Appending a 9-byte record with [size_in = 0] (the size
    is then read from the record), as
    [USBDevice::setConfigurationDescriptor(descriptors)] does with its
    default [len = 0], passes the guard, which tests 249 + 0 < 256, and
    copies 9 bytes to offsets 249..257 of the 256-byte storage.  With the
    size given, the same append is refused and the arena is left as it
    was. *)
Theorem addDescriptor_guard_misses_implied_size (junk : nat -> Z)
    (stale : nat -> option Z) :
  from_start (do_steps zeroed born_null filling_program) = Ok (tt, full_world)
  /\ option_map max_size (buffer_ptr (arena full_world)) = Some 256
  /\ totalSize (arena full_world) = 249
  /\ load interface_record 0 = Ok 9
  /\ option_map (checkSize (totalSize (arena full_world) + 0))
       (buffer_ptr (arena full_world)) = Some true
  /\ addDescriptor junk (Some interface_record) 0 (arena full_world)
     = Fault OutOfBounds
  /\ dev_setConfigurationDescriptor junk stale (Some interface_record) 0 false
       full_world = Fault OutOfBounds
  /\ addDescriptor junk (Some interface_record) 9 (arena full_world)
     = Ok (None, arena full_world).
Proof.
  split; [vm_compute; reflexivity|]. repeat split.
Qed.

(** ** Zero-length record *)

(** C6, as stated, fails: in [chain_with_zero_length] the scan is at
    offset 18 < 27 after two rounds, on a record of length 0; the parse is
    not refused: it hands back the configuration, with the one interface
    parsed so far and without the endpoint that follows the record of
    length 0. *)
Lemma parse_zero_length_counterexample :
  observe_scan zeroed born_null = Ok (18, 0, Some 0%nat)
  /\ ~ refused (reparse zeroed born_null chain_with_zero_length)
  /\ observe_zero_length zeroed born_null = Ok (Some 0%nat, 1, 0%nat).
Proof.
  split; [vm_compute; reflexivity|]. split; [|vm_compute; reflexivity].
  vm_compute. intros [].
Qed.

(** ** Construction of the nodes *)

(** C7, as stated, fails: after [createConfiguration], which makes the
    device record and a configuration node, the device record (18 bytes,
    tag 0x01) exists in storage of its own, one configuration node exists,
    and the arena has no storage and length 0: nothing was appended. *)
Lemma construction_appends_nothing :
  observe_construction born_null
  = Ok (Some [18; 1; 0; 2; 0; 0; 0; 64; 0; 0; 1; 0; 1; 0; 0; 0; 0; 1],
        1%nat, false, 0).
Proof. vm_compute. reflexivity. Qed.

(** ** Capacity of the string table *)

(** C9 fails on the code: the table is made with room for
    (5 / 5 + 1) * 5 = 10 entries; ten calls of [add] return 1 to 10 and fill
    it; the eleventh call asks [grow(10)], which does not grow a store of
    10, and writes cell 10, one past the end of the storage. *)
Theorem eleventh_add_overruns :
  observe_eleven_adds "x"%string
  = Ok ([1; 2; 3; 4; 5; 6; 7; 8; 9; 10], 10, 10, Fault OutOfBounds).
Proof. vm_compute. reflexivity. Qed.

(** [add("Alpha")] and [add("Beta")] return 1 and 2, and the record of
    index 1 decodes to "Alpha". *)
Lemma add_Alpha_Beta :
  observe_two_strings "Alpha"%string "Beta"%string 1
  = Ok (1, 2, Some [12; 3; 65; 0; 108; 0; 112; 0; 104; 0; 97; 0])
  /\ decode_utf16 [12; 3; 65; 0; 108; 0; 112; 0; 104; 0; 97; 0]
     = Some "Alpha"%string.
Proof. split; vm_compute; reflexivity. Qed.

(** ** Capacity of the arena, explicit sizes *)


(** ** String records *)

(** The copy loop of [toUtf] fills the cells after the header cell. *)
Lemma toUtf_copy_spec (t : string) (n : nat) :
  forall (i : nat) (res : list Z),
    (S i + n <= length res)%nat ->
    toUtf_copy t (Z.of_nat i) n res
    = Ok (take (S i) res
            ++ map (fun k => uint16 (char_at t (Z.of_nat k))) (seq i n)
            ++ drop (S i + n) res).
Proof.
  induction n as [|n IH]; intros i res Hlen; simpl.
  - by rewrite Nat.add_0_r, take_drop.
  - assert (store res (1 + Z.of_nat i) (uint16 (char_at t (Z.of_nat i)))
            = Ok (<[S i := uint16 (char_at t (Z.of_nat i))]> res)) as ->.
    { apply store_Ok. split; [lia|].
      by replace (Z.to_nat (1 + Z.of_nat i)) with (S i) by lia. }
    simpl. replace (Z.of_nat i + 1) with (Z.of_nat (S i)) by lia.
    rewrite IH by (rewrite length_insert; lia).
    f_equal.
    rewrite (take_S_r _ (S i) (uint16 (char_at t (Z.of_nat i))))
      by (apply list_lookup_insert_eq; lia).
    rewrite take_insert_ge by lia.
    rewrite drop_insert_lt by lia.
    rewrite <- app_assoc. simpl.
    by replace (S (i + S n)) with (S (S (i + n))) by lia.
Qed.

Lemma encoded_len_bounds (t : string) : 0 <= encoded_len t <= 31.
Proof.
  assert (0 <= strlen t) as H.
  { induction t as [|c r IH]; simpl; [lia|]. destruct (Ascii.eqb c zero); lia. }
  unfold encoded_len. destruct (strlen t >? 31) eqn:E; lia.
Qed.

Lemma length_cell_bytes (cells : list Z) :
  length (cell_bytes cells) = (2 * length cells)%nat.
Proof. unfold cell_bytes. induction cells as [|c cs IH]; simpl; lia. Qed.

Lemma lo_of_cell (a b : Z) : 0 <= b < 256 -> (a * 256 + b) mod 256 = b.
Proof.
  intros H. rewrite Z.add_comm, Z.mod_add by lia. apply Z.mod_small. lia.
Qed.

Lemma hi_of_cell (a b : Z) : 0 <= b < 256 -> (a * 256 + b) / 256 = a.
Proof.
  intros H. rewrite Z.add_comm, Z.div_add by lia.
  rewrite Z.div_small by lia. lia.
Qed.

Lemma header_cell_lo (c0 x y : Z) :
  0 <= x < 256 -> set_hi_byte (set_lo_byte c0 x) y mod 256 = x.
Proof.
  intros H. unfold set_hi_byte, set_lo_byte, uint8.
  rewrite lo_of_cell by (apply Z.mod_pos_bound; lia).
  rewrite lo_of_cell by (apply Z.mod_pos_bound; lia).
  apply Z.mod_small. lia.
Qed.

Lemma header_cell_hi (c0 x y : Z) :
  0 <= y < 256 -> set_hi_byte (set_lo_byte c0 x) y / 256 mod 256 = y.
Proof.
  intros H. unfold set_hi_byte, uint8.
  rewrite hi_of_cell by (apply Z.mod_pos_bound; lia).
  rewrite Z.mod_mod by lia. apply Z.mod_small. lia.
Qed.

(** The record [toUtf] leaves in the scratch buffer: the length byte, the
    tag 0x03, the code units of the first 31 characters at most. *)
Lemma toUtf_wire (s : USBStrings) (t : string) :
  length (result_buf s) = 32%nat ->
  exists s',
    toUtf (Some t) s = Ok (PResult, s')
    /\ char_array s' = char_array s
    /\ wire_record (result_buf s')
       = [2 * encoded_len t + 2; 3]
           ++ cell_bytes (utf16_units t (Z.to_nat (encoded_len t))).
Proof.
  intros Hlen. pose proof (encoded_len_bounds t) as Hb.
  unfold toUtf. fold (encoded_len t).
  rewrite (toUtf_copy_spec t _ 0) by lia. simpl rbind.
  destruct (result_buf s) as [|c0 rest] eqn:Hres; [discriminate|].
  simpl take. simpl app at 1. unfold load. simpl. unfold store. simpl.
  eexists. split; [reflexivity|]. split; [reflexivity|]. simpl.
  unfold wire_record, cell_bytes. simpl.
  fold (utf16_units t (Z.to_nat (encoded_len t))).
  rewrite (header_cell_lo c0 (2 * encoded_len t + 2) 3) by lia.
  rewrite (header_cell_hi c0 (2 * encoded_len t + 2) 3) by lia.
  replace (Z.to_nat (2 * encoded_len t + 2))
    with (S (S (2 * Z.to_nat (encoded_len t)))) by lia.
  simpl take. do 2 f_equal.
  rewrite flat_map_app. fold (cell_bytes (utf16_units t (Z.to_nat (encoded_len t)))).
  rewrite take_app_le by (rewrite length_cell_bytes; unfold utf16_units;
                          rewrite length_map, length_seq; lia).
  apply take_ge. rewrite length_cell_bytes. unfold utf16_units.
  rewrite length_map, length_seq. lia.
Qed.

Lemma utf16_units_String (c : ascii) (r : string) (n : nat) :
  utf16_units (String c r) (S n) = Z.of_nat (nat_of_ascii c) :: utf16_units r n.
Proof.
  unfold utf16_units. cbn [seq map]. rewrite <- seq_shift, map_map. f_equal.
  - pose proof (nat_ascii_bounded c). unfold uint16, char_at. simpl.
    apply Z.mod_small. lia.
  - apply map_ext. intros k. unfold char_at.
    replace (Z.to_nat (Z.of_nat (S k))) with (S k) by lia.
    by rewrite Nat2Z.id.
Qed.

(** The bytes of the code units of the first [n] characters are the
    UTF-16LE bytes of these characters. *)
Lemma cell_bytes_units (n : nat) :
  forall t : string, (n <= String.length t)%nat ->
    cell_bytes (utf16_units t n) = utf16le (substring 0 n t).
Proof.
  induction n as [|n IH]; intros t Hn.
  - destruct t; reflexivity.
  - destruct t as [|c r]; [simpl in Hn; lia|].
    rewrite utf16_units_String.
    unfold cell_bytes. cbn [flat_map app substring utf16le].
    fold (cell_bytes (utf16_units r n)). rewrite IH by (simpl in Hn; lia).
    pose proof (nat_ascii_bounded c) as Hc.
    rewrite (Z.mod_small (Z.of_nat _)) by lia.
    rewrite (Z.div_small (Z.of_nat _)) by lia. reflexivity.
Qed.

Lemma substring_whole (t : string) : substring 0 (String.length t) t = t.
Proof. induction t as [|c r IH]; [reflexivity|]. simpl. by rewrite IH. Qed.

Lemma decode_units_utf16le (t : string) : decode_units (utf16le t) = Some t.
Proof.
  induction t as [|c r IH]; [reflexivity|].
  cbn [utf16le decode_units]. rewrite IH.
  pose proof (nat_ascii_bounded c) as Hc.
  destruct (0 <=? Z.of_nat (nat_of_ascii c)) eqn:E0; [|lia].
  destruct (Z.of_nat (nat_of_ascii c) <? 256) eqn:E1; [|lia].
  cbn [andb Z.eqb]. by rewrite Nat2Z.id, ascii_nat_embedding.
Qed.

(** What [decode_units] reads as a text is the UTF-16LE bytes of that
    text and nothing else. *)
Lemma decode_units_Some (bytes : list Z) (t : string) :
  decode_units bytes = Some t -> bytes = utf16le t.
Proof.
  revert t. induction bytes as [bytes IH] using (induction_ltof1 _ (@length Z)).
  unfold ltof in IH. intros t.
  destruct bytes as [|lo [|hi rest]]; cbn [decode_units].
  - by intros [= <-].
  - discriminate.
  - destruct (0 <=? lo) eqn:E0; [|discriminate].
    destruct (lo <? 256) eqn:E1; [|discriminate].
    destruct (hi =? 0) eqn:E2; [|discriminate]. cbn [andb].
    destruct (decode_units rest) as [r|] eqn:Hr; [|discriminate].
    intros [= <-]. cbn [utf16le].
    rewrite (IH rest ltac:(simpl; lia) r Hr).
    rewrite nat_ascii_embedding by lia. f_equal; [lia|]. f_equal. lia.
Qed.

Lemma strlen_bounds (t : string) : 0 <= strlen t <= Z.of_nat (String.length t).
Proof.
  induction t as [|c r IH]; simpl; [lia|]. destruct (Ascii.eqb c zero); lia.
Qed.

Lemma encoded_len_min (t : string) : encoded_len t = Z.min (strlen t) 31.
Proof. unfold encoded_len. destruct (strlen t >? 31) eqn:E; lia. Qed.

(** The record [toUtf] leaves, for every text. *)
Lemma toUtf_string_record (s : USBStrings) (t : string) :
  length (result_buf s) = 32%nat ->
  exists s',
    toUtf (Some t) s = Ok (PResult, s')
    /\ char_array s' = char_array s
    /\ length (result_buf s') = 32%nat
    /\ wire_record (result_buf s') = string_record t.
Proof.
  intros Hlen. destruct (toUtf_wire s t Hlen) as (s' & Hs' & Hca & Hw).
  exists s'. split; [exact Hs'|]. split; [exact Hca|]. split.
  - revert Hs'. unfold toUtf. intros H.
    apply rbind_Ok in H as (r1 & Hr1 & H).
    apply rbind_Ok in H as (c0 & Hc0 & H).
    apply rbind_Ok in H as (r2 & Hr2 & H). injection H as <-. simpl.
    apply store_Ok in Hr2 as [_ ->]. rewrite length_insert.
    pose proof (encoded_len_bounds t) as Hb. unfold encoded_len in Hb.
    rewrite (toUtf_copy_spec t _ 0) in Hr1 by lia.
    injection Hr1 as <-.
    rewrite !length_app, length_take, length_map, length_seq, length_drop.
    lia.
  - rewrite Hw, encoded_len_min. unfold string_record.
    pose proof (strlen_bounds t) as Hb.
    by rewrite cell_bytes_units by lia.
Qed.

(** The record of a text of at most 31 characters without NUL. *)
Lemma string_record_whole (t : string) :
  strlen t = Z.of_nat (String.length t) -> (String.length t <= 31)%nat ->
  string_record t = [2 * Z.of_nat (String.length t) + 2; 3] ++ utf16le t.
Proof.
  intros Hnul H31. unfold string_record. rewrite Hnul.
  rewrite Z.min_l by lia. by rewrite Nat2Z.id, substring_whole.
Qed.

(** A text of at most 31 characters without NUL is read back from its
    record. *)
Theorem string_record_roundtrip (s : USBStrings) (t : string) :
  length (result_buf s) = 32%nat ->
  strlen t = Z.of_nat (String.length t) ->
  (String.length t <= 31)%nat ->
  exists s',
    toUtf (Some t) s = Ok (PResult, s')
    /\ wire_record (result_buf s')
       = [2 * Z.of_nat (String.length t) + 2; 3] ++ utf16le t
    /\ decode_utf16 (wire_record (result_buf s')) = Some t.
Proof.
  intros Hlen Hnul H31.
  destruct (toUtf_string_record s t Hlen) as (s' & Hs' & _ & _ & Hw).
  rewrite string_record_whole in Hw by done.
  exists s'. split; [done|]. split; [done|].
  rewrite Hw. unfold decode_utf16. simpl drop. apply decode_units_utf16le.
Qed.

(** While the table has room, [add] returns the next index and [string]
    of that index hands out the record of the text added. *)
Lemma add_then_string (s : USBStrings) (t : string) :
  Vector_wf (char_array s) ->
  actual_size (char_array s) < max_size (char_array s) <= 255 ->
  length (result_buf s) = 32%nat ->
  strlen t = Z.of_nat (String.length t) ->
  (String.length t <= 31)%nat ->
  exists s1 s2,
    strings_add (Some t) s = Ok (size (char_array s) + 1, s1)
    /\ strings_string (size (char_array s) + 1) s1 = Ok (PResult, s2)
    /\ wire_record (result_buf s2)
       = [2 * Z.of_nat (String.length t) + 2; 3] ++ utf16le t.
Proof.
  intros [[Ha0 Ham] Hl] [Hroom H255] Hres Hnul H31.
  unfold strings_add, append, grow, size.
  destruct (actual_size (char_array s) >? max_size (char_array s)) eqn:E; [lia|].
  simpl.
  assert (store (data_ (char_array s)) (actual_size (char_array s)) (Some t)
          = Ok (<[Z.to_nat (actual_size (char_array s)) := Some t]>
                  (data_ (char_array s)))) as ->
    by (apply store_Ok; split; [lia|done]).
  simpl. unfold uint8. rewrite Z.mod_small by lia.
  eexists. 
  destruct (string_record_roundtrip
              {| char_array :=
                   {| max_size := max_size (char_array s);
                      actual_size := actual_size (char_array s) + 1;
                      increment_by := increment_by (char_array s);
                      data_ := <[Z.to_nat (actual_size (char_array s)) := Some t]>
                                 (data_ (char_array s));
                      empty := empty (char_array s) |};
                 result_buf := result_buf s; language := language s |} t)
    as (s2 & Hutf & Hdec & _); [done|done|done|].
  exists s2. split; [reflexivity|]. split; [|done].
  unfold strings_string.
  destruct (actual_size (char_array s) + 1 =? 0) eqn:E0; [lia|].
  unfold strings_get, at_pos, get. simpl.
  replace (actual_size (char_array s) + 1 - 1) with (actual_size (char_array s))
    by lia.
  unfold uint16. rewrite Z.mod_small by lia.
  destruct (actual_size (char_array s) >=? actual_size (char_array s) + 1) eqn:E1;
    [lia|].
  assert (load (<[Z.to_nat (actual_size (char_array s)) := Some t]>
                  (data_ (char_array s))) (actual_size (char_array s))
          = Ok (Some t)) as ->
    by (apply load_Ok; split; [lia|apply list_lookup_insert_eq; lia]).
  simpl. exact Hutf.
Qed.

(** ** The scan of the parser stops at a record of length 0 *)

Lemma parse_round_ptr junk c ptr len itf w st w' :
  parse_round junk c ptr len itf w = Ok (st, w') -> fst (fst st) = ptr + len.
Proof.
  unfold parse_round. intros H.
  apply bind_Ok in H as (a & w1 & _ & H).
  apply bind_Ok in H as (l & w2 & _ & H).
  injection H as <- _. reflexivity.
Qed.

Lemma parse_loop_after_rounds junk c end_ q itf' w' n :
  q < end_ ->
  forall fuel ptr len itf w,
    parse_rounds junk n c end_ ptr len itf w = Ok ((q, 0, itf'), w') ->
    (Z.to_nat (end_ - ptr) <= fuel)%nat ->
    parse_loop junk fuel c end_ ptr len itf w = Ok (tt, w').
Proof.
  intros Hq. induction n as [|n IH]; intros fuel ptr len itf w Hr Hfuel.
  - injection Hr as -> -> -> ->.
    destruct fuel; simpl;
      (replace ((q <? end_) && (0 >? 0)) with false
         by (rewrite andb_false_r; reflexivity)); reflexivity.
  - simpl in Hr. destruct ((ptr <? end_) && (len >? 0)) eqn:Hc.
    + apply andb_true_iff in Hc as [Hp Hl].
      apply Z.ltb_lt in Hp. apply Z.gtb_lt in Hl.
      destruct fuel as [|fuel]; [lia|].
      simpl. replace ((ptr <? end_) && (len >? 0)) with true
        by (symmetry; apply andb_true_iff; split;
            [apply Z.ltb_lt|apply Z.gtb_lt]; lia).
      apply bind_Ok in Hr as (st & w1 & Hround & Hr).
      apply bind_Ok. exists st, w1. split; [exact Hround|].
      apply IH; [exact Hr|].
      rewrite (parse_round_ptr _ _ _ _ _ _ _ _ Hround). lia.
    + injection Hr as -> -> -> ->.
      destruct fuel; simpl; rewrite Hc; reflexivity.
Qed.

(** C6, amended: whenever the scan of [parseDescriptor] reaches, before
    the supplied end, a record whose length byte is 0, the parser stops
    there and returns normally, signalling nothing; the world it leaves is
    the one the rounds before that record made, with the interfaces and
    endpoints they created. *)
Theorem parseDescriptor_stops_at_zero_length (junk : nat -> Z) (n c : nat)
    (data data_len q : Z) (itf : option nat) (w w' : World) :
  scan junk n c data data_len w = Ok ((q, 0, itf), w') ->
  q < data + data_len ->
  parseDescriptor junk c (Some data) data_len w = Ok (tt, w').
Proof.
  unfold scan, parseDescriptor. intros H Hq.
  apply bind_Ok in H as (len & w1 & Hlen & H).
  apply bind_Ok. exists len, w1. split; [exact Hlen|].
  pose proof (rd8_world _ _ _ _ _ Hlen) as ->.
  eapply parse_loop_after_rounds; [exact Hq|exact H|lia].
Qed.

(** On [chain_with_zero_length] the parse ends at offset 18 with one
    interface and no endpoint. *)
Lemma parseDescriptor_stops_at_zero_length_witness :
  exists w',
    scan zeroed 2 0 0 27 world_with_chain = Ok ((18, 0, Some 0%nat), w')
    /\ parseDescriptor zeroed 0 (Some 0) 27 world_with_chain = Ok (tt, w')
    /\ length (interface_objs w') = 1%nat
    /\ length (endpoint_objs w') = 0%nat.
Proof.
  eexists. split; [vm_compute; reflexivity|].
  split; [|split; reflexivity].
  apply (parseDescriptor_stops_at_zero_length zeroed 2 0 0 27 18 (Some 0%nat)).
  - vm_compute. reflexivity.
  - lia.
Defined.

(** Rounds beyond the distance to [end] are never made: the bound
    [data_len] of [parseDescriptor] is enough. *)
Lemma parse_loop_fuel junk c end_ :
  forall fuel fuel' ptr len itf w,
    (Z.to_nat (end_ - ptr) <= fuel)%nat ->
    (Z.to_nat (end_ - ptr) <= fuel')%nat ->
    parse_loop junk fuel c end_ ptr len itf w
    = parse_loop junk fuel' c end_ ptr len itf w.
Proof.
  induction fuel as [|fuel IH]; intros fuel' ptr len itf w H1 H2.
  - destruct fuel'; simpl; [reflexivity|].
    destruct ((ptr <? end_) && (len >? 0)) eqn:Hc; [|reflexivity].
    apply andb_true_iff in Hc as [Hp _]. apply Z.ltb_lt in Hp. lia.
  - simpl. destruct ((ptr <? end_) && (len >? 0)) eqn:Hc.
    + apply andb_true_iff in Hc as [Hp Hl].
      apply Z.ltb_lt in Hp. apply Z.gtb_lt in Hl.
      destruct fuel' as [|fuel']; [lia|].
      simpl. replace ((ptr <? end_) && (len >? 0)) with true
        by (symmetry; apply andb_true_iff; split;
            [apply Z.ltb_lt|apply Z.gtb_lt]; lia).
      unfold bind.
      destruct (parse_round junk c ptr len itf w) as [[st w1]|] eqn:Hround;
        [|reflexivity].
      apply IH; rewrite (parse_round_ptr _ _ _ _ _ _ _ _ Hround); lia.
    + destruct fuel'; simpl; rewrite ?Hc; reflexivity.
Qed.

(** ** Rules for assertions *)

Lemma hoare_ret {A} (P : World -> Prop) (a : A) (Q : A -> World -> Prop) :
  (forall w, P w -> Q a w) -> hoare P (ret a) Q.
Proof. intros H w b w' HP [= <- <-]. auto. Qed.

Lemma hoare_bind {A B} (P : World -> Prop) (m : M A) (R : A -> World -> Prop)
    (k : A -> M B) (Q : B -> World -> Prop) :
  hoare P m R -> (forall a, hoare (R a) (k a) Q) -> hoare P (bind m k) Q.
Proof.
  intros Hm Hk w b w' HP H. apply bind_Ok in H as (a & w1 & H1 & H2).
  eapply Hk; [eapply Hm|]; eauto.
Qed.

Lemma hoare_rd8 (P : World -> Prop) (p : option Z) (k : Z)
    (Q : Z -> World -> Prop) :
  (forall x w, P w -> Q x w) -> hoare P (rd8 p k) Q.
Proof.
  intros H w x w' HP Hr. pose proof (rd8_world _ _ _ _ _ Hr) as ->. auto.
Qed.

Lemma wr8_Ok (p : option Z) (k x : Z) (w : World) (u : unit) (w' : World) :
  wr8 p k x w = Ok (u, w') ->
  exists off v,
    p = Some off /\ buffer_ptr (arena w) = Some v
    /\ 0 <= off + k < Z.of_nat (length (data_ v))
    /\ w' = poke_world w (off + k) (uint8 x).
Proof.
  unfold wr8, poke_world. destruct p as [off|]; [|discriminate].
  destruct (buffer_ptr (arena w)) as [v|]; [|discriminate].
  intros H. apply bind_Ok in H as (bytes & w1 & H1 & H2).
  apply lift_Ok in H1 as [H1 ->]. unfold store in H1.
  destruct ((0 <=? off + k) && (off + k <? Z.of_nat (length (data_ v)))) eqn:E;
    [|discriminate].
  injection H1 as <-. injection H2 as _ <-.
  apply andb_true_iff in E as [E1%Z.leb_le E2%Z.ltb_lt].
  exists off, v. split; [reflexivity|]. split; [reflexivity|].
  split; [lia|reflexivity].
Qed.

Lemma hoare_wr8 (P : World -> Prop) (p : option Z) (k x : Z)
    (Q : unit -> World -> Prop) :
  (forall off v w, p = Some off -> buffer_ptr (arena w) = Some v ->
     0 <= off + k < Z.of_nat (length (data_ v)) -> P w ->
     Q tt (poke_world w (off + k) (uint8 x))) ->
  hoare P (wr8 p k x) Q.
Proof.
  intros H w [] w' HP Hw. apply wr8_Ok in Hw as (off & v & -> & Hv & Hb & ->).
  eauto.
Qed.

(** ** Chains of records *)

Lemma kind_len_bounds (k : kind) : 7 <= kind_len k <= 9.
Proof. destruct k; cbv; split; discriminate. Qed.

Lemma chain_total_nonneg (ks : list kind) : 0 <= chain_total ks.
Proof.
  induction ks as [|k ks IH]; simpl; [lia|].
  pose proof (kind_len_bounds k) as Hkb. lia.
Qed.

Lemma chain_total_app (a b : list kind) :
  chain_total (a ++ b) = chain_total a + chain_total b.
Proof. induction a as [|k a IH]; simpl; lia. Qed.

Lemma chain_at_app (bytes : list Z) (a b : list kind) (off : Z) :
  chain_at bytes off (a ++ b)
  <-> chain_at bytes off a /\ chain_at bytes (off + chain_total a) b.
Proof.
  revert off. induction a as [|k a IH]; intros off; simpl.
  - rewrite Z.add_0_r. tauto.
  - rewrite IH, Z.add_assoc. tauto.
Qed.

Lemma chain_at_insert_beyond (bytes : list Z) (q x : Z) (ks : list kind) :
  forall off, 0 <= off -> off + chain_total ks <= q ->
  chain_at bytes off ks -> chain_at (<[Z.to_nat q := x]> bytes) off ks.
Proof.
  induction ks as [|k ks IH]; intros off Hoff Hq; simpl; [done|].
  simpl in Hq. pose proof (kind_len_bounds k) as Hkb. pose proof (chain_total_nonneg ks) as Htn.
  intros (H0 & H1 & Hrest).
  rewrite !list_lookup_insert_ne by lia.
  split; [done|]. split; [done|]. apply IH; [lia|lia|done].
Qed.

Lemma chain_at_insert_before (bytes : list Z) (q x : Z) (ks : list kind) :
  forall off, 0 <= q < off ->
  chain_at bytes off ks -> chain_at (<[Z.to_nat q := x]> bytes) off ks.
Proof.
  induction ks as [|k ks IH]; intros off Hq; simpl; [done|].
  pose proof (kind_len_bounds k) as Hkb.
  intros (H0 & H1 & Hrest).
  rewrite !list_lookup_insert_ne by lia.
  split; [done|]. split; [done|]. apply IH; [lia|done].
Qed.

Lemma chain_at_insert_payload (bytes : list Z) (x j : Z)
    (pre post : list kind) (k : kind) :
  2 <= j < kind_len k ->
  chain_at bytes 0 (pre ++ k :: post) ->
  chain_at (<[Z.to_nat (chain_total pre + j) := x]> bytes) 0 (pre ++ k :: post).
Proof.
  intros Hj. rewrite !chain_at_app. simpl.
  pose proof (chain_total_nonneg pre) as Htn.
  intros (Hpre & H0 & H1 & Hpost). split.
  - apply chain_at_insert_beyond; [lia|lia|done].
  - rewrite !list_lookup_insert_ne by lia.
    split; [done|]. split; [done|].
    apply chain_at_insert_before; [lia|done].
Qed.

Lemma chain_at_record (bytes : list Z) (pre post : list kind) (k : kind) :
  chain_at bytes 0 (pre ++ k :: post) ->
  bytes !! Z.to_nat (chain_total pre) = Some (kind_len k)
  /\ bytes !! Z.to_nat (chain_total pre + 1) = Some (kind_tag k).
Proof.
  rewrite chain_at_app. simpl. intros (_ & H0 & H1 & _).
  rewrite !Z.add_0_l in H0, H1. done.
Qed.

Lemma record_at_app (ls ps : list kind) (p : Z) (k : kind) :
  record_at ls p k -> record_at (ls ++ ps) p k.
Proof.
  intros (pre & post & -> & ->). exists pre, (post ++ ps).
  by rewrite <- app_assoc.
Qed.

Lemma record_at_last (ls : list kind) (k : kind) :
  record_at (ls ++ [k]) (chain_total ls) k.
Proof. by exists ls, []. Qed.

(** ** Writes into the arena and the layout *)

Lemma arena_byte_poke_same (w : World) (v : Vector Z) (q x : Z) :
  buffer_ptr (arena w) = Some v -> 0 <= q < Z.of_nat (length (data_ v)) ->
  arena_byte (poke_world w q x) q = Some x.
Proof.
  intros Hv Hq. unfold arena_byte, poke_world. rewrite Hv. simpl.
  destruct (0 <=? q) eqn:E; [|lia].
  apply list_lookup_insert_eq. lia.
Qed.

Lemma arena_byte_poke_other (w : World) (q q' x : Z) :
  0 <= q -> 0 <= q' -> q <> q' ->
  arena_byte (poke_world w q x) q' = arena_byte w q'.
Proof.
  intros Hq Hq' Hne. unfold arena_byte, poke_world.
  destruct (buffer_ptr (arena w)) as [v|] eqn:Hv; simpl; [|by rewrite Hv].
  destruct (0 <=? q'); [|done].
  apply list_lookup_insert_ne. lia.
Qed.

Lemma Laid_poke (hs ls : list kind) (w : World) (q x : Z) :
  (forall v, buffer_ptr (arena w) = Some v ->
     chain_at (data_ v) 0 hs -> chain_at (<[Z.to_nat q := x]> (data_ v)) 0 hs) ->
  Laid hs ls w -> Laid hs ls (poke_world w q x).
Proof.
  intros Hchain [Hpre Hbuf Hlen Hc Hi He]. unfold poke_world.
  destruct (buffer_ptr (arena w)) as [v|] eqn:Hv.
  - split; simpl; try done.
    destruct Hbuf as (Hm & Hl & Hch). rewrite length_insert.
    split; [done|]. split; [done|]. by apply Hchain.
  - split; try done. by rewrite Hv.
Qed.

Lemma Laid_poke_beyond (hs ls : list kind) (w : World) (q x : Z) :
  chain_total hs <= q -> Laid hs ls w -> Laid hs ls (poke_world w q x).
Proof.
  intros Hq. apply Laid_poke. intros v _.
  apply chain_at_insert_beyond; lia.
Qed.

Lemma Laid_poke_payload (hs ls : list kind) (w : World) (p j x : Z) (k : kind) :
  record_at hs p k -> 2 <= j < kind_len k ->
  Laid hs ls w -> Laid hs ls (poke_world w (p + j) x).
Proof.
  intros (pre & post & -> & ->) Hj. apply Laid_poke. intros v _.
  by apply chain_at_insert_payload.
Qed.

Lemma Laid_header (hs ps : list kind) (k : kind) (w : World) :
  Laid hs (hs ++ k :: ps) w ->
  arena_byte w (chain_total hs) = Some (kind_len k) ->
  arena_byte w (chain_total hs + 1) = Some (kind_tag k) ->
  Laid (hs ++ [k]) (hs ++ k :: ps) w.
Proof.
  intros [Hpre Hbuf Hlen Hc Hi He] H0 H1. unfold arena_byte in H0, H1.
  pose proof (chain_total_nonneg hs) as Htn.
  destruct (buffer_ptr (arena w)) as [v|] eqn:Hv; [|done].
  destruct (0 <=? chain_total hs) eqn:E0; [|lia].
  destruct (0 <=? chain_total hs + 1) eqn:E1; [|lia].
  split; try done.
  - exists ps. by rewrite <- app_assoc.
  - rewrite Hv. destruct Hbuf as (Hm & Hl & Hch).
    split; [done|]. split; [done|].
    apply chain_at_app. split; [done|]. simpl.
    rewrite !Z.add_0_l. done.
Qed.

Lemma Laid_headers_in_place_arena (ks : list kind) (w : World) (p : Z) (k : kind) :
  Laid ks ks w -> record_at ks p k ->
  arena_byte w p = Some (kind_len k) /\ arena_byte w (p + 1) = Some (kind_tag k).
Proof.
  intros [Hpre Hbuf Hlen Hc Hi He] (pre & post & -> & ->).
  pose proof (chain_total_nonneg pre) as Htn. unfold arena_byte.
  destruct (buffer_ptr (arena w)) as [v|] eqn:Hv.
  - destruct Hbuf as (_ & _ & Hch). apply chain_at_record in Hch.
    destruct (0 <=? chain_total pre) eqn:E0; [|lia].
    destruct (0 <=? chain_total pre + 1) eqn:E1; [|lia]. done.
  - by destruct pre.
Qed.

(** ** Parts of the world a call leaves alone *)

Section Keeps.
Context {B : Type} (f : World -> B).

Lemma keeps_ret {A} (a : A) : keeps f (ret a).
Proof. intros w b w' [= _ <-]. reflexivity. Qed.

Lemma keeps_bind {A C} (m : M A) (k : A -> M C) :
  keeps f m -> (forall a, keeps f (k a)) -> keeps f (bind m k).
Proof.
  intros Hm Hk w c w' H. apply bind_Ok in H as (a & w1 & H1 & H2).
  rewrite (Hk _ _ _ _ H2). eauto.
Qed.

Lemma keeps_fail {A} (e : fault) : keeps f (@fail A e).
Proof. intros w a w' [=]. Qed.

Lemma keeps_lift {A} (r : result A) : keeps f (lift r).
Proof. intros w a w' H. apply lift_Ok in H as [_ ->]. reflexivity. Qed.

Lemma keeps_get_world : keeps f get_world.
Proof. intros w a w' [= _ <-]. reflexivity. Qed.

Lemma keeps_rd8 (p : option Z) (k : Z) : keeps f (rd8 p k).
Proof. intros w a w' H. by rewrite (rd8_world _ _ _ _ _ H). Qed.

Section Arena_only.
Hypothesis f_arena : forall w d,
  f {| arena := d; strings := strings w; device := device w;
       configuration_objs := configuration_objs w;
       interface_objs := interface_objs w;
       endpoint_objs := endpoint_objs w |} = f w.

Lemma keeps_wr8 p k x : keeps f (wr8 p k x).
Proof.
  intros w a w' H. apply wr8_Ok in H as (off & v & _ & Hv & _ & ->).
  unfold poke_world. rewrite Hv. apply f_arena.
Qed.

Lemma keeps_wr16 p k x : keeps f (wr16 p k x).
Proof. apply keeps_bind; [|intros _]; apply keeps_wr8. Qed.

Lemma keeps_on_arena {A}
    (g : USBConfigurationDescriptorData
         -> result (A * USBConfigurationDescriptorData)) :
  keeps f (on_arena g).
Proof.
  intros w a w' H. unfold on_arena in H.
  apply bind_Ok in H as (r & w1 & H1 & H).
  apply lift_Ok in H1 as [_ ->].
  apply bind_Ok in H as (u & w2 & H2 & H).
  injection H as _ <-. injection H2 as _ <-. apply f_arena.
Qed.
End Arena_only.

Section Nodes_only.
Hypothesis f_confs : forall w l,
  f {| arena := arena w; strings := strings w; device := device w;
       configuration_objs := l;
       interface_objs := interface_objs w;
       endpoint_objs := endpoint_objs w |} = f w.
Hypothesis f_itfs : forall w l,
  f {| arena := arena w; strings := strings w; device := device w;
       configuration_objs := configuration_objs w;
       interface_objs := l;
       endpoint_objs := endpoint_objs w |} = f w.
Hypothesis f_eps : forall w l,
  f {| arena := arena w; strings := strings w; device := device w;
       configuration_objs := configuration_objs w;
       interface_objs := interface_objs w;
       endpoint_objs := l |} = f w.

Lemma keeps_put_configuration c x : keeps f (put_configuration c x).
Proof. intros w a w' [= _ <-]. apply f_confs. Qed.
Lemma keeps_put_interface i x : keeps f (put_interface i x).
Proof. intros w a w' [= _ <-]. apply f_itfs. Qed.
Lemma keeps_put_endpoint e x : keeps f (put_endpoint e x).
Proof. intros w a w' [= _ <-]. apply f_eps. Qed.

Lemma keeps_new_configuration x : keeps f (new_configuration x).
Proof. intros w a w' [= _ <-]. apply f_confs. Qed.
Lemma keeps_new_interface x : keeps f (new_interface x).
Proof. intros w a w' [= _ <-]. apply f_itfs. Qed.
Lemma keeps_new_endpoint x : keeps f (new_endpoint x).
Proof. intros w a w' [= _ <-]. apply f_eps. Qed.
End Nodes_only.

Lemma keeps_the_configuration c : keeps f (the_configuration c).
Proof. intros w a w' H. apply lift_Ok in H as [_ ->]. reflexivity. Qed.
Lemma keeps_the_interface i : keeps f (the_interface i).
Proof. intros w a w' H. apply lift_Ok in H as [_ ->]. reflexivity. Qed.
Lemma keeps_the_endpoint e : keeps f (the_endpoint e).
Proof. intros w a w' H. apply lift_Ok in H as [_ ->]. reflexivity. Qed.

Section Strings_only.
Hypothesis f_strings : forall w t,
  f {| arena := arena w; strings := t; device := device w;
       configuration_objs := configuration_objs w;
       interface_objs := interface_objs w;
       endpoint_objs := endpoint_objs w |} = f w.

Lemma keeps_on_strings {A} (g : USBStrings -> result (A * USBStrings)) :
  keeps f (on_strings g).
Proof.
  intros w a w' H. unfold on_strings in H.
  apply bind_Ok in H as (r & w1 & H1 & H).
  apply lift_Ok in H1 as [_ ->].
  apply bind_Ok in H as (u & w2 & H2 & H).
  injection H as _ <-. injection H2 as _ <-. apply f_strings.
Qed.
End Strings_only.

Section Device_only.
Hypothesis f_device : forall w d,
  f {| arena := arena w; strings := strings w; device := d;
       configuration_objs := configuration_objs w;
       interface_objs := interface_objs w;
       endpoint_objs := endpoint_objs w |} = f w.

Lemma keeps_set_device d : keeps f (set_device d).
Proof. intros w a w' [= _ <-]. apply f_device. Qed.

Lemma keeps_dev_rd8 k : keeps f (dev_rd8 k).
Proof. intros w a w' H. apply lift_Ok in H as [_ ->]. reflexivity. Qed.

Lemma keeps_dev_wr8 k x : keeps f (dev_wr8 k x).
Proof.
  intros w a w' H. unfold dev_wr8 in H.
  destruct (dev_descriptor_data (device w)); [|discriminate].
  apply bind_Ok in H as (b & w1 & H1 & H).
  apply lift_Ok in H1 as [_ ->]. injection H as _ <-. apply f_device.
Qed.

Lemma keeps_dev_wr16 k x : keeps f (dev_wr16 k x).
Proof. apply keeps_bind; [|intros _]; apply keeps_dev_wr8. Qed.

Lemma keeps_descriptor_ptr : keeps f descriptor_ptr.
Proof.
  unfold descriptor_ptr.
  apply keeps_bind; [apply keeps_get_world|]. intros w0.
  destruct (dev_descriptor_data (device w0)); [apply keeps_ret|].
  repeat (apply keeps_bind;
          [first [apply keeps_set_device | apply keeps_dev_wr8
                 | apply keeps_dev_wr16]|intros _]).
  apply keeps_dev_wr8.
Qed.
End Device_only.
End Keeps.

Lemma keeps_hoare {A B} (f : World -> B) (P : World -> Prop) (m : M A) :
  (forall w w', f w' = f w -> P w -> P w') ->
  keeps f m -> hoare P m (fun _ => P).
Proof. intros Hf Hk w a w' HP Hm. eapply Hf; [eapply Hk|]; eauto. Qed.

Ltac keeps_tac :=
  repeat (intros;
    match goal with
    | |- keeps _ (bind _ _) => apply keeps_bind
    | |- keeps _ (ret _) => apply keeps_ret
    | |- keeps _ (fail _) => apply keeps_fail
    | |- keeps _ (lift _) => apply keeps_lift
    | |- keeps _ get_world => apply keeps_get_world
    | |- keeps _ (rd8 _ _) => apply keeps_rd8
    | |- keeps _ (rd16 _ _) => unfold rd16
    | |- keeps _ (wr8 _ _ _) => apply keeps_wr8; intros; reflexivity
    | |- keeps _ (wr16 _ _ _) => apply keeps_wr16; intros; reflexivity
    | |- keeps _ (on_arena _) => apply keeps_on_arena; intros; reflexivity
    | |- keeps _ (on_strings _) => apply keeps_on_strings; intros; reflexivity
    | |- keeps _ (the_configuration _) => apply keeps_the_configuration
    | |- keeps _ (the_interface _) => apply keeps_the_interface
    | |- keeps _ (the_endpoint _) => apply keeps_the_endpoint
    | |- keeps _ (put_configuration _ _) =>
        apply keeps_put_configuration; intros; reflexivity
    | |- keeps _ (put_interface _ _) =>
        apply keeps_put_interface; intros; reflexivity
    | |- keeps _ (put_endpoint _ _) =>
        apply keeps_put_endpoint; intros; reflexivity
    | |- keeps _ (new_configuration _) =>
        apply keeps_new_configuration; intros; reflexivity
    | |- keeps _ (new_interface _) =>
        apply keeps_new_interface; intros; reflexivity
    | |- keeps _ (new_endpoint _) =>
        apply keeps_new_endpoint; intros; reflexivity
    | |- keeps _ (set_device _) => apply keeps_set_device; intros; reflexivity
    | |- keeps _ (dev_rd8 _) => apply keeps_dev_rd8
    | |- keeps _ (dev_wr8 _ _) => apply keeps_dev_wr8; intros; reflexivity
    | |- keeps _ descriptor_ptr => apply keeps_descriptor_ptr; intros; reflexivity
    | |- keeps _ (match ?x with _ => _ end) => destruct x
    end).

(** ** The node calls leave the device alone *)

Lemma keeps_device_USBEndpoint_new junk parent n isInput xfer :
  keeps device (USBEndpoint_new junk parent n isInput xfer).
Proof. unfold USBEndpoint_new, set_wMaxPacketSize_size. keeps_tac. Qed.

Lemma keeps_device_createEndpoint junk i isInput xfer :
  keeps device (createEndpoint junk i isInput xfer).
Proof.
  unfold createEndpoint, usbEndpointCount, itf_bNumEndpoints_incr,
    itf_append_endpoint, itf_descriptor.
  keeps_tac. apply keeps_device_USBEndpoint_new.
Qed.

Lemma keeps_device_createInterface junk c : keeps device (createInterface junk c).
Proof.
  unfold createInterface, conf_descriptor, set_conf_descriptor_data,
    usbInterfaceCount, USBInterface_new, conf_append_interface.
  keeps_tac. apply keeps_device_createEndpoint.
Qed.

Lemma keeps_device_ep_wMaxPacketSize e val : keeps device (ep_wMaxPacketSize e val).
Proof. unfold ep_wMaxPacketSize, ep_descriptor. keeps_tac. Qed.

Lemma keeps_device_ep_bInterval e val : keeps device (ep_bInterval e val).
Proof. unfold ep_bInterval, ep_descriptor. keeps_tac. Qed.

Lemma keeps_device_itf_name i name : keeps device (itf_name i name).
Proof. unfold itf_name, itf_descriptor. keeps_tac. Qed.

(** ** More rules *)

Lemma hoare_pure {A} (phi : Prop) (P : World -> Prop) (m : M A)
    (Q : A -> World -> Prop) :
  (phi -> hoare P m Q) -> hoare (fun w => phi /\ P w) m Q.
Proof. intros H w a w' [Hphi HP]. by apply H. Qed.

Lemma hoare_bind_fault {A B} (P : World -> Prop) (m : M A) (k : A -> M B)
    (Q : B -> World -> Prop) :
  hoare P m (fun _ _ => False) -> hoare P (bind m k) Q.
Proof.
  intros Hm. eapply hoare_bind; [exact Hm|]. intros a w b w' [].
Qed.

Lemma hoare_wr8_null {A} (P : World -> Prop) (k x : Z) (Q : A -> World -> Prop)
    (rest : unit -> M A) :
  hoare P (bind (wr8 None k x) rest) Q.
Proof. apply hoare_bind_fault. intros w a w' _ [=]. Qed.

Lemma hoare_the_configuration (P : World -> Prop) (c : nat) :
  hoare P (the_configuration c)
    (fun x w => P w /\ configuration_objs w !! c = Some x).
Proof.
  intros w x w' HP H. apply lift_Ok in H as [H ->]. split; [done|].
  simpl in H. by destruct (configuration_objs w !! c); inversion H.
Qed.

Lemma hoare_the_interface (P : World -> Prop) (i : nat) :
  hoare P (the_interface i)
    (fun x w => P w /\ interface_objs w !! i = Some x).
Proof.
  intros w x w' HP H. apply lift_Ok in H as [H ->]. split; [done|].
  simpl in H. by destruct (interface_objs w !! i); inversion H.
Qed.

Lemma hoare_the_endpoint (P : World -> Prop) (e : nat) :
  hoare P (the_endpoint e)
    (fun x w => P w /\ endpoint_objs w !! e = Some x).
Proof.
  intros w x w' HP H. apply lift_Ok in H as [H ->]. split; [done|].
  simpl in H. by destruct (endpoint_objs w !! e); inversion H.
Qed.

(** ** The layout under the calls on the arena *)

Lemma Vector_new_arena (junk : nat -> Z) :
  Vector_new junk EMPTY 256 0
  = Ok {| max_size := 256; actual_size := 0; increment_by := 0;
          data_ := alloc junk 256; empty := EMPTY |}.
Proof. reflexivity. Qed.

Lemma kind_len_uint8 (k : kind) : uint8 (kind_len k) = kind_len k.
Proof. by destruct k. Qed.

Lemma kind_tag_uint8 (k : kind) : uint8 (kind_tag k) = kind_tag k.
Proof. by destruct k. Qed.

Lemma Laid_add (junk : nat -> Z) (ks : list kind) (k : kind) :
  hoare (Laid ks ks) (on_arena (addDescriptor junk None (kind_len k)))
    (fun d w => match d with
                | Some p => p = chain_total ks /\ Laid ks (ks ++ [k]) w
                | None => Laid ks ks w
                end).
Proof.
  intros w d w' HL H. unfold on_arena in H.
  apply bind_Ok in H as (r & w1 & H1 & H).
  apply lift_Ok in H1 as [H1 ->].
  apply bind_Ok in H as (u & w2 & H2 & H).
  injection H as <- <-. injection H2 as _ <-.
  pose proof (kind_len_bounds k) as Hk.
  pose proof (chain_total_nonneg ks) as Hn.
  unfold addDescriptor in H1.
  destruct (kind_len k =? 0) eqn:E0; [lia|]. simpl in H1.
  assert (exists v, buffer junk (arena w)
                    = Ok (v, {| buffer_ptr := Some v;
                                arena_length := arena_length (arena w) |})
                    /\ max_size v = 256 /\ Z.of_nat (length (data_ v)) = 256
                    /\ chain_at (data_ v) 0 ks) as (v & Hb & Hm & Hl & Hc).
  { destruct HL as [_ Hbuf Hlen _ _ _]. unfold buffer.
    destruct (buffer_ptr (arena w)) as [v|] eqn:Hv.
    - exists v. destruct Hbuf as (? & ? & ?). split; [|done].
      destruct (arena w); simpl in *. by rewrite Hv.
    - rewrite Vector_new_arena. simpl. eexists. split; [reflexivity|].
      subst ks. simpl. by repeat split. }
  rewrite Hb in H1. simpl in H1. unfold checkSize, totalSize in H1.
  simpl in H1. rewrite Hm in H1.
  destruct HL as [Hpre Hbuf Hlen Hcf Hif Hef].
  destruct (arena_length (arena w) + kind_len k <? 256) eqn:E;
    simpl in H1; injection H1 as <-; simpl.
  - split; [done|]. split; simpl.
    + by exists [k].
    + done.
    + rewrite chain_total_app. simpl. unfold uint16.
      rewrite Z.mod_small by lia. lia.
    + intros c x p Hx Hp. apply record_at_app. eauto.
    + intros i x Hx. destruct (Hif i x Hx) as (p & ? & ?).
      exists p. split; [done|]. by apply record_at_app.
    + intros e x Hx. destruct (Hef e x Hx) as (p & ? & ?).
      exists p. split; [done|]. by apply record_at_app.
  - split; simpl; done.
Qed.

Lemma hoare_header0 (hs ls : list kind) (p x : Z) :
  chain_total hs <= p ->
  hoare (Laid hs ls) (wr8 (Some p) Off.bLength x)
    (fun _ w => Laid hs ls w /\ arena_byte w p = Some (uint8 x)).
Proof.
  intros Hp. apply hoare_wr8. intros off v w [= <-] Hv Hb HL.
  unfold Off.bLength in *. rewrite Z.add_0_r in *. split.
  - apply Laid_poke_beyond; [lia|done].
  - by eapply arena_byte_poke_same.
Qed.

Lemma hoare_header1 (hs : list kind) (k : kind) :
  hoare (fun w => Laid hs (hs ++ [k]) w
                  /\ arena_byte w (chain_total hs) = Some (uint8 (kind_len k)))
    (wr8 (Some (chain_total hs)) Off.bDescriptorType (kind_tag k))
    (fun _ => Laid (hs ++ [k]) (hs ++ [k])).
Proof.
  apply hoare_wr8. intros off v w [= <-] Hv Hb [HL H0].
  pose proof (chain_total_nonneg hs) as Hn. unfold Off.bDescriptorType in *.
  rewrite kind_len_uint8 in H0. rewrite kind_tag_uint8.
  apply Laid_header.
  - apply Laid_poke_beyond; [lia|done].
  - rewrite arena_byte_poke_other by lia. done.
  - by eapply arena_byte_poke_same.
Qed.

Lemma hoare_payload (hs ls : list kind) (p j x : Z) (k : kind) :
  record_at hs p k -> 2 <= j < kind_len k ->
  hoare (Laid hs ls) (wr8 (Some p) j x) (fun _ => Laid hs ls).
Proof.
  intros Hr Hj. apply hoare_wr8. intros off v w Heq Hv Hb HL.
  injection Heq as Heq. subst off.
  by eapply Laid_poke_payload.
Qed.

Lemma hoare_payload16 (hs ls : list kind) (p j x : Z) (k : kind) :
  record_at hs p k -> 2 <= j /\ j + 1 < kind_len k ->
  hoare (Laid hs ls) (wr16 (Some p) j x) (fun _ => Laid hs ls).
Proof.
  intros Hr Hj.
  eapply hoare_bind; [eapply hoare_payload; [exact Hr|lia]|].
  intros u. eapply hoare_payload; [exact Hr|lia].
Qed.

(** ** The layout under the calls on the nodes *)

Lemma Laid_new_endpoint (hs ls : list kind) (parent : option nat) (p : Z) :
  record_at ls p KEndpoint ->
  hoare (Laid hs ls)
    (new_endpoint {| ep_parent := parent; ep_descriptor_data := Some p |})
    (fun _ => Laid hs ls).
Proof.
  intros Hr w e w' [Hpre Hbuf Hlen Hcf Hif Hef] [= _ <-].
  split; simpl; try done.
  intros e' x Hx. apply lookup_app_Some in Hx as [Hx|[_ Hx]]; [eauto|].
  apply list_lookup_singleton_Some in Hx as [_ <-]. eauto.
Qed.

Lemma Laid_new_interface (hs ls : list kind) (parent : option nat)
    (es : Vector (option nat)) (p : Z) :
  record_at ls p KInterface ->
  hoare (Laid hs ls)
    (new_interface {| itf_parent := parent; endpoints := es;
                      itf_descriptor_data := Some p |})
    (fun i w => Laid hs ls w
                /\ exists x, interface_objs w !! i = Some x
                             /\ itf_descriptor_data x = Some p).
Proof.
  intros Hr w i w' [Hpre Hbuf Hlen Hcf Hif Hef] [= <- <-].
  split.
  - split; simpl; try done.
    intros i' x Hx. apply lookup_app_Some in Hx as [Hx|[_ Hx]]; [eauto|].
    apply list_lookup_singleton_Some in Hx as [_ <-]. eauto.
  - simpl. exists {| itf_parent := parent; endpoints := es;
                       itf_descriptor_data := Some p |}.
    split; [|reflexivity].
    rewrite lookup_app_r by lia. by rewrite Nat.sub_diag.
Qed.

Lemma Laid_new_configuration (hs ls : list kind)
    (itfs : Vector (option nat)) (k : Z) :
  hoare (Laid hs ls)
    (new_configuration {| interfaces := itfs; conf_descriptor_data := None;
                          conf_id := k |})
    (fun _ => Laid hs ls).
Proof.
  intros w c w' [Hpre Hbuf Hlen Hcf Hif Hef] [= _ <-].
  split; simpl; try done.
  intros c' x p Hx Hp. apply lookup_app_Some in Hx as [Hx|[_ Hx]]; [eauto|].
  apply list_lookup_singleton_Some in Hx as [_ <-]. discriminate.
Qed.

Lemma Laid_put_interface (hs ls : list kind) (i : nat) (x x' : USBInterface) :
  itf_descriptor_data x' = itf_descriptor_data x ->
  hoare (fun w => Laid hs ls w /\ interface_objs w !! i = Some x)
    (put_interface i x') (fun _ => Laid hs ls).
Proof.
  intros Hd w u w' [[Hpre Hbuf Hlen Hcf Hif Hef] Hi] [= _ <-].
  split; simpl; try done.
  intros j y Hy. destruct (decide (i = j)) as [<-|Hne].
  - rewrite list_lookup_insert_eq in Hy by (by eapply lookup_lt_Some).
    injection Hy as <-. rewrite Hd. eauto.
  - rewrite list_lookup_insert_ne in Hy by done. eauto.
Qed.

Lemma Laid_put_configuration (hs ls : list kind) (c : nat)
    (x' : USBConfiguration) :
  (forall p, conf_descriptor_data x' = Some p -> record_at ls p KConfiguration) ->
  hoare (Laid hs ls) (put_configuration c x') (fun _ => Laid hs ls).
Proof.
  intros Hd w u w' [Hpre Hbuf Hlen Hcf Hif Hef] [= _ <-].
  split; simpl; try done.
  intros j y p Hy Hp. destruct (decide (c = j)) as [<-|Hne].
  - destruct (decide (c < length (configuration_objs w))%nat).
    + rewrite list_lookup_insert_eq in Hy by done.
      injection Hy as <-. eauto.
    + rewrite list_insert_ge in Hy by lia. eauto.
  - rewrite list_lookup_insert_ne in Hy by done. eauto.
Qed.

Lemma hoare_pre {A} (P P' : World -> Prop) (m : M A) (Q : A -> World -> Prop) :
  (forall w, P w -> P' w) -> hoare P' m Q -> hoare P m Q.
Proof. intros HP H w a w' Hw. apply H. auto. Qed.

Lemma hoare_post {A} (P : World -> Prop) (m : M A) (Q Q' : A -> World -> Prop) :
  (forall a w, Q' a w -> Q a w) -> hoare P m Q' -> hoare P m Q.
Proof. intros HQ H w a w' Hw Hm. eapply HQ, H; eauto. Qed.

Lemma hoare_exists {A T} (P : T -> World -> Prop) (m : M A)
    (Q : A -> World -> Prop) :
  (forall t, hoare (P t) m Q) -> hoare (fun w => exists t, P t w) m Q.
Proof. intros H w a w' [t HP]. by eapply H. Qed.

Lemma hoare_readonly {A} (P : World -> Prop) (m : M A) :
  keeps (fun w => w) m -> hoare P m (fun _ => P).
Proof. apply keeps_hoare. by intros w w' ->. Qed.

Ltac readonly := apply hoare_readonly; keeps_tac.

(** A write into the payload of the record of kind [k] at [p]. *)
Ltac payload k :=
  first
    [ eapply (hoare_payload _ _ _ _ _ k); [eassumption|by cbv]
    | eapply (hoare_payload16 _ _ _ _ _ k); [eassumption|by cbv] ].

Ltac read_then_payload k :=
  eapply hoare_bind; [apply hoare_rd8; intros ? ? H; exact H|];
  intros ?; payload k.

Lemma Laid_USBEndpoint_new junk ks parent n isInput xfer :
  hoare (Laid ks ks) (USBEndpoint_new junk parent n isInput xfer)
    (fun _ => Laid (ks ++ [KEndpoint]) (ks ++ [KEndpoint])).
Proof.
  unfold USBEndpoint_new, set_wMaxPacketSize_size.
  eapply hoare_bind; [apply (Laid_add junk ks KEndpoint)|].
  intros [p|]; [|apply hoare_wr8_null].
  apply hoare_pure. intros ->.
  eapply hoare_bind; [apply hoare_header0; lia|]. intros ?.
  eapply hoare_bind; [apply (hoare_header1 ks KEndpoint)|]. intros ?.
  pose proof (record_at_last ks KEndpoint) as Hr.
  eapply hoare_bind; [payload KEndpoint|]. intros ?.
  do 3 (eapply hoare_bind; [read_then_payload KEndpoint|]; intros ?).
  eapply hoare_bind; [payload KEndpoint|]. intros ?.
  eapply hoare_bind; [payload KEndpoint|]. intros ?.
  by apply Laid_new_endpoint.
Qed.

Lemma Laid_itf_descriptor hs ls i :
  hoare (Laid hs ls) (itf_descriptor i)
    (fun d w => (exists p, d = Some p /\ record_at ls p KInterface)
                /\ Laid hs ls w).
Proof.
  unfold itf_descriptor.
  eapply hoare_bind; [apply hoare_the_interface|]. intros x.
  apply hoare_ret. intros w [HL Hx]. split; [|done].
  destruct HL as [_ _ _ _ Hif _]. destruct (Hif i x Hx) as (p & ? & ?). eauto.
Qed.

Lemma Laid_ep_descriptor hs ls e :
  hoare (Laid hs ls) (ep_descriptor e)
    (fun d w => (exists p, d = Some p /\ record_at ls p KEndpoint)
                /\ Laid hs ls w).
Proof.
  unfold ep_descriptor.
  eapply hoare_bind; [apply hoare_the_endpoint|]. intros x.
  apply hoare_ret. intros w [HL Hx]. split; [|done].
  destruct HL as [_ _ _ _ _ Hef]. destruct (Hef e x Hx) as (p & ? & ?). eauto.
Qed.

Lemma Laid_itf_bNumEndpoints_incr ks i :
  hoare (Laid ks ks) (itf_bNumEndpoints_incr i) (fun _ => Laid ks ks).
Proof.
  unfold itf_bNumEndpoints_incr.
  eapply hoare_bind; [apply Laid_itf_descriptor|]. intros d.
  apply hoare_pure. intros (p & -> & Hr).
  read_then_payload KInterface.
Qed.

Lemma Laid_itf_append_endpoint hs ls i e :
  hoare (Laid hs ls) (itf_append_endpoint i e) (fun _ => Laid hs ls).
Proof.
  unfold itf_append_endpoint.
  eapply hoare_bind; [apply hoare_the_interface|]. intros x.
  eapply hoare_bind; [readonly|]. intros es.
  by apply (Laid_put_interface hs ls i x).
Qed.

Lemma Laid_createEndpoint junk ks i isInput xfer :
  hoare (Laid ks ks) (createEndpoint junk i isInput xfer)
    (fun _ => Laid (ks ++ [KEndpoint]) (ks ++ [KEndpoint])).
Proof.
  unfold createEndpoint, usbEndpointCount.
  eapply hoare_bind; [readonly|]. intros n.
  eapply hoare_bind; [apply Laid_USBEndpoint_new|]. intros e.
  eapply hoare_bind; [apply Laid_itf_bNumEndpoints_incr|]. intros ?.
  eapply hoare_bind; [apply Laid_itf_append_endpoint|]. intros ?.
  by apply hoare_ret.
Qed.

Lemma Laid_USBInterface_new junk ks parent n :
  hoare (Laid ks ks) (USBInterface_new junk parent n)
    (fun _ => Laid (ks ++ [KInterface; KEndpoint])
                   (ks ++ [KInterface; KEndpoint])).
Proof.
  unfold USBInterface_new.
  eapply hoare_bind; [readonly|]. intros es.
  eapply hoare_bind; [apply (Laid_add junk ks KInterface)|].
  intros [p|].
  2:{ eapply (hoare_bind _ _ (fun _ _ => True)); [intros w a w' _ _; exact I|].
      intros i. apply hoare_wr8_null. }
  apply hoare_pure. intros ->.
  pose proof (record_at_last ks KInterface) as Hr.
  eapply (hoare_bind _ _ (fun _ => Laid ks (ks ++ [KInterface]))).
  { eapply hoare_post; [|by apply Laid_new_interface].
    intros i w [H _]. exact H. }
  intros i.
  eapply hoare_bind; [apply hoare_header0; lia|]. intros ?.
  eapply hoare_bind; [apply (hoare_header1 ks KInterface)|]. intros ?.
  do 7 (eapply hoare_bind; [payload KInterface|]; intros ?).
  eapply hoare_bind; [apply Laid_createEndpoint|]. intros ?.
  apply hoare_ret. intros w. by rewrite <- app_assoc.
Qed.

Lemma Laid_conf_append_interface hs ls c i :
  hoare (Laid hs ls) (conf_append_interface c i) (fun _ => Laid hs ls).
Proof.
  unfold conf_append_interface.
  eapply hoare_bind; [apply hoare_the_configuration|]. intros x.
  eapply hoare_bind; [readonly|]. intros es.
  intros w a w' [HL Hx] H. revert H.
  apply Laid_put_configuration; [|exact HL].
  simpl. intros p Hp. destruct HL as [_ _ _ Hcf _ _]. eauto.
Qed.

Lemma Laid_conf_descriptor junk ks c :
  hoare (Laid ks ks) (conf_descriptor junk c)
    (fun d w => exists ks',
       (exists p, d = Some p /\ record_at ks' p KConfiguration)
       /\ Laid ks' ks' w).
Proof.
  unfold conf_descriptor.
  eapply hoare_bind; [apply hoare_the_configuration|]. intros x.
  destruct (conf_descriptor_data x) as [p|] eqn:Hp.
  { apply hoare_ret. intros w [HL Hx]. exists ks. split; [|done].
    destruct HL as [_ _ _ Hcf _ _]. eauto. }
  eapply hoare_bind.
  { eapply hoare_pre; [|apply (Laid_add junk ks KConfiguration)].
    intros w [H _]; exact H. }
  intros [p|].
  2:{ eapply (hoare_bind _ _ (fun _ _ => True)); [intros w a w' _ _; exact I|].
      intros i. apply hoare_wr8_null. }
  apply hoare_pure. intros ->.
  pose proof (record_at_last ks KConfiguration) as Hr.
  eapply (hoare_bind _ _ (fun _ => Laid ks (ks ++ [KConfiguration]))).
  { unfold set_conf_descriptor_data.
    eapply hoare_bind; [apply hoare_the_configuration|]. intros x'.
    eapply hoare_pre; [|apply Laid_put_configuration].
    - intros w [H _]; exact H.
    - simpl. intros p [= <-]. exact Hr. }
  intros ?.
  eapply hoare_bind; [apply hoare_header0; lia|]. intros ?.
  eapply hoare_bind; [apply (hoare_header1 ks KConfiguration)|]. intros ?.
  do 5 (eapply hoare_bind; [payload KConfiguration|]; intros ?).
  apply hoare_ret. intros w HL. exists (ks ++ [KConfiguration]). eauto.
Qed.

Lemma Laid_createInterface junk ks c :
  hoare (Laid ks ks) (createInterface junk c)
    (fun _ w => exists ks', Laid ks' ks' w).
Proof.
  unfold createInterface, usbInterfaceCount.
  eapply (hoare_bind _ _ (fun _ w => exists ks', Laid ks' ks' w)).
  { eapply hoare_bind; [apply Laid_conf_descriptor|]. intros d.
    apply hoare_exists. intros ks'. apply hoare_pure. intros (p & -> & Hr).
    eapply hoare_post; [|read_then_payload KConfiguration].
    intros a w H. exists ks'. exact H. }
  intros ?. apply hoare_exists. intros ks'.
  eapply hoare_bind; [readonly|]. intros k.
  eapply hoare_bind; [apply Laid_USBInterface_new|]. intros i.
  eapply hoare_bind; [apply Laid_conf_append_interface|]. intros ?.
  apply hoare_ret. eauto.
Qed.

Lemma Laid_layout_view hs ls w w' :
  layout_view w' = layout_view w -> Laid hs ls w -> Laid hs ls w'.
Proof.
  unfold layout_view. intros [= Ha Hc Hi He] [Hpre Hbuf Hlen Hcf Hif Hef].
  split; rewrite ?Ha, ?Hc, ?Hi, ?He; done.
Qed.

Ltac device_only :=
  apply (keeps_hoare layout_view); [apply Laid_layout_view|keeps_tac].

(** A configuration born with a null [descriptor_data] joins the nodes
    without touching the layout. *)
Lemma Laid_createConfiguration stale ks :
  (forall c, stale c = None) ->
  hoare (Laid ks ks) (createConfiguration stale) (fun _ => Laid ks ks).
Proof.
  intros Hnull. unfold createConfiguration, usbConfigurationCount.
  eapply hoare_bind; [device_only|]. intros ?.
  eapply hoare_bind; [device_only|]. intros ?.
  eapply hoare_bind; [device_only|]. intros k.
  eapply hoare_bind; [readonly|]. intros itfs.
  eapply hoare_bind; [readonly|]. intros w0. rewrite Hnull.
  eapply hoare_bind; [apply Laid_new_configuration|]. intros c.
  device_only.
Qed.

Lemma Laid_ep_wMaxPacketSize ks e val :
  hoare (Laid ks ks) (ep_wMaxPacketSize e val) (fun _ => Laid ks ks).
Proof.
  unfold ep_wMaxPacketSize.
  eapply hoare_bind; [apply Laid_ep_descriptor|]. intros d.
  apply hoare_pure. intros (p & -> & Hr).
  eapply hoare_bind; [payload KEndpoint|]. intros ?. by apply hoare_ret.
Qed.

Lemma Laid_ep_bInterval ks e val :
  hoare (Laid ks ks) (ep_bInterval e val) (fun _ => Laid ks ks).
Proof.
  unfold ep_bInterval.
  eapply hoare_bind; [apply Laid_ep_descriptor|]. intros d.
  apply hoare_pure. intros (p & -> & Hr).
  eapply hoare_bind; [payload KEndpoint|]. intros ?. by apply hoare_ret.
Qed.

Lemma Laid_itf_name ks i name :
  hoare (Laid ks ks) (itf_name i name) (fun _ => Laid ks ks).
Proof.
  unfold itf_name.
  eapply hoare_bind; [apply Laid_itf_descriptor|]. intros d.
  apply hoare_pure. intros (p & -> & Hr).
  eapply hoare_bind; [device_only|]. intros idx.
  eapply hoare_bind; [payload KInterface|]. intros ?. by apply hoare_ret.
Qed.

Lemma Laid_do_step junk stale s :
  (forall c, stale c = None) ->
  hoare (fun w => exists ks, Laid ks ks w) (do_step junk stale s)
    (fun _ w => exists ks, Laid ks ks w).
Proof.
  intros Hnull. apply hoare_exists. intros ks. destruct s; simpl.
  - eapply hoare_bind; [by apply Laid_createConfiguration|]. intros ?.
    apply hoare_ret. eauto.
  - eapply hoare_bind; [apply Laid_createInterface|]. intros ?.
    by apply hoare_ret.
  - eapply hoare_bind; [apply Laid_createEndpoint|]. intros ?.
    apply hoare_ret. eauto.
  - eapply hoare_bind; [apply Laid_ep_wMaxPacketSize|]. intros ?.
    apply hoare_ret. eauto.
  - eapply hoare_bind; [apply Laid_ep_bInterval|]. intros ?.
    apply hoare_ret. eauto.
  - eapply hoare_bind; [apply Laid_itf_name|]. intros ?.
    apply hoare_ret. eauto.
  - apply (hoare_post _ _ _ (fun _ => Laid ks ks)); [eauto|].
    unfold dev_manufacturer. device_only.
  - apply (hoare_post _ _ _ (fun _ => Laid ks ks)); [eauto|].
    unfold dev_product. device_only.
  - apply (hoare_post _ _ _ (fun _ => Laid ks ks)); [eauto|].
    unfold dev_serialNumber. device_only.
Qed.

(** ** The device record *)

Lemma descriptor_ptr_fresh (w : World) :
  dev_descriptor_data (device w) = None ->
  descriptor_ptr w
  = Ok (tt, {| arena := arena w; strings := strings w;
               device :=
                 {| dev_descriptor_data :=
                      Some [18; 1; 0; 2; 0; 0; 0; 64; 0; 0; 1; 0; 1; 0; 0; 0;
                            0; 0];
                    configurations := configurations (device w);
                    descriptor_total_size :=
                      descriptor_total_size (device w) |};
               configuration_objs := configuration_objs w;
               interface_objs := interface_objs w;
               endpoint_objs := endpoint_objs w |}).
Proof.
  intros H. unfold descriptor_ptr, bind at 1, get_world. rewrite H.
  reflexivity.
Qed.

Lemma descriptor_ptr_present (w : World) (bytes : list Z) :
  dev_descriptor_data (device w) = Some bytes ->
  descriptor_ptr w = Ok (tt, w).
Proof.
  intros H. unfold descriptor_ptr, bind, get_world. rewrite H. reflexivity.
Qed.

Lemma descriptor_ptr_device (n : Z) (w : World) (u : unit) (w' : World) :
  device_after n w -> descriptor_ptr w = Ok (u, w') ->
  device_after n w' /\ is_Some (dev_descriptor_data (device w')).
Proof.
  intros Hd H. destruct (dev_descriptor_data (device w)) as [bytes|] eqn:Hb.
  - rewrite (descriptor_ptr_present _ _ Hb) in H. injection H as _ <-.
    split; [done|]. rewrite Hb. eauto.
  - rewrite (descriptor_ptr_fresh _ Hb) in H. injection H as _ <-.
    split; [|simpl; eauto].
    destruct Hd as (Hn & Hm & Hi & Ha & Hl & Hbytes). rewrite Hb in Hbytes.
    subst n. unfold device_after. simpl. rewrite Hbytes.
    repeat split; try done; lia.
Qed.

Lemma createConfiguration_device stale (n : Z) (w : World) (c : nat)
    (w' : World) :
  device_after n w -> createConfiguration stale w = Ok (c, w') ->
  device_after (n + 1) w'.
Proof.
  intros Hd H. unfold createConfiguration in H.
  apply bind_Ok in H as (u1 & w1 & H1 & H).
  destruct (descriptor_ptr_device _ _ _ _ Hd H1) as [Hd1 [bytes Hb1]].
  clear Hd H1 w.
  apply bind_Ok in H as (u2 & w2 & H2 & H).
  apply bind_Ok in H2 as (x & w1' & Hrd & Hwr).
  apply lift_Ok in Hrd as [Hrd ->]. rewrite Hb1 in Hrd. simpl in Hrd.
  apply load_Ok in Hrd as [_ Hrd].
  unfold dev_wr8 in Hwr. rewrite Hb1 in Hwr.
  apply bind_Ok in Hwr as (bytes' & w1' & Hst & Hwr).
  apply lift_Ok in Hst as [Hst ->]. apply store_Ok in Hst as [Hin ->].
  injection Hwr as _ <-.
  destruct Hd1 as (Hn & Hm & Hi & Ha & Hl & Hbytes). rewrite Hb1 in Hbytes.
  destruct Hbytes as (Hlen & Hb0 & Hb17' & Hb17).
  change (Z.to_nat Off.bNumConfigurations) with 17%nat in *.
  rewrite Hb17 in Hrd. injection Hrd as <-.
  apply bind_Ok in H as (k & w3 & H3 & H). injection H3 as <- <-.
  apply bind_Ok in H as (itfs & w4 & H4 & H).
  apply lift_Ok in H4 as [_ ->].
  apply bind_Ok in H as (w0 & w0' & H0 & H). injection H0 as <- <-.
  apply bind_Ok in H as (c' & w5 & H5 & H). injection H5 as <- <-.
  apply bind_Ok in H as (w6 & w6' & H6 & H). injection H6 as <- <-.
  apply bind_Ok in H as (cs & w7 & H7 & H). apply lift_Ok in H7 as [H7 ->].
  apply bind_Ok in H as (u8 & w8 & H8 & H). injection H8 as _ <-.
  injection H as _ <-. simpl in *.
  unfold append, grow in H7. rewrite Ha, Hm in H7.
  destruct (n >? 2) eqn:E; [lia|]. simpl in H7.
  apply rbind_Ok in H7 as (d & Hst & [= <-]). rewrite Ha in Hst.
  apply store_Ok in Hst as [Hin' ->]. simpl.
  unfold device_after. simpl. rewrite !length_insert.
  split; [lia|]. repeat (split; [done|]). split; [lia|]. split; [done|].
  rewrite !list_lookup_insert_ne by lia. split; [done|]. split; [done|].
  rewrite list_lookup_insert_eq by lia.
  unfold uint8. by rewrite Z.mod_small by lia.
Qed.

Lemma dev_string_field_device (n : Z) (str : option string) (k : Z)
    (w : World) (u : unit) (w' : World) :
  k = 14 \/ k = 15 \/ k = 16 ->
  device_after n w ->
  (descriptor_ptr >>
   let* idx := on_strings (strings_add str) in dev_wr8 k idx) w = Ok (u, w') ->
  device_after n w'.
Proof.
  intros Hk Hd H.
  apply bind_Ok in H as (u1 & w1 & H1 & H).
  destruct (descriptor_ptr_device _ _ _ _ Hd H1) as [Hd1 [bytes Hb1]].
  apply bind_Ok in H as (idx & w2 & H2 & H).
  assert (device w2 = device w1) as Hdev
    by (revert H2; apply keeps_on_strings; intros; reflexivity).
  unfold dev_wr8 in H. rewrite Hdev, Hb1 in H.
  apply bind_Ok in H as (bytes' & w3 & Hst & H).
  apply lift_Ok in Hst as [Hst ->]. apply store_Ok in Hst as [Hin ->].
  injection H as _ <-.
  destruct Hd1 as (Hn & Hm & Hi & Ha & Hl & Hbytes). rewrite Hb1 in Hbytes.
  destruct Hbytes as (Hlen & Hb0 & Hb1' & Hb17).
  unfold device_after. simpl. rewrite length_insert.
  repeat (split; [done|]).
  rewrite !list_lookup_insert_ne by lia. done.
Qed.

Lemma device_after_device n w w' :
  device w' = device w -> device_after n w -> device_after n w'.
Proof. unfold device_after. by intros ->. Qed.

Lemma do_step_device junk stale s n w u w' :
  device_after n w -> do_step junk stale s w = Ok (u, w') ->
  device_after (n + (if is_CreateConfiguration s then 1 else 0)) w'.
Proof.
  intros Hd H. destruct s; simpl in *;
    try (rewrite Z.add_0_r; destruct u;
         eapply dev_string_field_device; [|exact Hd|exact H]; by auto);
    apply bind_Ok in H as (a & w1 & H1 & H); injection H as _ <-.
  - by eapply createConfiguration_device.
  - rewrite Z.add_0_r. eapply device_after_device; [|done].
    by eapply keeps_device_createInterface.
  - rewrite Z.add_0_r. eapply device_after_device; [|done].
    by eapply keeps_device_createEndpoint.
  - rewrite Z.add_0_r. eapply device_after_device; [|done].
    by eapply keeps_device_ep_wMaxPacketSize.
  - rewrite Z.add_0_r. eapply device_after_device; [|done].
    by eapply keeps_device_ep_bInterval.
  - rewrite Z.add_0_r. eapply device_after_device; [|done].
    by eapply keeps_device_itf_name.
Qed.

(** The device under a builder program, whatever the new configurations
    hold in [descriptor_data]. *)
Lemma do_steps_device junk stale prog :
  forall n w u w',
    device_after n w -> do_steps junk stale prog w = Ok (u, w') ->
    device_after (n + created_configurations prog) w'.
Proof.
  induction prog as [|s prog IH]; intros n w u w' Hd H; simpl in *.
  - injection H as _ <-. by rewrite Z.add_0_r.
  - apply bind_Ok in H as (u1 & w1 & H1 & H).
    rewrite Z.add_assoc. eapply IH; [|exact H]. by eapply do_step_device.
Qed.

Lemma do_steps_invariants junk stale prog :
  (forall c, stale c = None) ->
  forall n w u w',
    device_after n w -> (exists ks, Laid ks ks w) ->
    do_steps junk stale prog w = Ok (u, w') ->
    device_after (n + created_configurations prog) w'
    /\ exists ks, Laid ks ks w'.
Proof.
  intros Hnull.
  induction prog as [|s prog IH]; intros n w u w' Hd HL H; simpl in *.
  - injection H as _ <-. by rewrite Z.add_0_r.
  - apply bind_Ok in H as (u1 & w1 & H1 & H).
    rewrite Z.add_assoc. eapply IH; [| |exact H].
    + by eapply do_step_device.
    + by eapply (Laid_do_step junk stale s Hnull).
Qed.

Lemma World_new_invariants :
  exists w0, World_new = Ok w0 /\ device_after 0 w0 /\ Laid [] [] w0.
Proof.
  eexists. split; [reflexivity|]. split.
  - unfold device_after. simpl. repeat split; done.
  - split; simpl; try done. by exists [].
Qed.

Lemma from_start_device junk stale prog u w :
  from_start (do_steps junk stale prog) = Ok (u, w) ->
  device_after (created_configurations prog) w.
Proof.
  destruct World_new_invariants as (w0 & H0 & Hd & HL).
  unfold from_start. rewrite H0. simpl. intros H.
  eapply (do_steps_device junk stale prog 0); eauto.
Qed.

Lemma from_start_invariants junk stale prog u w :
  (forall c, stale c = None) ->
  from_start (do_steps junk stale prog) = Ok (u, w) ->
  device_after (created_configurations prog) w /\ exists ks, Laid ks ks w.
Proof.
  intros Hnull. destruct World_new_invariants as (w0 & H0 & Hd & HL).
  unfold from_start. rewrite H0. simpl. intros H.
  eapply (do_steps_invariants junk stale prog Hnull 0); eauto.
Qed.

(** ** Headers of the records *)

Lemma Laid_arena_chain ks w : Laid ks ks w -> arena_chain w ks.
Proof.
  intros [_ Hbuf Hlen _ _ _]. split; [done|].
  destruct (buffer_ptr (arena w)); [tauto|done].
Qed.

Lemma invariants_headers_in_place n ks w :
  device_after n w -> Laid ks ks w -> headers_in_place w.
Proof.
  intros Hd HL. split; [|split; [|split]].
  - intros bytes Hb. destruct Hd as (_ & _ & _ & _ & _ & Hbytes).
    rewrite Hb in Hbytes. tauto.
  - intros c x p Hx Hp.
    apply (Laid_headers_in_place_arena ks w p KConfiguration HL).
    destruct HL as [_ _ _ Hcf _ _]. eauto.
  - intros i x Hx. pose proof HL as [_ _ _ _ Hif _].
    destruct (Hif i x Hx) as (p & Hp & Hr). exists p. split; [done|].
    by apply (Laid_headers_in_place_arena ks w p KInterface).
  - intros e x Hx. pose proof HL as [_ _ _ _ _ Hef].
    destruct (Hef e x Hx) as (p & Hp & Hr). exists p. split; [done|].
    by apply (Laid_headers_in_place_arena ks w p KEndpoint).
Qed.

(** ** clear *)

Lemma dev_clear_Ok (junk : nat -> Z) (w : World) :
  exists w',
    dev_clear junk w = Ok (tt, w')
    /\ dev_descriptor_data (device w') = dev_descriptor_data (device w)
    /\ size (configurations (device w')) = 0
    /\ strings_size (strings w') = 0
    /\ totalSize (arena w') = 0
    /\ arena_bytes w' = [].
Proof.
  unfold dev_clear, bind, get_world, set_device, set_strings, set_arena, lift,
    arena_clear, buffer. simpl.
  destruct (buffer_ptr (arena w)) as [v|] eqn:Hv; simpl.
  - eexists. split; [reflexivity|]. simpl. unfold arena_bytes. simpl.
    repeat split.
  - eexists. split; [reflexivity|]. simpl. unfold arena_bytes. simpl.
    repeat split.
Qed.

(** C10: after a builder program that created k configurations, [clear]
    completes; it empties the configuration list, the string table and the
    arena, and leaves the device record byte for byte as it was: its
    bNumConfigurations still reads k while the configuration count
    reads 0. *)
Theorem clear_keeps_device_descriptor (junk : nat -> Z)
    (stale : nat -> option Z) (prog : list step) (w : World) :
  from_start (do_steps junk stale prog) = Ok (tt, w) ->
  exists w',
    dev_clear junk w = Ok (tt, w')
    /\ dev_descriptor_data (device w') = dev_descriptor_data (device w)
    /\ answer (usbConfigurationCount w') = Ok 0
    /\ strings_size (strings w') = 0
    /\ totalSize (arena w') = 0
    /\ arena_bytes w' = []
    /\ exists bytes,
         answer (deviceDescriptor w') = Ok bytes
         /\ length bytes = 18%nat
         /\ bytes !! 17%nat = Some (created_configurations prog).
Proof.
  intros H. apply from_start_device in H as Hd.
  destruct (dev_clear_Ok junk w) as (w' & Hc & Hdev & Hconf & Hstr & Hlen & Hb).
  exists w'. split; [done|]. split; [done|].
  split; [unfold usbConfigurationCount, bind, get_world, answer; simpl;
          by rewrite Hconf|].
  split; [done|]. split; [done|]. split; [done|].
  unfold deviceDescriptor, bind.
  destruct Hd as (Hn & _ & _ & _ & _ & Hbytes). rewrite <- Hdev in Hbytes.
  destruct (dev_descriptor_data (device w')) as [bytes|] eqn:Hb'.
  - rewrite (descriptor_ptr_present _ _ Hb'). simpl. rewrite Hb'. simpl.
    exists bytes. tauto.
  - rewrite (descriptor_ptr_fresh _ Hb'). simpl. rewrite Hbytes.
    eexists. split; [reflexivity|]. done.
Qed.

(** [sample_program] creates two configurations, adds two strings and
    fills 32 bytes of the arena. *)
Lemma clear_keeps_device_descriptor_witness :
  from_start (do_steps zeroed born_null sample_program) = Ok (tt, sample_world)
  /\ created_configurations sample_program = 2
  /\ strings_size (strings sample_world) = 2
  /\ totalSize (arena sample_world) = 32
  /\ exists w',
    dev_clear zeroed sample_world = Ok (tt, w')
    /\ dev_descriptor_data (device w')
       = dev_descriptor_data (device sample_world)
    /\ answer (usbConfigurationCount w') = Ok 0
    /\ strings_size (strings w') = 0
    /\ totalSize (arena w') = 0
    /\ arena_bytes w' = []
    /\ exists bytes,
         answer (deviceDescriptor w') = Ok bytes
         /\ length bytes = 18%nat
         /\ bytes !! 17%nat = Some (created_configurations sample_program).
Proof.
  assert (from_start (do_steps zeroed born_null sample_program) = Ok (tt, sample_world))
    as H by (vm_compute; reflexivity).
  split; [exact H|]. do 3 (split; [reflexivity|]).
  exact (clear_keeps_device_descriptor zeroed born_null sample_program
           sample_world H).
Defined.

(** * Further properties of the code *)

(** ** Vector: cells, capacity *)

Lemma get_inside {T} (v : Vector T) (i : Z) :
  i < actual_size v -> get i v = load (data_ v) i.
Proof.
  intros H. unfold get. destruct (i >=? actual_size v) eqn:E; [lia|reflexivity].
Qed.

Lemma load_lookup {T} (l : list T) (i : Z) :
  0 <= i -> load l i = match l !! Z.to_nat i with
                       | Some x => Ok x
                       | None => Fault OutOfBounds
                       end.
Proof. intros H. unfold load. destruct (0 <=? i) eqn:E; [reflexivity|lia]. Qed.

Lemma load_neg {T} (l : list T) (i : Z) : i < 0 -> load l i = Fault OutOfBounds.
Proof. intros H. unfold load. destruct (0 <=? i) eqn:E; [lia|reflexivity]. Qed.

Lemma store_inside {T} (l : list T) (i : Z) (x : T) :
  0 <= i < Z.of_nat (length l) -> store l i x = Ok (<[Z.to_nat i := x]> l).
Proof. intros H. apply store_Ok. split; [exact H|reflexivity]. Qed.

Lemma store_outside {T} (l : list T) (i : Z) (x : T) :
  Z.of_nat (length l) <= i -> store l i x = Fault OutOfBounds.
Proof.
  intros H. unfold store.
  destruct ((0 <=? i) && (i <? Z.of_nat (length l))) eqn:E; [|reflexivity].
  apply andb_true_iff in E as [_ E%Z.ltb_lt]. lia.
Qed.

(** X1: while a vector has a free cell, [append] stores the value in the
    first free cell and leaves the capacity and the cells before it as they
    were: [get] of the old size reads the value back, [get] of a smaller
    index reads what it read before. *)
Theorem append_within_capacity {T} (junk : nat -> T) (v : Vector T) (x : T) :
  Vector_wf v -> actual_size v < max_size v ->
  exists v',
    append junk x v = Ok v'
    /\ Vector_wf v'
    /\ size v' = size v + 1
    /\ max_size v' = max_size v
    /\ get (size v) v' = Ok x
    /\ forall i, i < size v -> get i v' = get i v.
Proof.
  intros [[Ha Hm] Hl] Hroom. unfold append, grow, size.
  destruct (actual_size v >? max_size v) eqn:E; [lia|]. simpl.
  rewrite store_inside by lia.
  simpl. eexists. split; [reflexivity|]. simpl.
  split; [|split; [reflexivity|split; [reflexivity|split]]].
  - split; simpl; [lia|]. rewrite length_insert. exact Hl.
  - rewrite get_inside by (simpl; lia). simpl.
    apply load_Ok. split; [lia|]. apply list_lookup_insert_eq. lia.
  - intros i Hi. rewrite !get_inside by (simpl; lia). simpl.
    destruct (Z_lt_le_dec i 0) as [Hn|Hp].
    + by rewrite !load_neg.
    + rewrite !load_lookup by lia.
      rewrite list_lookup_insert_ne by lia. reflexivity.
Qed.

(** A vector of two cells holding 5: 7 is appended. *)
Lemma append_within_capacity_witness :
  exists v',
    append zeroed 7 (mkVector 2 1 1 [5; 0] 0) = Ok v'
    /\ Vector_wf v' /\ size v' = 2 /\ max_size v' = 2
    /\ get 1 v' = Ok 7 /\ get 0 v' = Ok 5.
Proof.
  destruct (append_within_capacity zeroed (mkVector 2 1 1 [5; 0] 0) 7)
    as (v' & H1 & H2 & H3 & H4 & H5 & H6).
  - split; simpl; [lia|reflexivity].
  - simpl. lia.
  - exists v'. split; [exact H1|]. split; [exact H2|]. split; [exact H3|].
    split; [exact H4|]. split; [exact H5|].
    rewrite (H6 0) by (simpl; lia). reflexivity.
Defined.

(** X2: [append] never grows a vector.  It asks [grow] for the current
    size, which is never more than the capacity; on a vector whose cells
    are all used, [grow] changes nothing and the value is written one cell
    past the storage. *)
Theorem append_at_capacity_overruns {T} (junk : nat -> T) (v : Vector T)
    (x : T) :
  Vector_wf v -> actual_size v = max_size v ->
  grow junk (actual_size v) v = Ok (true, v)
  /\ append junk x v = Fault OutOfBounds.
Proof.
  intros [[Ha Hm] Hl] Hfull. unfold append, grow.
  destruct (actual_size v >? max_size v) eqn:E; [lia|]. simpl.
  split; [reflexivity|]. by rewrite store_outside by lia.
Qed.

(** A full vector of two cells. *)
Lemma append_at_capacity_overruns_witness :
  grow zeroed 2 (mkVector 2 2 1 [5; 7] 0) = Ok (true, mkVector 2 2 1 [5; 7] 0)
  /\ append zeroed 9 (mkVector 2 2 1 [5; 7] 0) = Fault OutOfBounds.
Proof.
  apply (append_at_capacity_overruns zeroed (mkVector 2 2 1 [5; 7] 0) 9).
  - split; simpl; [lia|reflexivity].
  - reflexivity.
Defined.




(** ** The arena: appends *)

(** X4: an append of [size_in] > 0 bytes that ends below the capacity
    returns the old length as the place of the bytes, adds [size_in] to the
    length, and leaves in the used part the bytes that were there followed
    by the first [size_in] bytes of the source; the storage after them is
    untouched. *)
Theorem addDescriptor_appends (junk : nat -> Z) (src : list Z) (size_in : Z)
    (d : USBConfigurationDescriptorData) (v : Vector Z) :
  buffer_ptr d = Some v ->
  Z.of_nat (length (data_ v)) = max_size v -> max_size v <= 65536 ->
  0 <= totalSize d ->
  0 < size_in <= Z.of_nat (length src) ->
  totalSize d + size_in < max_size v ->
  exists d' v',
    addDescriptor junk (Some src) size_in d = Ok (Some (totalSize d), d')
    /\ buffer_ptr d' = Some v'
    /\ max_size v' = max_size v
    /\ length (data_ v') = length (data_ v)
    /\ totalSize d' = totalSize d + size_in
    /\ take (Z.to_nat (totalSize d')) (data_ v')
       = take (Z.to_nat (totalSize d)) (data_ v) ++ take (Z.to_nat size_in) src
    /\ drop (Z.to_nat (totalSize d')) (data_ v')
       = drop (Z.to_nat (totalSize d')) (data_ v).
Proof.
  intros Hv Hl Hmax H0 Hs Hfit. unfold addDescriptor, buffer, totalSize in *.
  destruct (size_in =? 0) eqn:E; [lia|]. simpl. rewrite Hv. simpl.
  unfold checkSize.
  destruct (arena_length d + size_in <? max_size v) eqn:E'; [|lia].
  simpl. rewrite memcpy_Ok by lia. simpl.
  eexists _, _. split; [reflexivity|]. simpl. split; [reflexivity|].
  split; [reflexivity|].
  unfold uint16. rewrite Z.mod_small by lia.
  assert (length (take (Z.to_nat (arena_length d)) (data_ v)
                    ++ take (Z.to_nat size_in) src)
          = Z.to_nat (arena_length d + size_in)) as Hlen.
  { rewrite length_app, !length_take. lia. }
  split; [|split; [reflexivity|split]].
  - simpl. rewrite !length_app, !length_take, length_drop. lia.
  - simpl. rewrite app_assoc, take_app_length'; [reflexivity|].
    symmetry. exact Hlen.
  - simpl. rewrite app_assoc, drop_app_length'; [reflexivity|].
    symmetry. exact Hlen.
Qed.

(** Two bytes appended to the arena of [sample_world], of which 32 bytes
    are used. *)
Lemma addDescriptor_appends_witness :
  exists d' v',
    totalSize (arena sample_world) = 32
    /\ addDescriptor zeroed (Some [2; 0x24]) 2 (arena sample_world)
       = Ok (Some 32, d')
    /\ buffer_ptr d' = Some v'
    /\ totalSize d' = 34
    /\ drop 32 (take 34 (data_ v')) = [2; 0x24].
Proof.
  destruct (buffer_ptr (arena sample_world)) as [v|] eqn:Hv; [|discriminate].
  destruct (addDescriptor_appends zeroed [2; 0x24] 2 (arena sample_world) v Hv)
    as (d' & v' & H1 & H2 & _ & _ & H5 & H6 & _).
  - vm_compute in Hv. injection Hv as <-. reflexivity.
  - vm_compute in Hv. injection Hv as <-. simpl. lia.
  - vm_compute. discriminate.
  - simpl. lia.
  - vm_compute in Hv. injection Hv as <-. reflexivity.
  - exists d', v'. split; [reflexivity|]. split; [exact H1|].
    split; [exact H2|]. split; [exact H5|].
    rewrite H5 in H6. change (Z.to_nat (totalSize (arena sample_world) + 2))
      with 34%nat in H6.
    rewrite H6. vm_compute in Hv. injection Hv as <-. reflexivity.
Defined.


(** ** The string table: records, indices *)

(** X6: for every 7-bit text, [toUtf] leaves in the scratch buffer the
    string descriptor of the text: the length byte 2 * min(strlen, 31) + 2,
    the tag 0x03, and then, for each of the first min(strlen, 31)
    characters, its code followed by a zero byte (UTF-16LE); what follows
    the 31st character is dropped.  The table of strings is not
    touched. *)
Theorem toUtf_keeps_first_31 (s : USBStrings) (t : string) :
  length (result_buf s) = 32%nat ->
  ascii7 t = true ->
  exists s',
    toUtf (Some t) s = Ok (PResult, s')
    /\ wire_record (result_buf s')
       = [2 * Z.min (strlen t) 31 + 2; 0x03]
         ++ utf16le (substring 0 (Z.to_nat (Z.min (strlen t) 31)) t)
    /\ length (wire_record (result_buf s'))
       = Z.to_nat (2 * Z.min (strlen t) 31 + 2)
    /\ char_array s' = char_array s.
Proof.
  intros Hlen Hascii.
  destruct (toUtf_wire s t Hlen) as (s' & Hs' & Hca & Hw).
  pose proof (strlen_bounds t) as Hb. rewrite encoded_len_min in Hw.
  exists s'. split; [exact Hs'|]. rewrite Hw.
  split; [|split; [|exact Hca]].
  - by rewrite cell_bytes_units by lia.
  - cbn [app length]. rewrite length_cell_bytes. unfold utf16_units.
    rewrite length_map, length_seq. lia.
Qed.

(** A text of 40 characters: the record has 64 bytes and holds the first
    31 characters. *)
Lemma toUtf_keeps_first_31_witness :
  exists s s',
    USBStrings_new = Ok s
    /\ toUtf (Some "0123456789012345678901234567890123456789"%string) s
       = Ok (PResult, s')
    /\ wire_record (result_buf s')
       = [64; 3] ++ utf16le "0123456789012345678901234567890"%string
    /\ length (wire_record (result_buf s')) = 64%nat.
Proof.
  eexists.
  destruct (toUtf_keeps_first_31
              (mkStrings (mkVector 10 0 5 (alloc unset 10) None)
                 (repeat 0 32) [0x0304; 0x0409])
              "0123456789012345678901234567890123456789"%string)
    as (s' & H1 & H2 & H3 & _); [reflexivity|reflexivity|].
  exists s'. split; [reflexivity|]. split; [exact H1|].
  split; [exact H2|exact H3].
Defined.

(** X7: [setLanguage(lang)] makes the record of index 0 the four bytes
    4, 0x03, low byte of [lang], high byte of [lang]; [string(0)] hands out
    that record, and the strings of the table are not touched. *)
Theorem setLanguage_record (lang : Z) (s : USBStrings) :
  length (language s) = 2%nat ->
  exists s',
    setLanguage lang s = Ok s'
    /\ char_array s' = char_array s
    /\ result_buf s' = result_buf s
    /\ strings_string 0 s' = Ok (PLanguage, s')
    /\ option_map wire_record (deref_strptr PLanguage s')
       = Some [4; 0x03; uint16 lang mod 256; uint16 lang / 256].
Proof.
  intros Hlen. destruct (language s) as [|c0 [|c1 [|]]] eqn:E; try discriminate.
  unfold setLanguage. rewrite E. unfold load, store. simpl.
  eexists. split; [reflexivity|]. simpl. split; [reflexivity|].
  split; [reflexivity|]. split; [reflexivity|].
  unfold wire_record, cell_bytes. cbn [flat_map app nth].
  rewrite (header_cell_lo c0 4 3) by lia.
  rewrite (header_cell_hi c0 4 3) by lia.
  assert (0 <= uint16 lang < 65536) as Hb by (apply Z.mod_pos_bound; lia).
  rewrite (Z.mod_small (uint16 lang / 256)).
  - reflexivity.
  - split; [apply Z.div_pos; lia|]. apply Z.div_lt_upper_bound; lia.
Qed.

(** The language 0x0407 on the new table. *)
Lemma setLanguage_record_witness :
  exists s s',
    USBStrings_new = Ok s
    /\ setLanguage 0x0407 s = Ok s'
    /\ strings_string 0 s' = Ok (PLanguage, s')
    /\ option_map wire_record (deref_strptr PLanguage s') = Some [4; 3; 7; 4].
Proof.
  eexists.
  destruct (setLanguage_record 0x0407
              (mkStrings (mkVector 10 0 5 (alloc unset 10) None)
                 (repeat 0 32) [0x0304; 0x0409]))
    as (s' & H1 & _ & _ & H4 & H5); [reflexivity|].
  exists s'. split; [reflexivity|]. split; [exact H1|].
  split; [exact H4|exact H5].
Defined.

(** X8: [string] hands out the same scratch buffer for every index but 0.
    After [string(i)] the pointer handed out refers to the string
    descriptor of the text at [i]; after a following [string(j)] the same
    pointer refers to the string descriptor of the text at [j] (7-bit
    texts). *)
Theorem string_results_share_buffer (s : USBStrings) (i j : Z)
    (t1 t2 : string) :
  length (result_buf s) = 32%nat ->
  i <> 0 -> j <> 0 ->
  strings_get i s = Ok (Some t1) -> strings_get j s = Ok (Some t2) ->
  ascii7 t1 = true -> ascii7 t2 = true ->
  exists s1 s2,
    strings_string i s = Ok (PResult, s1)
    /\ option_map wire_record (deref_strptr PResult s1)
       = Some (string_record t1)
    /\ strings_string j s1 = Ok (PResult, s2)
    /\ option_map wire_record (deref_strptr PResult s2)
       = Some (string_record t2).
Proof.
  intros Hlen Hi Hj Hgi Hgj Ha1 Ha2.
  destruct (toUtf_string_record s t1 Hlen) as (s1 & Hs1 & Hca & Hlen1 & Hw1).
  destruct (toUtf_string_record s1 t2 Hlen1) as (s2 & Hs2 & _ & _ & Hw2).
  exists s1, s2. unfold strings_string.
  destruct (i =? 0) eqn:Ei; [lia|]. destruct (j =? 0) eqn:Ej; [lia|].
  rewrite Hgi. simpl rbind. split; [exact Hs1|].
  split; [simpl; by rewrite Hw1|].
  unfold strings_get in *. rewrite Hca, Hgj. simpl rbind.
  split; [exact Hs2|]. simpl. by rewrite Hw2.
Qed.

(** The table with "one" and "two": after [string(1)] the buffer holds the
    record of "one", after [string(2)] that of "two". *)
Lemma string_results_share_buffer_witness :
  exists s1 s2,
    strings_string 1
      (mkStrings (mkVector 10 2 5
                    (Some "one"%string :: Some "two"%string :: repeat None 8)
                    None)
         (repeat 0 32) [0x0304; 0x0409]) = Ok (PResult, s1)
    /\ option_map wire_record (deref_strptr PResult s1)
       = Some [8; 3; 111; 0; 110; 0; 101; 0]
    /\ strings_string 2 s1 = Ok (PResult, s2)
    /\ option_map wire_record (deref_strptr PResult s2)
       = Some [8; 3; 116; 0; 119; 0; 111; 0].
Proof.
  destruct (string_results_share_buffer
              (mkStrings (mkVector 10 2 5
                            (Some "one"%string :: Some "two"%string
                             :: repeat None 8) None)
                 (repeat 0 32) [0x0304; 0x0409]) 1 2 "one"%string "two"%string)
    as (s1 & s2 & H1 & H2 & H3 & H4);
    [reflexivity | lia | lia | reflexivity | reflexivity | reflexivity
    | reflexivity |].
  exists s1, s2. split; [exact H1|]. split; [exact H2|].
  split; [exact H3|exact H4].
Defined.

(** X9: an index that names no string (above the number of strings and at
    most 65536, or negative and above that number less 65536) makes [get]
    answer the null pointer and [string] hand out the null pointer; the
    table is left as it was. *)
Theorem string_of_unused_index_is_null (s : USBStrings) (index : Z) :
  empty (char_array s) = None ->
  0 <= strings_size s ->
  strings_size s < index <= 65536 \/ strings_size s - 65536 < index < 0 ->
  strings_get index s = Ok None
  /\ strings_string index s = Ok (PNull, s).
Proof.
  intros He H0 Hidx. unfold strings_size, size in *.
  assert (strings_get index s = Ok None) as Hg.
  { unfold strings_get, at_pos, get.
    assert (actual_size (char_array s) <= uint16 (index - 1)) as Hu.
    { unfold uint16. destruct Hidx as [H|H].
      - rewrite Z.mod_small by lia. lia.
      - replace (index - 1) with (index - 1 + 65536 + (-1) * 65536) by lia.
        rewrite Z.mod_add by lia. rewrite Z.mod_small by lia. lia. }
    destruct (uint16 (index - 1) >=? actual_size (char_array s)) eqn:E; [|lia].
    by rewrite He. }
  split; [exact Hg|]. unfold strings_string.
  destruct (index =? 0) eqn:E0; [lia|]. rewrite Hg. reflexivity.
Qed.

(** On the new table, which holds no string, the indices 1 and -1. *)
Lemma string_of_unused_index_is_null_witness :
  exists s,
    USBStrings_new = Ok s
    /\ strings_string 1 s = Ok (PNull, s)
    /\ strings_string (-1) s = Ok (PNull, s).
Proof.
  exists (mkStrings (mkVector 10 0 5 (alloc unset 10) None)
            (repeat 0 32) [0x0304; 0x0409]).
  split; [reflexivity|]. split.
  - apply string_of_unused_index_is_null;
      [reflexivity | unfold strings_size, size; simpl; lia |].
    left. unfold strings_size, size. simpl. lia.
  - apply string_of_unused_index_is_null;
      [reflexivity | unfold strings_size, size; simpl; lia |].
    right. unfold strings_size, size. simpl. lia.
Defined.

(** X10: the index of [string] reaches the vector as a [uint16_t]: an
    index and the index 65536 above it name the same string. *)
Theorem string_index_wraps (s : USBStrings) (index : Z) :
  index <> 0 -> index + 65536 <> 0 ->
  strings_string (index + 65536) s = strings_string index s.
Proof.
  intros H1 H2. unfold strings_string, strings_get, at_pos.
  destruct (index =? 0) eqn:E1; [lia|].
  destruct (index + 65536 =? 0) eqn:E2; [lia|].
  replace (uint16 (index + 65536 - 1)) with (uint16 (index - 1));
    [reflexivity|].
  unfold uint16. replace (index + 65536 - 1) with (index - 1 + 1 * 65536) by lia.
  by rewrite Z.mod_add by lia.
Qed.

(** [string(65537)] is [string(1)]. *)
Lemma string_index_wraps_witness :
  strings_string 65537
    (mkStrings (mkVector 10 1 5 (Some "one"%string :: repeat None 9) None)
       (repeat 0 32) [0x0304; 0x0409])
  = strings_string 1
      (mkStrings (mkVector 10 1 5 (Some "one"%string :: repeat None 9) None)
         (repeat 0 32) [0x0304; 0x0409]).
Proof.
  apply (string_index_wraps
           (mkStrings (mkVector 10 1 5 (Some "one"%string :: repeat None 9) None)
              (repeat 0 32) [0x0304; 0x0409]) 1); lia.
Defined.

(** X11: [clear] forgets the strings and keeps the storage: the next [add]
    returns the index 1 again, and [get(1)] is then the text just added. *)
Theorem clear_then_add_restarts (s : USBStrings) (t : string) :
  Vector_wf (char_array s) -> 0 < max_size (char_array s) ->
  exists s',
    strings_add (Some t) (strings_clear s) = Ok (1, s')
    /\ strings_size s' = 1
    /\ max_size (char_array s') = max_size (char_array s)
    /\ strings_get 1 s' = Ok (Some t).
Proof.
  intros [[Ha Hm] Hl] Hcap.
  unfold strings_add, strings_clear, append, grow. simpl.
  destruct (0 >? max_size (char_array s)) eqn:E; [lia|]. simpl.
  unfold store. simpl.
  destruct (0 <? Z.of_nat (length (data_ (char_array s)))) eqn:E1; [|lia].
  simpl. eexists. split; [reflexivity|]. simpl.
  split; [reflexivity|]. split; [reflexivity|].
  unfold strings_get, at_pos, get. simpl.
  destruct (data_ (char_array s)); [simpl in *; lia|]. reflexivity.
Qed.

(** "one" and "two" are added, the table is cleared, "three" is added. *)
Lemma clear_then_add_restarts_witness :
  exists s1 s2 s3,
    rbind USBStrings_new (fun s => strings_add (Some "one"%string) s)
    = Ok (1, s1)
    /\ strings_add (Some "two"%string) s1 = Ok (2, s2)
    /\ strings_add (Some "three"%string) (strings_clear s2) = Ok (1, s3)
    /\ strings_get 1 s3 = Ok (Some "three"%string).
Proof.
  eexists _, _.
  destruct (clear_then_add_restarts
              (mkStrings (mkVector 10 2 5
                            (Some "one"%string :: Some "two"%string
                             :: repeat None 8) None)
                 (repeat 0 32) [0x0304; 0x0409]) "three"%string)
    as (s3 & H1 & _ & _ & H4).
  - split; simpl; [lia|reflexivity].
  - simpl. lia.
  - exists s3. split; [reflexivity|]. split; [reflexivity|].
    split; [exact H1|exact H4].
Defined.

(** X12: while the table has room, [add] returns the next index and
    leaves the strings of the earlier indices as they were; [string] of
    the new index hands out the string descriptor of the text added: the
    length byte, the tag 0x03 and the UTF-16LE bytes of the whole text (a
    7-bit text of at most 31 characters, no NUL). *)
Theorem add_returns_next_index (s : USBStrings) (t : string) :
  Vector_wf (char_array s) ->
  actual_size (char_array s) < max_size (char_array s) <= 255 ->
  length (result_buf s) = 32%nat ->
  strlen t = Z.of_nat (String.length t) ->
  (String.length t <= 31)%nat ->
  ascii7 t = true ->
  exists s1 s2,
    strings_add (Some t) s = Ok (strings_size s + 1, s1)
    /\ strings_size s1 = strings_size s + 1
    /\ (forall i, 1 <= i <= strings_size s ->
          strings_get i s1 = strings_get i s)
    /\ strings_string (strings_size s + 1) s1 = Ok (PResult, s2)
    /\ wire_record (result_buf s2)
       = [2 * Z.of_nat (String.length t) + 2; 0x03] ++ utf16le t.
Proof.
  intros Hwf Hroom Hres Hnul H31 Hascii.
  destruct (add_then_string s t Hwf Hroom Hres Hnul H31)
    as (s1 & s2 & Hadd & Hstr & Hdec).
  exists s1, s2. unfold strings_size. split; [exact Hadd|].
  destruct Hwf as [[Ha Hm] Hl]. destruct Hroom as [Hroom H255].
  assert (char_array s1
          = {| max_size := max_size (char_array s);
               actual_size := actual_size (char_array s) + 1;
               increment_by := increment_by (char_array s);
               data_ := <[Z.to_nat (actual_size (char_array s)) := Some t]>
                          (data_ (char_array s));
               empty := empty (char_array s) |}) as Hca.
  { revert Hadd. unfold strings_add, append, grow.
    destruct (actual_size (char_array s) >? max_size (char_array s)) eqn:E;
      [lia|].
    simpl. rewrite store_inside by lia. simpl. by intros [= _ <-]. }
  split; [by rewrite Hca|]. split; [|split; [exact Hstr|exact Hdec]].
  intros i Hi. unfold size in Hi. unfold strings_get, at_pos, uint16.
  rewrite Z.mod_small by lia.
  rewrite !get_inside by (rewrite ?Hca; simpl; lia).
  rewrite !load_lookup by lia. rewrite Hca. simpl.
  rewrite list_lookup_insert_ne by lia. reflexivity.
Qed.

(** "three" added to the table that holds "one" and "two": it gets the
    index 3, and "one" and "two" are still at 1 and 2. *)
Lemma add_returns_next_index_witness :
  exists s1 s2,
    strings_add (Some "three"%string)
      (mkStrings (mkVector 10 2 5
                    (Some "one"%string :: Some "two"%string :: repeat None 8)
                    None)
         (repeat 0 32) [0x0304; 0x0409]) = Ok (3, s1)
    /\ strings_size s1 = 3
    /\ strings_get 1 s1 = Ok (Some "one"%string)
    /\ strings_get 2 s1 = Ok (Some "two"%string)
    /\ strings_string 3 s1 = Ok (PResult, s2)
    /\ wire_record (result_buf s2)
       = [12; 3; 116; 0; 104; 0; 114; 0; 101; 0; 101; 0].
Proof.
  destruct (add_returns_next_index
              (mkStrings (mkVector 10 2 5
                            (Some "one"%string :: Some "two"%string
                             :: repeat None 8) None)
                 (repeat 0 32) [0x0304; 0x0409]) "three"%string)
    as (s1 & s2 & H1 & H2 & H3 & H4 & H5).
  - split; simpl; [lia|reflexivity].
  - simpl. lia.
  - reflexivity.
  - reflexivity.
  - simpl. lia.
  - reflexivity.
  - exists s1, s2. split; [exact H1|]. split; [exact H2|].
    split; [rewrite (H3 1) by (unfold strings_size, size; simpl; lia);
            reflexivity|].
    split; [rewrite (H3 2) by (unfold strings_size, size; simpl; lia);
            reflexivity|].
    split; [exact H4|exact H5].
Defined.

Lemma compare_bytes_Eq (a b : list Z) :
  length a = length b -> (compare_bytes a b = Eq <-> a = b).
Proof.
  revert b. induction a as [|x a IH]; intros [|y b] Hl; try discriminate.
  - done.
  - simpl. destruct (x =? y) eqn:E.
    + apply Z.eqb_eq in E as ->. rewrite IH by (simpl in Hl; lia).
      split; [by intros ->|by intros [= ->]].
    + apply Z.eqb_neq in E. rewrite Z.compare_eq_iff.
      split; [done|by intros [= -> _]].
Qed.

(** X13: [equals] answers true exactly when the two records have the same
    length byte and differ in the bytes that length covers; of two records
    that are the same it answers false. *)
Theorem equals_true_iff_records_differ (str1 str2 : list Z) :
  let b1 := cell_bytes str1 in
  let b2 := cell_bytes str2 in
  (0 < length str1)%nat -> (0 < length str2)%nat ->
  nth 0 b1 0 <= Z.of_nat (length b1) ->
  nth 0 b2 0 <= Z.of_nat (length b2) ->
  exists r,
    strings_equals str1 str2 = Ok r
    /\ (r = true <-> nth 0 b1 0 = nth 0 b2 0
                     /\ wire_record str1 <> wire_record str2).
Proof.
  intros b1 b2 H1 H2 Hl1 Hl2. unfold strings_equals, wire_record.
  fold b1 b2.
  destruct str1 as [|c1 r1]; [simpl in H1; lia|].
  destruct str2 as [|c2 r2]; [simpl in H2; lia|].
  assert (exists x1 t1, b1 = x1 :: t1 /\ 0 <= x1) as (x1 & t1 & E1 & Hx1).
  { eexists _, _. split; [reflexivity|]. apply Z.mod_pos_bound. lia. }
  assert (exists x2 t2, b2 = x2 :: t2 /\ 0 <= x2) as (x2 & t2 & E2 & Hx2).
  { eexists _, _. split; [reflexivity|]. apply Z.mod_pos_bound. lia. }
  rewrite E1, E2 in *. cbn [nth] in *. unfold load. simpl rbind.
  destruct (x1 =? x2) eqn:E.
  - apply Z.eqb_eq in E as <-. simpl negb. cbv iota.
    unfold memcmp.
    destruct ((0 <=? x1) && (x1 <=? Z.of_nat (length (x1 :: t1)))
              && (x1 <=? Z.of_nat (length (x1 :: t2)))) eqn:Hc.
    2:{ apply andb_false_iff in Hc as [Hc|Hc%Z.leb_gt]; [|lia].
        apply andb_false_iff in Hc as [Hc%Z.leb_gt|Hc%Z.leb_gt]; lia. }
    simpl rbind.
    pose proof (compare_bytes_Eq (take (Z.to_nat x1) (x1 :: t1))
                  (take (Z.to_nat x1) (x1 :: t2))) as Hcmp.
    rewrite !length_take in Hcmp. specialize (Hcmp ltac:(lia)).
    destruct (compare_bytes _ _) eqn:Hcb; eexists; (split; [reflexivity|]).
    + split; [discriminate|]. intros [_ Hne]. exfalso. apply Hne.
      by apply Hcmp.
    + split; [|done]. intros _. split; [done|]. intros Heq.
      apply Hcmp in Heq. discriminate.
    + split; [|done]. intros _. split; [done|]. intros Heq.
      apply Hcmp in Heq. discriminate.
  - apply Z.eqb_neq in E. simpl. eexists. split; [reflexivity|].
    split; [discriminate|]. intros [? _]. done.
Qed.

(** The language record against itself, and against the record of another
    language. *)
Lemma equals_true_iff_records_differ_witness :
  strings_equals [0x0304; 0x0409] [0x0304; 0x0409] = Ok false
  /\ strings_equals [0x0304; 0x0409] [0x0304; 0x0407] = Ok true.
Proof.
  split.
  - destruct (equals_true_iff_records_differ [0x0304; 0x0409] [0x0304; 0x0409])
      as (r & Hr & Hiff);
      [simpl; lia | simpl; lia | vm_compute; discriminate
      | vm_compute; discriminate |].
    rewrite Hr. f_equal. destruct r; [|reflexivity].
    destruct (proj1 Hiff eq_refl) as [_ Hne]. by destruct Hne.
  - destruct (equals_true_iff_records_differ [0x0304; 0x0409] [0x0304; 0x0407])
      as (r & Hr & Hiff);
      [simpl; lia | simpl; lia | vm_compute; discriminate
      | vm_compute; discriminate |].
    rewrite Hr. f_equal. apply Hiff. split; [reflexivity|].
    vm_compute. discriminate.
Defined.

(** ** Endpoints *)

(** X14: [createEndpoint] does not look at the direction: the call with
    [isInput] true and the call with [isInput] false have the same
    outcome, records and nodes alike. *)
Theorem createEndpoint_ignores_direction (junk : nat -> Z) (i : nat)
    (xfer : TransferType) (w : World) :
  createEndpoint junk i true xfer w = createEndpoint junk i false xfer w.
Proof.
  unfold createEndpoint, USBEndpoint_new.
  assert (forall n, endpoint_address n true = endpoint_address n false) as He
    by (intros n; by rewrite !endpoint_address_value).
  unfold bind. destruct (usbEndpointCount i w) as [[n w1]|]; [|reflexivity].
  by rewrite He.
Qed.

(** X16: when the arena has no room for the record of an endpoint,
    [addDescriptor] answers the null pointer and leaves the arena as it
    was, and [createEndpoint] writes the fields of the record through that
    null pointer. *)
Theorem createEndpoint_on_full_arena (junk : nat -> Z) (i : nat)
    (isInput : bool) (xfer : TransferType) (w : World) (v : Vector Z) :
  is_Some (interface_objs w !! i) ->
  buffer_ptr (arena w) = Some v ->
  max_size v <= totalSize (arena w) + sizeof_endpoint ->
  on_arena (addDescriptor junk None sizeof_endpoint) w = Ok (None, w)
  /\ createEndpoint junk i isInput xfer w = Fault NullDeref.
Proof.
  intros [x Hx] Hv Hfull.
  assert (on_arena (addDescriptor junk None sizeof_endpoint) w = Ok (None, w))
    as Hadd.
  { unfold on_arena, bind, lift.
    unfold addDescriptor, buffer. change (sizeof_endpoint =? 0) with false.
    simpl. rewrite Hv. simpl. unfold checkSize.
    destruct (totalSize (arena w) + sizeof_endpoint <? max_size v) eqn:E;
      [lia|].
    unfold set_arena, ret. simpl. destruct w; reflexivity. }
  split; [exact Hadd|].
  unfold createEndpoint, usbEndpointCount.
  unfold bind at 1. unfold bind at 1. unfold the_interface, deref.
  rewrite Hx. unfold lift at 1. unfold ret at 1.
  unfold bind at 1. unfold USBEndpoint_new. unfold bind at 1.
  rewrite Hadd. reflexivity.
Qed.

(** [filling_program] leaves 249 bytes in the arena of 256: the next
    endpoint does not fit. *)
Lemma createEndpoint_on_full_arena_witness :
  from_start (do_steps zeroed born_null filling_program) = Ok (tt, full_world)
  /\ totalSize (arena full_world) = 249
  /\ createEndpoint zeroed 0 false Interrupt full_world = Fault NullDeref.
Proof.
  split; [vm_compute; reflexivity|]. split; [reflexivity|].
  eapply (createEndpoint_on_full_arena zeroed 0 false Interrupt full_world).
  - eexists. reflexivity.
  - reflexivity.
  - vm_compute. discriminate.
Defined.

(** ** The loops over the records *)

Lemma fuel_free_rbind {A B} (r : result A) (k : A -> result B) :
  fuel_free_result r -> (forall a, fuel_free_result (k a)) ->
  fuel_free_result (rbind r k).
Proof.
  intros Hr Hk. destruct r as [a|f]; simpl; [apply Hk|].
  intros [= ->]. by apply Hr.
Qed.

Lemma fuel_free_load {T} (l : list T) (i : Z) : fuel_free_result (load l i).
Proof.
  unfold fuel_free_result, load. destruct (0 <=? i); [|discriminate].
  destruct (l !! Z.to_nat i); discriminate.
Qed.

Lemma fuel_free_store {T} (l : list T) (i : Z) (x : T) :
  fuel_free_result (store l i x).
Proof. unfold fuel_free_result, store. destruct (_ && _); discriminate. Qed.

Lemma fuel_free_memcpy {T} (dst src : list T) (at_ n : Z) :
  fuel_free_result (memcpy dst at_ src n).
Proof. unfold fuel_free_result, memcpy. destruct (_ && _); discriminate. Qed.

Lemma fuel_free_grow {T} (junk : nat -> T) (n : Z) (v : Vector T) :
  fuel_free_result (grow junk n v).
Proof.
  unfold grow. destruct (n >? max_size v); [|discriminate].
  apply fuel_free_rbind; [|discriminate].
  destruct (data_ v); [discriminate|apply fuel_free_memcpy].
Qed.

Lemma fuel_free_append {T} (junk : nat -> T) (x : T) (v : Vector T) :
  fuel_free_result (append junk x v).
Proof.
  unfold append. apply fuel_free_rbind; [apply fuel_free_grow|].
  intros [b v1]. simpl. destruct b; [|discriminate].
  apply fuel_free_rbind; [apply fuel_free_store|discriminate].
Qed.

Lemma fuel_free_Vector_default {T} (junk : nat -> T) (u : T) :
  fuel_free_result (Vector_default junk u).
Proof.
  unfold Vector_default.
  apply fuel_free_rbind; [apply fuel_free_grow|discriminate].
Qed.

Lemma fuel_free_Vector_new {T} (junk : nat -> T) (e : T) (n g : Z) :
  fuel_free_result (Vector_new junk e n g).
Proof.
  unfold Vector_new.
  apply fuel_free_rbind; [apply fuel_free_grow|discriminate].
Qed.

Lemma fuel_free_addDescriptor junk ptr size_in d :
  fuel_free_result (addDescriptor junk ptr size_in d).
Proof.
  unfold addDescriptor. apply fuel_free_rbind.
  { destruct (size_in =? 0); [|discriminate].
    destruct ptr; [apply fuel_free_load|discriminate]. }
  intros size_. apply fuel_free_rbind.
  { unfold buffer. destruct (buffer_ptr d); [discriminate|].
    apply fuel_free_rbind; [apply fuel_free_Vector_new|discriminate]. }
  intros [v d1]. simpl. destruct (negb _); [discriminate|].
  apply fuel_free_rbind; [|discriminate].
  destruct ptr; [apply fuel_free_memcpy|discriminate].
Qed.

Lemma fuel_free_ret {A} (a : A) : fuel_free (ret a).
Proof. intros w. discriminate. Qed.

Lemma fuel_free_bind {A B} (m : M A) (k : A -> M B) :
  fuel_free m -> (forall a, fuel_free (k a)) -> fuel_free (bind m k).
Proof.
  intros Hm Hk w. unfold bind. specialize (Hm w).
  destruct (m w) as [[a w1]|f]; [apply Hk|].
  intros [= ->]. by apply Hm.
Qed.

Lemma fuel_free_lift {A} (r : result A) :
  fuel_free_result r -> fuel_free (lift r).
Proof.
  intros Hr w. unfold lift. destruct r; [discriminate|].
  intros [= ->]. by apply Hr.
Qed.

Lemma fuel_free_rd8 p k : fuel_free (rd8 p k).
Proof.
  intros w. unfold rd8. destruct p; [|discriminate].
  destruct (buffer_ptr (arena w)); [|discriminate].
  apply fuel_free_lift, fuel_free_load.
Qed.

Lemma fuel_free_wr8 p k x : fuel_free (wr8 p k x).
Proof.
  intros w. unfold wr8. destruct p; [|discriminate].
  destruct (buffer_ptr (arena w)); [|discriminate].
  apply fuel_free_bind; [apply fuel_free_lift, fuel_free_store|].
  intros bytes w'. discriminate.
Qed.

Lemma fuel_free_deref {A} (objs : list A) p : fuel_free_result (deref objs p).
Proof.
  unfold fuel_free_result, deref. destruct p; [|discriminate].
  destruct (objs !! _); discriminate.
Qed.

Lemma fuel_free_on_arena {A}
    (f : USBConfigurationDescriptorData
         -> result (A * USBConfigurationDescriptorData)) :
  (forall d, fuel_free_result (f d)) -> fuel_free (on_arena f).
Proof.
  intros Hf w. unfold on_arena. apply fuel_free_bind.
  - apply fuel_free_lift, Hf.
  - intros r. apply fuel_free_bind; [intros w'; discriminate|].
    intros _. apply fuel_free_ret.
Qed.

Ltac fuel_tac :=
  repeat (intros;
    match goal with
    | |- fuel_free (bind _ _) => apply fuel_free_bind
    | |- fuel_free (ret _) => apply fuel_free_ret
    | |- fuel_free (lift _) => apply fuel_free_lift
    | |- fuel_free (rd8 _ _) => apply fuel_free_rd8
    | |- fuel_free (wr8 _ _ _) => apply fuel_free_wr8
    | |- fuel_free (on_arena _) => apply fuel_free_on_arena
    | |- fuel_free (the_configuration _) =>
        intros ?; apply fuel_free_lift, fuel_free_deref
    | |- fuel_free (the_interface _) =>
        intros ?; apply fuel_free_lift, fuel_free_deref
    | |- fuel_free (put_configuration _ _) => intros ?; discriminate
    | |- fuel_free (put_interface _ _) => intros ?; discriminate
    | |- fuel_free (new_interface _) => intros ?; discriminate
    | |- fuel_free (new_endpoint _) => intros ?; discriminate
    | |- fuel_free_result (append _ _ _) => apply fuel_free_append
    | |- fuel_free_result (Vector_default _ _) => apply fuel_free_Vector_default
    | |- fuel_free_result (addDescriptor _ _ _ _) =>
        apply fuel_free_addDescriptor
    | |- fuel_free (match ?x with _ => _ end) => destruct x
    | |- fuel_free (if ?x then _ else _) => destruct x
    end).

Lemma fuel_free_parse_round junk c ptr len itf :
  fuel_free (parse_round junk c ptr len itf).
Proof.
  unfold parse_round, parse_record, createInterface_of_data,
    createEndpoint_of_data, USBInterface_of_data, USBEndpoint_of_data,
    conf_append_interface, conf_descriptor, set_conf_descriptor_data,
    usbInterfaceCount, itf_bNumEndpoints_incr, itf_append_endpoint,
    itf_descriptor.
  fuel_tac.
Qed.

Lemma fuel_free_parse_loop junk c end_ :
  forall fuel ptr len itf,
    (Z.to_nat (end_ - ptr) <= fuel)%nat ->
    fuel_free (parse_loop junk fuel c end_ ptr len itf).
Proof.
  induction fuel as [|fuel IH]; intros ptr len itf Hfuel w.
  - simpl. destruct ((ptr <? end_) && (len >? 0)) eqn:Hc; [|discriminate].
    apply andb_true_iff in Hc as [Hp%Z.ltb_lt _]. lia.
  - simpl. destruct ((ptr <? end_) && (len >? 0)) eqn:Hc; [|discriminate].
    apply andb_true_iff in Hc as [Hp%Z.ltb_lt Hl%Z.gtb_lt].
    unfold bind.
    destruct (parse_round junk c ptr len itf w) as [[st w1]|f] eqn:Hround.
    + apply IH. rewrite (parse_round_ptr _ _ _ _ _ _ _ _ Hround). lia.
    + intros [= ->]. by apply (fuel_free_parse_round junk c ptr len itf w).
Qed.

(** X17: the loop of [parseDescriptor] ends on every input: a round moves
    the cursor forward by at least one byte, so there are at most
    [data_len] rounds, and the parse never stops for want of rounds. *)
Theorem parseDescriptor_terminates (junk : nat -> Z) (c : nat)
    (data : option Z) (data_len : Z) (w : World) :
  parseDescriptor junk c data data_len w <> Fault OutOfFuel.
Proof.
  unfold parseDescriptor. destruct data as [ptr|]; [|discriminate].
  apply fuel_free_bind; [apply fuel_free_rd8|].
  intros len. apply fuel_free_parse_loop. lia.
Qed.


Lemma rd8_inside (p k : Z) (w : World) (v : Vector Z) (x : Z) :
  buffer_ptr (arena w) = Some v -> 0 <= p + k ->
  data_ v !! Z.to_nat (p + k) = Some x ->
  rd8 (Some p) k w = Ok (x, w).
Proof.
  intros Hv H0 Hx. unfold rd8. rewrite Hv. unfold lift, load.
  destruct (0 <=? p + k) eqn:E; [|lia]. by rewrite Hx.
Qed.

(** A round of the loop of [findDescriptor] on a record. *)
Lemma find_loop_record (fuel : nat) (id idx end_ ptr count : Z) (w : World)
    (v : Vector Z) (len tag : Z) :
  buffer_ptr (arena w) = Some v -> 0 <= ptr < end_ ->
  data_ v !! Z.to_nat ptr = Some len ->
  data_ v !! Z.to_nat (ptr + 1) = Some tag ->
  find_loop (S fuel) id idx end_ ptr count w
  = if tag =? id then
      if count =? idx then Ok (Some ptr, w)
      else find_loop fuel id idx end_ (ptr + len) (count + 1) w
    else find_loop fuel id idx end_ (ptr + len) count w.
Proof.
  intros Hv Hp Hl Ht. cbn [find_loop].
  destruct (ptr <? end_) eqn:E; [|lia].
  unfold bind at 1. rewrite (rd8_inside ptr 0 w v len Hv) by
    (rewrite ?Z.add_0_r; (lia || done)).
  unfold bind at 1. rewrite (rd8_inside ptr 1 w v tag Hv) by (lia || done).
  destruct (tag =? id); [|reflexivity].
  destruct (count =? idx); reflexivity.
Qed.



Lemma findDescriptor_loop (junk : nat -> Z) (fuel : nat) (c : nat) (id idx : Z)
    (w : World) (v : Vector Z) :
  is_Some (configuration_objs w !! c) ->
  buffer_ptr (arena w) = Some v ->
  0 <= id < 256 -> 0 <= idx < 256 ->
  exists w',
    buffer_ptr (arena w') = Some v
    /\ findDescriptor junk fuel c id idx w
       = find_loop fuel id idx (totalSize (arena w)) 0 0 w'.
Proof.
  intros [x Hx] Hv Hid Hidx. unfold findDescriptor.
  unfold bind at 1, the_configuration, deref. rewrite Hx. unfold lift at 1.
  unfold bind at 1, on_arena, bind at 1, buffer. rewrite Hv. unfold lift at 1.
  cbn [fst snd]. unfold bind at 1, set_arena, ret at 1.
  unfold bind at 1, get_world. cbn [arena].
  unfold uint8. rewrite !Z.mod_small by lia. rewrite Z.add_0_l.
  eexists. split; [|reflexivity]. exact Hv.
Qed.

Lemma records_total_app (a b : list (Z * Z)) :
  records_total (a ++ b) = records_total a + records_total b.
Proof. induction a as [|r a IH]; simpl; lia. Qed.

Lemma records_total_nonneg (rs : list (Z * Z)) :
  Forall (fun r => 0 < fst r) rs -> 0 <= records_total rs.
Proof. induction 1; simpl; lia. Qed.

Lemma records_at_app (bytes : list Z) (a b : list (Z * Z)) (off : Z) :
  records_at bytes off (a ++ b)
  <-> records_at bytes off a /\ records_at bytes (off + records_total a) b.
Proof.
  revert off. induction a as [|r a IH]; intros off; simpl.
  - rewrite Z.add_0_r. tauto.
  - rewrite IH, Z.add_assoc. tauto.
Qed.

Lemma count_type_nonneg id rs : 0 <= count_type id rs.
Proof.
  induction rs as [|r rs IH]; simpl; [lia|]. destruct (snd r =? id); lia.
Qed.

(** The loop passes the records of a chain in which too few have the
    tag. *)
Lemma find_loop_skips (id idx end_ : Z) (w : World) (v : Vector Z)
    (rs : list (Z * Z)) :
  buffer_ptr (arena w) = Some v ->
  Forall (fun r => 0 < fst r) rs ->
  forall (fuel : nat) (ptr count : Z),
    0 <= ptr -> records_at (data_ v) ptr rs ->
    ptr + records_total rs <= end_ ->
    count + count_type id rs <= idx ->
    find_loop (length rs + fuel) id idx end_ ptr count w
    = find_loop fuel id idx end_ (ptr + records_total rs)
        (count + count_type id rs) w.
Proof.
  intros Hv Hpos. induction Hpos as [|r rs Hr Hpos IH];
    intros fuel ptr count Hp Hch Hend Hcnt.
  - simpl. by rewrite !Z.add_0_r.
  - destruct Hch as (Hl & Ht & Hch). cbn [records_total count_type] in *.
    pose proof (records_total_nonneg rs Hpos) as Hrs.
    pose proof (count_type_nonneg id rs) as Hcn.
    cbn [length Nat.add].
    rewrite (find_loop_record _ _ _ _ _ _ _ v (fst r) (snd r))
      by (done || lia).
    destruct (snd r =? id) eqn:E.
    + destruct (count =? idx) eqn:E'; [lia|].
      rewrite IH by (done || lia). f_equal; lia.
    + rewrite IH by (done || lia). f_equal; lia.
Qed.

(** X18: on an arena whose used part is a chain of records of any types,
    each with a length byte above 0, [findDescriptor(id, idx)], given a
    round for each record, answers the start of the record with type [id]
    that has [idx] records of that type before it, and the null pointer when
    at most [idx] records have that type. *)
Theorem findDescriptor_finds_record (junk : nat -> Z) (fuel : nat) (c : nat)
    (id idx : Z) (w : World) (v : Vector Z) (rs : list (Z * Z)) :
  is_Some (configuration_objs w !! c) ->
  buffer_ptr (arena w) = Some v ->
  records_at (data_ v) 0 rs ->
  totalSize (arena w) = records_total rs ->
  Forall (fun r => 0 < fst r) rs ->
  0 <= id < 256 -> 0 <= idx < 256 ->
  (length rs <= fuel)%nat ->
  (forall pre r post,
      rs = pre ++ r :: post -> snd r = id -> count_type id pre = idx ->
      answer (findDescriptor junk fuel c id idx w)
      = Ok (Some (records_total pre)))
  /\ (count_type id rs <= idx ->
      answer (findDescriptor junk fuel c id idx w) = Ok None).
Proof.
  intros Hc Hv Hch Htot Hpos Hid Hidx Hfuel.
  destruct (findDescriptor_loop junk fuel c id idx w v Hc Hv Hid Hidx)
    as (w' & Hv' & ->).
  assert (exists e, fuel = (length rs + e)%nat) as [e ->]
    by (exists (fuel - length rs)%nat; lia).
  split.
  - intros pre r post -> Hr Hcount.
    rewrite records_at_app in Hch. destruct Hch as [Hpre Hr'].
    rewrite records_total_app in Htot. cbn [records_total] in Htot.
    apply Forall_app in Hpos as [Hpos1 Hpos2].
    pose proof (records_total_nonneg pre Hpos1) as Hp.
    pose proof (records_total_nonneg _ Hpos2) as Hpo.
    cbn [records_total] in Hpo.
    assert (0 < fst r) as Hlen by (by inversion Hpos2).
    assert (0 <= records_total post)
      by (apply records_total_nonneg; by inversion Hpos2).
    rewrite length_app. cbn [length].
    replace (length pre + S (length post) + e)%nat
      with (length pre + S (length post + e))%nat by lia.
    rewrite (find_loop_skips id idx _ w' v pre Hv' Hpos1) by (done || lia).
    rewrite Z.add_0_l in *. destruct Hr' as (Hl & Ht & _).
    rewrite (find_loop_record _ _ _ _ _ _ _ v (fst r) (snd r))
      by (done || lia).
    rewrite Hr, Z.eqb_refl. rewrite Hcount, Z.eqb_refl. reflexivity.
  - intros Hfew.
    rewrite (find_loop_skips id idx _ w' v rs Hv' Hpos) by (done || lia).
    rewrite Z.add_0_l, <- Htot. destruct e; simpl;
      rewrite Z.ltb_irrefl; reflexivity.
Qed.

(** In [world_with_class_record] the arena holds a configuration, an
    interface, a class-specific record and an endpoint: the first record
    of type 0x24 starts at byte 18, and there is no second. *)
Lemma findDescriptor_finds_record_witness :
  arena_bytes world_with_class_record = chain_with_class_record
  /\ answer (findDescriptor zeroed 4 0 0x24 0 world_with_class_record)
     = Ok (Some 18)
  /\ answer (findDescriptor zeroed 4 0 0x24 1 world_with_class_record)
     = Ok None.
Proof.
  split; [reflexivity|].
  destruct (buffer_ptr (arena world_with_class_record)) as [v|] eqn:Hv;
    [|discriminate].
  assert (records_at (data_ v) 0 [(9, 2); (9, 4); (7, 0x24); (7, 5)]) as Hch
    by (vm_compute in Hv; injection Hv as <-; simpl; repeat split).
  assert (Forall (fun r : Z * Z => 0 < fst r)
            [(9, 2); (9, 4); (7, 0x24); (7, 5)]) as Hpos
    by (repeat constructor).
  split.
  - destruct (findDescriptor_finds_record zeroed 4 0 0x24 0
                world_with_class_record v [(9, 2); (9, 4); (7, 0x24); (7, 5)])
      as [Hfound _];
      [eexists; reflexivity | exact Hv | exact Hch | reflexivity | exact Hpos
      | lia | lia | simpl; lia |].
    apply (Hfound [(9, 2); (9, 4)] (7, 0x24) [(7, 5)]); reflexivity.
  - destruct (findDescriptor_finds_record zeroed 4 0 0x24 1
                world_with_class_record v [(9, 2); (9, 4); (7, 0x24); (7, 5)])
      as [_ Hnone];
      [eexists; reflexivity | exact Hv | exact Hch | reflexivity | exact Hpos
      | lia | lia | simpl; lia |].
    apply Hnone. simpl. lia.
Defined.



(** ** Writes through a pointer into the arena *)

Lemma wr8_inside (p k x : Z) (w : World) (v : Vector Z) :
  buffer_ptr (arena w) = Some v ->
  0 <= p + k < Z.of_nat (length (data_ v)) ->
  wr8 (Some p) k x w = Ok (tt, poke_world w (p + k) (uint8 x)).
Proof.
  intros Hv Hin. unfold wr8, poke_world. rewrite Hv. unfold bind.
  unfold store.
  destruct ((0 <=? p + k) && (p + k <? Z.of_nat (length (data_ v)))) eqn:E.
  - reflexivity.
  - apply andb_false_iff in E as [E%Z.leb_gt|E%Z.ltb_ge]; lia.
Qed.

Lemma poke_world_buffer (w : World) (q x : Z) (v : Vector Z) :
  buffer_ptr (arena w) = Some v ->
  buffer_ptr (arena (poke_world w q x))
  = Some {| max_size := max_size v; actual_size := actual_size v;
            increment_by := increment_by v;
            data_ := <[Z.to_nat q := x]> (data_ v); empty := empty v |}.
Proof. intros Hv. unfold poke_world. rewrite Hv. reflexivity. Qed.

Lemma poke_world_length (w : World) (q x : Z) :
  arena_length (arena (poke_world w q x)) = arena_length (arena w).
Proof. unfold poke_world. by destruct (buffer_ptr (arena w)). Qed.

Lemma arena_byte_poke_frame (w : World) (q q' x : Z) :
  0 <= q -> q <> q' -> arena_byte (poke_world w q x) q' = arena_byte w q'.
Proof.
  intros Hq Hne. destruct (Z_lt_le_dec q' 0) as [Hneg|Hp].
  - unfold arena_byte, poke_world.
    destruct (buffer_ptr (arena w)) as [v|] eqn:Hv; simpl; [|by rewrite Hv].
    destruct (0 <=? q') eqn:E; [lia|reflexivity].
  - by apply arena_byte_poke_other.
Qed.

(** A write into the payload of a record of a laid-out arena. *)
Lemma payload_write (ks : list kind) (w : World) (p j x : Z) (k : kind) :
  Laid ks ks w -> totalSize (arena w) <= 256 ->
  record_at ks p k -> 2 <= j < kind_len k ->
  wr8 (Some p) j x w = Ok (tt, poke_world w (p + j) (uint8 x))
  /\ arena_byte (poke_world w (p + j) (uint8 x)) (p + j) = Some (uint8 x)
  /\ (forall q, q <> p + j ->
        arena_byte (poke_world w (p + j) (uint8 x)) q = arena_byte w q)
  /\ Laid ks ks (poke_world w (p + j) (uint8 x)).
Proof.
  intros HL Htot Hr Hj.
  pose proof Hr as (pre & post & Hks & Hp).
  pose proof (chain_total_nonneg pre) as Hpre.
  pose proof (chain_total_nonneg post) as Hpost.
  pose proof (laid_buffer _ _ _ HL) as Hbuf.
  pose proof (laid_length _ _ _ HL) as Hlen.
  unfold totalSize in Htot. rewrite Hlen, Hks, chain_total_app in Htot.
  cbn [chain_total] in Htot.
  destruct (buffer_ptr (arena w)) as [v|] eqn:Hv.
  2:{ subst ks. by destruct pre. }
  destruct Hbuf as (Hm & Hl & Hch).
  assert (0 <= p + j < Z.of_nat (length (data_ v))) as Hin by lia.
  split; [by apply (wr8_inside p j x w v)|].
  split; [by apply (arena_byte_poke_same w v)|].
  split; [intros q Hq; apply arena_byte_poke_frame; lia|].
  by eapply Laid_poke_payload.
Qed.

(** ** The total-length field, in general *)

(** X20: for a configuration whose record exists,
    [configurationDescriptorExt] (not at high speed) writes the length of
    the whole arena, a little-endian 16-bit value, into the bytes 2 and 3
    of that record, changes no other byte, and hands out the bytes of the
    arena. *)
Theorem configurationDescriptorExt_writes_total (junk : nat -> Z) (c : nat)
    (packetSizeHighSpeed : Z) (w : World) (x : USBConfiguration) (p : Z)
    (v : Vector Z) :
  configuration_objs w !! c = Some x -> conf_descriptor_data x = Some p ->
  buffer_ptr (arena w) = Some v ->
  0 <= p -> p + 3 < Z.of_nat (length (data_ v)) ->
  0 <= totalSize (arena w) < 65536 ->
  exists bytes w',
    configurationDescriptorExt junk false c packetSizeHighSpeed w
    = Ok (bytes, w')
    /\ bytes !! Z.to_nat (p + Off.wTotalLength)
       = Some (totalSize (arena w) mod 256)
    /\ bytes !! Z.to_nat (p + Off.wTotalLength + 1)
       = Some (totalSize (arena w) / 256)
    /\ (forall k, k <> Z.to_nat (p + 2) -> k <> Z.to_nat (p + 3) ->
          bytes !! k = data_ v !! k)
    /\ totalSize (arena w') = totalSize (arena w).
Proof.
  intros Hc Hp Hv Hp0 Hin HL. unfold totalSize in *.
  set (L := arena_length (arena w)) in *.
  unfold configurationDescriptorExt.
  unfold bind at 1. unfold ret at 1. unfold bind at 1, get_world at 1.
  unfold bind at 1. unfold bind at 1.
  assert (conf_descriptor junk c w = Ok (Some p, w)) as ->.
  { unfold conf_descriptor, bind, the_configuration, lift, deref.
    rewrite Hc, Hp. reflexivity. }
  unfold wr16, totalSize. fold L. unfold bind at 1.
  rewrite (wr8_inside p _ _ w v Hv) by (unfold Off.wTotalLength; lia).
  set (w1 := poke_world w (p + Off.wTotalLength) (uint8 (uint16 L mod 256))).
  pose proof (poke_world_buffer w (p + Off.wTotalLength)
                (uint8 (uint16 L mod 256)) v Hv) as Hv1. fold w1 in Hv1.
  rewrite (wr8_inside p _ _ w1 _ Hv1)
    by (simpl; rewrite length_insert; unfold Off.wTotalLength; lia).
  set (w2 := poke_world w1 (p + (Off.wTotalLength + 1))
               (uint8 (uint16 L / 256))).
  pose proof (poke_world_buffer w1 (p + (Off.wTotalLength + 1))
                (uint8 (uint16 L / 256)) _ Hv1) as Hv2. fold w2 in Hv2.
  unfold copy_data. rewrite Hv.
  unfold bind, get_world, lift, arena_data, buffer.
  rewrite Hv2. simpl.
  eexists _, _. split; [reflexivity|].
  assert (uint16 L = L) as HuL by (unfold uint16; apply Z.mod_small; lia).
  rewrite HuL. unfold Off.wTotalLength.
  split; [|split; [|split]].
  - rewrite list_lookup_insert_ne by lia.
    rewrite list_lookup_insert_eq by lia.
    f_equal. unfold uint8. rewrite Z.mod_mod by lia. reflexivity.
  - replace (p + (2 + 1)) with (p + 2 + 1) by lia.
    rewrite list_lookup_insert_eq by (rewrite length_insert; lia).
    f_equal. unfold uint8. apply Z.mod_small.
    split; [apply Z.div_pos; lia|apply Z.div_lt_upper_bound; lia].
  - intros k Hk2 Hk3.
    rewrite list_lookup_insert_ne
      by (replace (p + (2 + 1)) with (p + 3) by lia; lia).
    rewrite list_lookup_insert_ne by lia. reflexivity.
  - subst w2 w1. rewrite !poke_world_length. reflexivity.
Qed.

(** In [sample_world] the arena holds 32 bytes; the record of the first
    configuration starts at byte 0. *)
Lemma configurationDescriptorExt_writes_total_witness :
  totalSize (arena sample_world) = 32
  /\ exists bytes w',
       configurationDescriptorExt zeroed false 0 512 sample_world
       = Ok (bytes, w')
       /\ bytes !! 2%nat = Some 32 /\ bytes !! 3%nat = Some 0.
Proof.
  split; [reflexivity|].
  destruct (buffer_ptr (arena sample_world)) as [v|] eqn:Hv;
    [|discriminate].
  destruct (configuration_objs sample_world !! 0%nat) as [x|] eqn:Hx;
    [|discriminate].
  destruct (configurationDescriptorExt_writes_total zeroed 0 512 sample_world
              x 0 v) as (bytes & w' & H1 & H2 & H3 & _).
  - exact Hx.
  - vm_compute in Hx. injection Hx as <-. reflexivity.
  - exact Hv.
  - lia.
  - injection Hv as <-. vm_compute. reflexivity.
  - vm_compute. split; [discriminate|reflexivity].
  - exists bytes, w'. split; [exact H1|]. split; [exact H2|exact H3].
Defined.

(** ** The list of configurations *)

(** X21: a builder program that completes has created at most two
    configurations (the list has two cells and does not grow);
    [usbConfigurationCount] is the number of [createConfiguration] calls,
    and so is the bNumConfigurations byte of the device record once a
    configuration exists. *)
Theorem builder_configuration_count (junk : nat -> Z)
    (stale : nat -> option Z) (prog : list step) (w : World) :
  from_start (do_steps junk stale prog) = Ok (tt, w) ->
  created_configurations prog <= 2
  /\ answer (usbConfigurationCount w) = Ok (created_configurations prog)
  /\ (0 < created_configurations prog ->
      exists bytes,
        answer (deviceDescriptor w) = Ok bytes
        /\ bytes !! Z.to_nat Off.bNumConfigurations
           = Some (created_configurations prog)).
Proof.
  intros H. apply from_start_device in H as Hd.
  destruct Hd as (Hn & _ & _ & Ha & _ & Hbytes).
  split; [lia|]. split.
  - unfold usbConfigurationCount, bind, get_world, answer, ret, size.
    by rewrite Ha.
  - intros Hpos. destruct (dev_descriptor_data (device w)) as [bytes|] eqn:Hb;
      [|lia].
    exists bytes. unfold deviceDescriptor, bind.
    rewrite (descriptor_ptr_present _ _ Hb). simpl. rewrite Hb. simpl.
    split; [reflexivity|]. tauto.
Qed.

(** [sample_program] creates two configurations. *)
Lemma builder_configuration_count_witness :
  from_start (do_steps zeroed born_null sample_program) = Ok (tt, sample_world)
  /\ created_configurations sample_program = 2
  /\ answer (usbConfigurationCount sample_world) = Ok 2
  /\ exists bytes,
       answer (deviceDescriptor sample_world) = Ok bytes
       /\ bytes !! 17%nat = Some 2.
Proof.
  assert (from_start (do_steps zeroed born_null sample_program) = Ok (tt, sample_world))
    as H by (vm_compute; reflexivity).
  destruct (builder_configuration_count zeroed born_null sample_program
              sample_world H)
    as (_ & H2 & H3).
  split; [exact H|]. split; [reflexivity|]. split; [exact H2|].
  apply H3. vm_compute. reflexivity.
Defined.

Lemma dev_clear_world (junk : nat -> Z) (w : World) :
  exists w',
    dev_clear junk w = Ok (tt, w')
    /\ device w'
       = {| dev_descriptor_data := dev_descriptor_data (device w);
            configurations := clear (configurations (device w));
            descriptor_total_size := descriptor_total_size (device w) |}
    /\ strings w' = strings_clear (strings w)
    /\ configuration_objs w' = configuration_objs w
    /\ interface_objs w' = interface_objs w
    /\ endpoint_objs w' = endpoint_objs w.
Proof.
  unfold dev_clear, bind, get_world, set_device, set_strings, set_arena, lift,
    arena_clear, buffer. simpl.
  destruct (buffer_ptr (arena w)) as [v|] eqn:Hv; simpl;
    (eexists; split; [reflexivity|]; simpl; repeat split).
Qed.

(** [createConfiguration] where the list of configurations has room and
    the device record exists. *)
Lemma createConfiguration_Ok stale (w : World) (bytes : list Z) (m : Z) :
  max_size (configurations (device w)) = 2 ->
  length (data_ (configurations (device w))) = 2%nat ->
  0 <= actual_size (configurations (device w)) < 2 ->
  dev_descriptor_data (device w) = Some bytes ->
  length bytes = 18%nat -> bytes !! 17%nat = Some m ->
  exists w',
    createConfiguration stale w = Ok (length (configuration_objs w), w')
    /\ size (configurations (device w'))
       = actual_size (configurations (device w)) + 1
    /\ dev_descriptor_data (device w')
       = Some (<[17%nat := uint8 (m + 1)]> bytes)
    /\ exists itfs,
         configuration_objs w'
         = configuration_objs w
             ++ [{| interfaces := itfs;
                    conf_descriptor_data :=
                      stale (length (configuration_objs w));
                    conf_id := actual_size (configurations (device w)) |}].
Proof.
  intros Hm Hl Ha Hb Hlen H17. unfold createConfiguration.
  assert (exists vd : Vector (option nat), Vector_default unset None = Ok vd)
    as [vd ->] by (eexists; vm_compute; reflexivity).
  unfold bind at 1. rewrite (descriptor_ptr_present _ _ Hb).
  unfold bind at 1. unfold bind at 1. unfold dev_rd8 at 1. rewrite Hb.
  simpl rbind.
  unfold load. change (0 <=? Off.bNumConfigurations) with true. cbv iota.
  change (Z.to_nat Off.bNumConfigurations) with 17%nat. rewrite H17.
  unfold lift at 1. unfold dev_wr8. rewrite Hb.
  unfold bind at 1. unfold store.
  change Off.bNumConfigurations with 17. rewrite Hlen. simpl andb. cbv iota.
  unfold lift at 1. unfold set_device at 1.
  unfold bind at 1, usbConfigurationCount, bind at 1, get_world at 1.
  unfold bind, lift, new_configuration, get_world, set_device,
    set_configuration_objs, ret. simpl.
  unfold append, grow, size. simpl.
  destruct (configurations (device w)) as [ms asz inc dat emp] eqn:Hc.
  simpl in *. subst ms.
  destruct (asz >? 2) eqn:E; [lia|]. simpl.
  unfold store.
  destruct ((0 <=? asz) && (asz <? Z.of_nat (length dat))) eqn:E2.
  2:{ apply andb_false_iff in E2 as [E2%Z.leb_gt|E2%Z.ltb_ge]; lia. }
  simpl. eexists. split; [reflexivity|]. simpl. split; [reflexivity|].
  split; [reflexivity|]. eexists. reflexivity.
Qed.

(** X22: [clear] does not reset the count in the device record.  After a
    builder program that created k configurations, [clear] and one more
    [createConfiguration] complete: the new configuration has the id 0,
    [usbConfigurationCount] is 1, and bNumConfigurations reads k + 1. *)
Theorem clear_then_createConfiguration (junk : nat -> Z)
    (stale : nat -> option Z) (prog : list step) (w : World) :
  from_start (do_steps junk stale prog) = Ok (tt, w) ->
  exists w1 c w2 x bytes,
    dev_clear junk w = Ok (tt, w1)
    /\ createConfiguration stale w1 = Ok (c, w2)
    /\ configuration_objs w2 !! c = Some x
    /\ conf_id x = 0
    /\ answer (usbConfigurationCount w2) = Ok 1
    /\ answer (deviceDescriptor w2) = Ok bytes
    /\ bytes !! Z.to_nat Off.bNumConfigurations
       = Some (created_configurations prog + 1).
Proof.
  intros H. apply from_start_device in H as Hd.
  destruct Hd as (Hn & Hm & _ & Ha & Hl & Hbytes).
  destruct (dev_clear_world junk w) as (w1 & Hc & Hdev & _ & Hobjs & _).
  set (k := created_configurations prog) in *.
  assert (exists w1' bytes1,
             descriptor_ptr w1 = Ok (tt, w1')
             /\ device w1'
                = {| dev_descriptor_data := Some bytes1;
                     configurations := clear (configurations (device w));
                     descriptor_total_size :=
                       descriptor_total_size (device w) |}
             /\ configuration_objs w1' = configuration_objs w
             /\ length bytes1 = 18%nat /\ bytes1 !! 17%nat = Some k)
    as (w1' & bytes1 & Hp & Hdev' & Hobjs' & Hlen1 & H17).
  { destruct (dev_descriptor_data (device w)) as [bytes|] eqn:Hb.
    - exists w1, bytes. split.
      + eapply descriptor_ptr_present. rewrite Hdev. reflexivity.
      + repeat split; try tauto.
    - eexists _, _. split.
      + apply descriptor_ptr_fresh. rewrite Hdev. reflexivity.
      + simpl. rewrite Hdev. simpl. repeat split; try done.
        by rewrite Hbytes. }
  destruct (createConfiguration_Ok stale w1' bytes1 k)
    as (w2 & Hcc & Hsz & Hb2 & itfs & Hco).
  - rewrite Hdev'. simpl. exact Hm.
  - rewrite Hdev'. simpl. lia.
  - rewrite Hdev'. simpl. lia.
  - rewrite Hdev'. reflexivity.
  - exact Hlen1.
  - exact H17.
  - assert (createConfiguration stale w1
            = Ok (length (configuration_objs w), w2))
      as Hcc1.
    { rewrite <- Hobjs', <- Hcc. unfold createConfiguration, bind.
      rewrite Hp.
      rewrite (descriptor_ptr_present w1' bytes1) by (by rewrite Hdev').
      reflexivity. }
    exists w1, (length (configuration_objs w)), w2. eexists _, _.
    split; [exact Hc|]. split; [exact Hcc1|].
    rewrite Hco, Hobjs'. split; [apply list_lookup_middle; reflexivity|].
    split; [rewrite Hdev'; reflexivity|].
    split.
    { unfold usbConfigurationCount, bind, get_world, answer, ret.
      rewrite Hsz, Hdev'. reflexivity. }
    unfold deviceDescriptor, bind. rewrite (descriptor_ptr_present _ _ Hb2).
    simpl. rewrite Hb2. simpl. split; [reflexivity|].
    change (Z.to_nat Off.bNumConfigurations) with 17%nat.
    rewrite list_lookup_insert_eq by lia.
    unfold uint8. by rewrite Z.mod_small by lia.
Qed.

(** After [sample_program], which created two configurations: the count
    is 1 and bNumConfigurations reads 3. *)
Lemma clear_then_createConfiguration_witness :
  from_start (do_steps zeroed born_null sample_program) = Ok (tt, sample_world)
  /\ exists w1 c w2 x bytes,
       dev_clear zeroed sample_world = Ok (tt, w1)
       /\ createConfiguration born_null w1 = Ok (c, w2)
       /\ configuration_objs w2 !! c = Some x
       /\ conf_id x = 0
       /\ answer (usbConfigurationCount w2) = Ok 1
       /\ answer (deviceDescriptor w2) = Ok bytes
       /\ bytes !! 17%nat = Some 3.
Proof.
  assert (from_start (do_steps zeroed born_null sample_program) = Ok (tt, sample_world))
    as H by (vm_compute; reflexivity).
  split; [exact H|].
  exact (clear_then_createConfiguration zeroed born_null sample_program
           sample_world H).
Defined.

(** ** A configuration given as bytes *)

Lemma addDescriptor_first (junk : nat -> Z) (bytes : list Z) :
  (0 < length bytes < 256)%nat ->
  addDescriptor junk (Some bytes) (Z.of_nat (length bytes))
    {| buffer_ptr := None; arena_length := 0 |}
  = Ok (Some 0,
        {| buffer_ptr :=
             Some (mkVector 256 0 0
                     (bytes ++ drop (length bytes) (alloc junk 256)) 0);
           arena_length := Z.of_nat (length bytes) |}).
Proof.
  intros Hn. unfold addDescriptor.
  destruct (Z.of_nat (length bytes) =? 0) eqn:E; [lia|]. simpl rbind.
  unfold buffer. cbn [buffer_ptr].
  change (newSizeCalculated 0 256) with 256. change EMPTY with 0.
  unfold checkSize. cbn [max_size].
  destruct (0 + Z.of_nat (length bytes) <? 256) eqn:E'; [|lia].
  cbn [negb]. cbv iota.
  rewrite memcpy_Ok by (rewrite ?length_alloc; lia).
  cbn [rbind]. unfold uint16. rewrite Z.mod_small by lia.
  rewrite Z.add_0_l. rewrite Nat2Z.id. change (Z.to_nat 0) with 0%nat.
  rewrite take_0. rewrite firstn_all. reflexivity.
Qed.

(** X23: in a new process, [setConfigurationDescriptor(bytes, len)] with
    the length given (0 < len < 256) creates the one configuration and
    copies the bytes to the start of the arena; the arena then holds
    exactly these bytes, and [configurationDescriptor(0)] hands them
    out. *)
Theorem setConfigurationDescriptor_roundtrip (junk : nat -> Z)
    (stale : nat -> option Z) (bytes : list Z) :
  (0 < length bytes < 256)%nat ->
  exists c w out,
    from_start (dev_setConfigurationDescriptor junk stale (Some bytes)
                  (Z.of_nat (length bytes)) false) = Ok (Some c, w)
    /\ arena_bytes w = bytes
    /\ answer (usbConfigurationCount w) = Ok 1
    /\ answer (dev_configurationDescriptor junk 0 w) = Ok out
    /\ take (length bytes) out = bytes.
Proof.
  intros Hn. unfold from_start.
  assert (exists w0, World_new = Ok w0) as [w0 H0]
    by (eexists; vm_compute; reflexivity).
  assert (exists w1 x,
             rbind World_new (singleConfiguration stale)
             = Ok (Some 0%nat, w1)
             /\ arena w1 = {| buffer_ptr := None; arena_length := 0 |}
             /\ configuration_objs w1 !! 0%nat = Some x
             /\ at_pos 0 (configurations (device w1)) = Ok (Some 0%nat)
             /\ size (configurations (device w1)) = 1)
    as (w1 & x & H1 & Ha1 & Hx & Hat & Hsz)
    by (eexists _, _; split; [vm_compute; reflexivity|repeat split]).
  rewrite H0 in *. simpl rbind in *.
  unfold dev_setConfigurationDescriptor. unfold bind at 1. rewrite H1.
  unfold setConfigurationDescriptor.
  unfold bind at 1. unfold bind at 1. unfold bind at 1.
  unfold on_arena at 1. unfold bind at 1. rewrite Ha1.
  rewrite (addDescriptor_first junk bytes Hn). unfold lift at 1.
  cbn [snd fst]. unfold bind at 1. unfold set_arena at 1. unfold ret at 1.
  unfold set_conf_descriptor_data, bind at 1, the_configuration at 1.
  cbn [configuration_objs]. unfold deref. rewrite Hx. unfold lift at 1.
  unfold put_configuration, set_configuration_objs.
  cbn [configuration_objs arena strings device interface_objs endpoint_objs].
  unfold ret.
  eexists _, _, _. split; [reflexivity|].
  split; [|split; [|split]].
  - unfold arena_bytes. cbn [arena buffer_ptr arena_length data_].
    rewrite Nat2Z.id. by rewrite take_app_length.
  - unfold usbConfigurationCount, bind, get_world, ret, answer.
    cbn [device]. by rewrite Hsz.
  - unfold dev_configurationDescriptor, usbConfiguration, bind, get_world.
    cbn [device]. rewrite Hat. unfold lift.
    unfold configurationDescriptor, bind, the_configuration, deref, lift.
    cbn [configuration_objs].
    rewrite list_lookup_insert_eq by (by apply lookup_lt_Some in Hx).
    unfold get_world, copy_data. cbn [arena buffer_ptr].
    unfold bind, get_world, lift, arena_data, buffer. cbn [arena buffer_ptr].
    cbn [rbind fst snd data_ answer]. reflexivity.
  - by rewrite take_app_length.
Qed.

(** The 27 bytes of [chain_with_zero_length]. *)
Lemma setConfigurationDescriptor_roundtrip_witness :
  exists c w out,
    from_start (dev_setConfigurationDescriptor zeroed born_null
                  (Some chain_with_zero_length) 27 false) = Ok (Some c, w)
    /\ arena_bytes w = chain_with_zero_length
    /\ answer (usbConfigurationCount w) = Ok 1
    /\ answer (dev_configurationDescriptor zeroed 0 w) = Ok out
    /\ take 27 out = chain_with_zero_length.
Proof.
  apply (setConfigurationDescriptor_roundtrip zeroed born_null
           chain_with_zero_length).
  simpl. lia.
Defined.

(** ** The size asked for the arena *)

(** X24: [descriptorTotalSize(size)], called while the arena has no
    storage yet, records [size] for [getDescriptorTotalSize] and leaves the
    arena without storage: the vector it makes belongs to a copy of the
    arena.  The first use of the arena then allocates 256 bytes, whatever
    [size] was. *)
Theorem descriptorTotalSize_leaves_arena (junk : nat -> Z) (size_ : Z)
    (w : World) :
  buffer_ptr (arena w) = None ->
  exists w',
    descriptorTotalSize junk size_ w = Ok (false, w')
    /\ arena w' = arena w
    /\ answer (getDescriptorTotalSize w') = Ok size_
    /\ exists v d,
         buffer junk (arena w') = Ok (v, d)
         /\ max_size v = 256 /\ length (data_ v) = 256%nat.
Proof.
  intros Hv. unfold descriptorTotalSize, bind, get_world, set_device.
  rewrite Hv.
  assert (exists v0, Vector_new junk EMPTY size_ 0 = Ok v0) as [v0 Hv0].
  { unfold Vector_new, grow. simpl. destruct (size_ >? 0); simpl; eauto. }
  rewrite Hv0. simpl. eexists. split; [reflexivity|]. simpl.
  split; [reflexivity|]. split; [reflexivity|].
  unfold buffer. rewrite Hv. rewrite Vector_new_arena. simpl.
  eexists _, _. split; [reflexivity|]. split; [reflexivity|].
  apply length_alloc.
Qed.

(** 1024 bytes are asked for at the start of the process. *)
Lemma descriptorTotalSize_leaves_arena_witness :
  exists w0 w',
    World_new = Ok w0
    /\ descriptorTotalSize zeroed 1024 w0 = Ok (false, w')
    /\ arena w' = arena w0
    /\ answer (getDescriptorTotalSize w') = Ok 1024
    /\ exists v d,
         buffer zeroed (arena w') = Ok (v, d) /\ max_size v = 256.
Proof.
  destruct World_new as [w0|] eqn:E0; [|discriminate].
  assert (buffer_ptr (arena w0) = None) as Hb by (by injection E0 as <-).
  destruct (descriptorTotalSize_leaves_arena zeroed 1024 w0 Hb)
    as (w' & H1 & H2 & H3 & v & d & H4 & H5 & _).
  exists w0, w'. split; [reflexivity|]. split; [exact H1|]. split; [exact H2|].
  split; [exact H3|]. exists v, d. split; [exact H4|exact H5].
Defined.

(** ** The fields of the device record *)

Lemma deviceDescriptor_Ok (w : World) (bytes : list Z) :
  answer (deviceDescriptor w) = Ok bytes ->
  exists w1,
    descriptor_ptr w = Ok (tt, w1)
    /\ dev_descriptor_data (device w1) = Some bytes
    /\ configurations (device w1) = configurations (device w)
    /\ layout_view w1 = layout_view w /\ strings w1 = strings w.
Proof.
  unfold deviceDescriptor, bind. intros H.
  destruct (dev_descriptor_data (device w)) as [b|] eqn:Hb.
  - rewrite (descriptor_ptr_present _ _ Hb) in *. simpl in H. rewrite Hb in H.
    injection H as <-. exists w. done.
  - rewrite (descriptor_ptr_fresh _ Hb) in *. simpl in H. injection H as <-.
    eexists. split; [reflexivity|]. done.
Qed.

Lemma dev_wr8_Ok (k x : Z) (w : World) (bytes : list Z) :
  dev_descriptor_data (device w) = Some bytes ->
  0 <= k < Z.of_nat (length bytes) ->
  exists w',
    dev_wr8 k x w = Ok (tt, w')
    /\ dev_descriptor_data (device w') = Some (<[Z.to_nat k := uint8 x]> bytes)
    /\ configurations (device w') = configurations (device w)
    /\ layout_view w' = layout_view w /\ strings w' = strings w.
Proof.
  intros Hb Hk. unfold dev_wr8. rewrite Hb. unfold bind.
  rewrite (proj2 (store_Ok bytes _ k (uint8 x))) by (split; [lia|reflexivity]).
  simpl. eexists. split; [reflexivity|]. done.
Qed.

Lemma deviceDescriptor_present (w : World) (bytes : list Z) :
  dev_descriptor_data (device w) = Some bytes ->
  answer (deviceDescriptor w) = Ok bytes.
Proof.
  intros Hb. unfold deviceDescriptor, bind.
  rewrite (descriptor_ptr_present _ _ Hb). simpl. by rewrite Hb.
Qed.

Lemma dev_set8 (k arg : Z) (w : World) (before : list Z) :
  answer (deviceDescriptor w) = Ok before ->
  0 <= k < Z.of_nat (length before) ->
  exists w',
    (descriptor_ptr >> dev_wr8 k arg) w = Ok (tt, w')
    /\ answer (deviceDescriptor w')
       = Ok (<[Z.to_nat k := uint8 arg]> before).
Proof.
  intros Hd Hk.
  destruct (deviceDescriptor_Ok w before Hd) as (w1 & H1 & Hb1 & _).
  unfold bind. rewrite H1.
  destruct (dev_wr8_Ok k arg w1 before Hb1 Hk) as (w2 & -> & Hb2 & _).
  exists w2. split; [reflexivity|]. by apply deviceDescriptor_present.
Qed.

Lemma dev_set16 (k arg : Z) (w : World) (before : list Z) :
  answer (deviceDescriptor w) = Ok before ->
  0 <= k -> k + 1 < Z.of_nat (length before) ->
  exists w',
    (descriptor_ptr >> dev_wr16 k arg) w = Ok (tt, w')
    /\ answer (deviceDescriptor w')
       = Ok (<[Z.to_nat (k + 1) := uint16 arg / 256]>
               (<[Z.to_nat k := uint16 arg mod 256]> before)).
Proof.
  intros Hd Hk0 Hk.
  destruct (deviceDescriptor_Ok w before Hd) as (w1 & H1 & Hb1 & _).
  assert (0 <= uint16 arg < 65536) as Hu16 by (apply Z.mod_pos_bound; lia).
  unfold dev_wr16, bind. rewrite H1.
  destruct (dev_wr8_Ok k (uint16 arg mod 256) w1 before Hb1 ltac:(lia))
    as (w2 & -> & Hb2 & _).
  destruct (dev_wr8_Ok (k + 1) (uint16 arg / 256) w2 _ Hb2
              ltac:(rewrite length_insert; lia))
    as (w3 & -> & Hb3 & _).
  exists w3. split; [reflexivity|].
  rewrite (deviceDescriptor_present _ _ Hb3). unfold uint8.
  rewrite Z.mod_mod by lia.
  rewrite (Z.mod_small (uint16 arg / 256))
    by (split; [apply Z.div_pos; lia|apply Z.div_lt_upper_bound; lia]).
  reflexivity.
Qed.

Lemma read_le_set8 (bytes : list Z) (k : nat) (x : Z) :
  (k < length bytes)%nat -> read_le (<[k := x]> bytes) k 1 = Some x.
Proof.
  intros Hk. cbn [read_le]. rewrite list_lookup_insert_eq by lia.
  f_equal. lia.
Qed.

Lemma read_le_set16 (bytes : list Z) (k : nat) (x : Z) :
  (S k < length bytes)%nat -> 0 <= x ->
  read_le (<[S k := x / 256]> (<[k := x mod 256]> bytes)) k 2 = Some x.
Proof.
  intros Hk Hx. cbn [read_le].
  rewrite list_lookup_insert_ne by lia.
  rewrite list_lookup_insert_eq by lia.
  rewrite list_lookup_insert_eq by (rewrite length_insert; lia).
  f_equal. pose proof (Z.div_mod x 256 ltac:(lia)). lia.
Qed.

Ltac field16 k arg w before Hd Hlen Hu16 :=
  let w' := fresh "w'" in
  let Hs := fresh "Hs" in
  let Ha := fresh "Ha" in
  destruct (dev_set16 k arg w before Hd) as (w' & Hs & Ha);
  [ cbv; discriminate | rewrite Hlen; cbv; reflexivity |];
  exists w'; eexists; split; [exact Hs|]; split; [exact Ha|];
  split; [by rewrite !length_insert|]; split;
  [ change (2 ^ (8 * 2)) with 65536; fold (uint16 arg);
    apply (read_le_set16 before (Z.to_nat k));
    [rewrite Hlen; cbv; lia | exact Hu16]
  | let j := fresh "j" in
    let Hj := fresh "Hj" in
    intros j Hj; unfold k in *;
    rewrite !list_lookup_insert_ne by lia; reflexivity ].

Ltac field8 k arg w before Hd Hlen :=
  let w' := fresh "w'" in
  let Hs := fresh "Hs" in
  let Ha := fresh "Ha" in
  destruct (dev_set8 k arg w before Hd) as (w' & Hs & Ha);
  [ rewrite Hlen; cbv; split; [discriminate|reflexivity] |];
  exists w'; eexists; split; [exact Hs|]; split; [exact Ha|];
  split; [by rewrite !length_insert|]; split;
  [ change (2 ^ (8 * 1)) with 256; fold (uint8 arg);
    apply (read_le_set8 before (Z.to_nat k));
    rewrite Hlen; cbv; lia
  | let j := fresh "j" in
    let Hj := fresh "Hj" in
    intros j Hj; unfold k in *;
    rewrite !list_lookup_insert_ne by lia; reflexivity ].

(** X25: each of the setters bcdUSB, bDeviceClass, bDeviceSubClass,
    bDeviceProtocol, bMaxPacketSize0, idVendor, idProduct and bcdDevice
    creates the device record if there is none, stores its argument,
    cut to the width of the field, little-endian in the bytes of its field,
    and leaves every other byte of the record as [deviceDescriptor] showed
    it before. *)
Theorem device_setter_writes_its_field (f : device_field) (arg : Z)
    (w : World) (before : list Z) :
  answer (deviceDescriptor w) = Ok before -> length before = 18%nat ->
  exists w' after,
    device_setter f arg w = Ok (tt, w')
    /\ answer (deviceDescriptor w') = Ok after
    /\ length after = 18%nat
    /\ read_le after (Z.to_nat (device_field_offset f))
         (Z.to_nat (device_field_width f))
       = Some (arg mod 2 ^ (8 * device_field_width f))
    /\ forall k : nat,
         (Z.of_nat k < device_field_offset f
          \/ device_field_offset f + device_field_width f <= Z.of_nat k) ->
         after !! k = before !! k.
Proof.
  intros Hd Hlen.
  assert (0 <= uint16 arg) as Hu16 by (apply Z.mod_pos_bound; lia).
  destruct f; cbn [device_setter device_field_offset device_field_width].
  - unfold dev_bcdUSB. field16 Off.bcdUSB arg w before Hd Hlen Hu16.
  - unfold dev_bDeviceClass. field8 Off.bDeviceClass arg w before Hd Hlen.
  - unfold dev_bDeviceSubClass.
    field8 Off.bDeviceSubClass arg w before Hd Hlen.
  - unfold dev_bDeviceProtocol.
    field8 Off.bDeviceProtocol arg w before Hd Hlen.
  - unfold dev_bMaxPacketSize0.
    field8 Off.bMaxPacketSize0 arg w before Hd Hlen.
  - unfold dev_idVendor. field16 Off.idVendor arg w before Hd Hlen Hu16.
  - unfold dev_idProduct. field16 Off.idProduct arg w before Hd Hlen Hu16.
  - unfold dev_bcdDevice. field16 Off.bcdDevice arg w before Hd Hlen Hu16.
Qed.

(** [idVendor(0xCAFE)] in [sample_world]: bytes 8 and 9 read 0xCAFE, the
    length byte and idProduct are as they were. *)
Lemma device_setter_writes_its_field_witness :
  exists before w' after,
    answer (deviceDescriptor sample_world) = Ok before
    /\ dev_idVendor 0xCAFE sample_world = Ok (tt, w')
    /\ answer (deviceDescriptor w') = Ok after
    /\ read_le after 8 2 = Some 0xCAFE
    /\ after !! 0%nat = before !! 0%nat
    /\ after !! 10%nat = before !! 10%nat.
Proof.
  destruct (answer (deviceDescriptor sample_world)) as [before|] eqn:Hb;
    [|discriminate].
  destruct (device_setter_writes_its_field F_idVendor 0xCAFE sample_world
              before Hb) as (w' & after & H1 & H2 & _ & H4 & H5).
  - vm_compute in Hb. injection Hb as <-. reflexivity.
  - exists before, w', after. split; [reflexivity|]. split; [exact H1|].
    split; [exact H2|]. split; [exact H4|].
    split; apply H5; [left|right]; cbv; done.
Defined.

(** X26: each of [manufacturer], [product] and [serialNumber], given a
    7-bit text of at most 31 characters without NUL while the string table
    has room, adds the text to the table and stores its index in the byte
    of the device record that is its own; [string] of that index then
    hands out the string descriptor of the text: the length byte, the tag
    0x03 and the UTF-16LE bytes of the text. *)
Theorem device_string_roundtrip (f : device_string) (t : string) (w : World)
    (before : list Z) :
  Vector_wf (char_array (strings w)) ->
  actual_size (char_array (strings w))
  < max_size (char_array (strings w)) <= 255 ->
  length (result_buf (strings w)) = 32%nat ->
  strlen t = Z.of_nat (String.length t) -> (String.length t <= 31)%nat ->
  ascii7 t = true ->
  answer (deviceDescriptor w) = Ok before -> length before = 18%nat ->
  exists w1 after w2,
    device_string_setter f (Some t) w = Ok (tt, w1)
    /\ answer (deviceDescriptor w1) = Ok after
    /\ after !! Z.to_nat (device_string_offset f)
       = Some (strings_size (strings w) + 1)
    /\ dev_string (strings_size (strings w) + 1) w1 = Ok (PResult, w2)
    /\ wire_record (result_buf (strings w2))
       = [2 * Z.of_nat (String.length t) + 2; 0x03] ++ utf16le t.
Proof.
  intros Hwf Hroom Hres Hnul H31 Hascii Hd Hlen.
  destruct (deviceDescriptor_Ok w before Hd) as (w0 & H0 & Hb0 & _ & _ & Hs0).
  destruct (add_then_string (strings w) t Hwf Hroom Hres Hnul H31)
    as (s1 & s2 & Hadd & Hstr & Hdec).
  unfold strings_size.
  set (idx := size (char_array (strings w)) + 1) in *.
  assert (0 <= idx < 256) as Hidx
    by (destruct Hwf as [[? ?] _]; unfold idx, size; lia).
  assert (forall k, 0 <= k < 18 ->
            exists w1 w2,
              (descriptor_ptr >>
               let* i := on_strings (strings_add (Some t)) in dev_wr8 k i) w
              = Ok (tt, w1)
              /\ answer (deviceDescriptor w1)
                 = Ok (<[Z.to_nat k := idx]> before)
              /\ dev_string idx w1 = Ok (PResult, w2)
              /\ strings w2 = s2) as Hgen.
  { intros k Hk. unfold bind at 1. rewrite H0. unfold bind at 1.
    unfold on_strings at 1, bind at 1. rewrite Hs0, Hadd. unfold lift at 1.
    cbn [fst snd]. unfold bind at 1, set_strings at 1, ret at 1.
    match goal with
    | |- context [dev_wr8 k idx ?w'] =>
        destruct (dev_wr8_Ok k idx w' before) as (w1 & Hw & Hb1 & _ & _ & Hs1);
          [exact Hb0|lia|]
    end.
    rewrite Hw. exists w1. eexists. split; [reflexivity|].
    rewrite (deviceDescriptor_present _ _ Hb1).
    unfold uint8. rewrite Z.mod_small by lia. split; [reflexivity|].
    unfold dev_string, on_strings, bind. rewrite Hs1. cbn [strings].
    rewrite Hstr. unfold lift, set_strings, ret. cbn [fst snd].
    split; reflexivity. }
  assert (0 <= device_string_offset f < 18) as Hk by (destruct f; cbv; done).
  destruct (Hgen _ Hk) as (w1 & w2 & Hset & Hafter & Hds & Hs2).
  exists w1, (<[Z.to_nat (device_string_offset f) := idx]> before), w2.
  split; [destruct f; exact Hset|]. split; [exact Hafter|].
  split; [apply list_lookup_insert_eq; rewrite Hlen; destruct f; cbv; lia|].
  split; [exact Hds|]. by rewrite Hs2.
Qed.

(** [serialNumber("0001")] in [sample_world], whose table holds two
    strings: the text gets the index 3. *)
Lemma device_string_roundtrip_witness :
  exists w1 after w2,
    dev_serialNumber (Some "0001"%string) sample_world = Ok (tt, w1)
    /\ answer (deviceDescriptor w1) = Ok after
    /\ after !! 16%nat = Some 3
    /\ dev_string 3 w1 = Ok (PResult, w2)
    /\ wire_record (result_buf (strings w2))
       = [10; 3; 48; 0; 48; 0; 48; 0; 49; 0].
Proof.
  destruct (answer (deviceDescriptor sample_world)) as [before|] eqn:Hb;
    [|discriminate].
  apply (device_string_roundtrip S_serialNumber "0001"%string sample_world
           before).
  - split; simpl; [lia|reflexivity].
  - simpl. lia.
  - reflexivity.
  - reflexivity.
  - simpl. lia.
  - reflexivity.
  - exact Hb.
  - vm_compute in Hb. injection Hb as <-. reflexivity.
Defined.

(** ** size() *)

Lemma rd8_arena_byte (p k : Z) (w : World) (x : Z) :
  arena_byte w (p + k) = Some x -> rd8 (Some p) k w = Ok (x, w).
Proof.
  unfold arena_byte, rd8.
  destruct (buffer_ptr (arena w)) as [v|]; [|discriminate].
  unfold lift, load. destruct (0 <=? p + k); [|discriminate]. by intros ->.
Qed.

(** X27: after a builder program that completes, all of whose
    configurations were born with a null [descriptor_data], [size()] of
    the device is 18, of every configuration that has its record 9, of
    every interface 9 and of every endpoint 7. *)
Theorem sizes_of_built_nodes (junk : nat -> Z) (stale : nat -> option Z)
    (prog : list step) (w : World) :
  (forall c, stale c = None) ->
  from_start (do_steps junk stale prog) = Ok (tt, w) ->
  answer (dev_size w) = Ok sizeof_device
  /\ (forall c x p,
        configuration_objs w !! c = Some x -> conf_descriptor_data x = Some p ->
        answer (conf_size junk c w) = Ok sizeof_configuration)
  /\ (forall i, (i < length (interface_objs w))%nat ->
        answer (itf_size i w) = Ok sizeof_interface)
  /\ (forall e, (e < length (endpoint_objs w))%nat ->
        answer (ep_size e w) = Ok sizeof_endpoint).
Proof.
  intros Hnull H. apply from_start_invariants in H as [Hd [ks HL]]; [|done].
  destruct (invariants_headers_in_place _ _ _ Hd HL)
    as (Hdev & Hconf & Hitf & Hep).
  split; [|split; [|split]].
  - unfold dev_size, bind.
    destruct (dev_descriptor_data (device w)) as [bytes|] eqn:Hb.
    + rewrite (descriptor_ptr_present _ _ Hb). unfold dev_rd8. rewrite Hb.
      destruct (Hdev bytes eq_refl) as (_ & H0 & _).
      unfold rbind, load, lift, answer.
      change (0 <=? Off.bLength) with true.
      change (Z.to_nat Off.bLength) with 0%nat. cbv iota. by rewrite H0.
    + rewrite (descriptor_ptr_fresh _ Hb). reflexivity.
  - intros c x p Hx Hp. destruct (Hconf c x p Hx Hp) as [H0 _].
    unfold conf_size, conf_descriptor, bind, the_configuration, deref, lift.
    rewrite Hx, Hp. unfold ret.
    rewrite (rd8_arena_byte p Off.bLength w _ ltac:(
               unfold Off.bLength; rewrite Z.add_0_r; exact H0)).
    reflexivity.
  - intros i Hi. destruct (lookup_lt_is_Some_2 _ _ Hi) as [x Hx].
    destruct (Hitf i x Hx) as (p & Hp & H0 & _).
    unfold itf_size, itf_descriptor, bind, the_interface, deref, lift.
    rewrite Hx. unfold ret. rewrite Hp.
    rewrite (rd8_arena_byte p Off.bLength w _ ltac:(
               unfold Off.bLength; rewrite Z.add_0_r; exact H0)).
    reflexivity.
  - intros e He. destruct (lookup_lt_is_Some_2 _ _ He) as [x Hx].
    destruct (Hep e x Hx) as (p & Hp & H0 & _).
    unfold ep_size, ep_descriptor, bind, the_endpoint, deref, lift.
    rewrite Hx. unfold ret. rewrite Hp.
    rewrite (rd8_arena_byte p Off.bLength w _ ltac:(
               unfold Off.bLength; rewrite Z.add_0_r; exact H0)).
    reflexivity.
Qed.

(** In [sample_world]: the device, the first configuration, the interface
    and the last endpoint. *)
Lemma sizes_of_built_nodes_witness :
  from_start (do_steps zeroed born_null sample_program) = Ok (tt, sample_world)
  /\ answer (dev_size sample_world) = Ok 18
  /\ answer (conf_size zeroed 0 sample_world) = Ok 9
  /\ answer (itf_size 0 sample_world) = Ok 9
  /\ answer (ep_size 1 sample_world) = Ok 7.
Proof.
  assert (from_start (do_steps zeroed born_null sample_program) = Ok (tt, sample_world))
    as H by (vm_compute; reflexivity).
  destruct (sizes_of_built_nodes zeroed born_null sample_program sample_world
              ltac:(reflexivity) H)
    as (H1 & H2 & H3 & H4).
  split; [exact H|]. split; [exact H1|].
  split; [eapply H2; reflexivity|].
  split; [apply H3; simpl; lia|apply H4; simpl; lia].
Defined.

(** ** The fields of the interface and configuration records *)

(** X28: in an arena laid out as a chain of records, each of the setters
    iInterface, bAlternateSetting, bInterfaceClass, bInterfaceSubClass and
    bInterfaceProtocol completes, returns the interface, stores the low
    byte of its argument in the byte of the interface's record that is its
    own, and changes no other byte of the arena: the chain of records
    stays as it is. *)
Theorem interface_setter_writes_its_byte (f : interface_field) (i : nat)
    (value : Z) (w : World) (ks : list kind) (x : USBInterface) :
  Laid ks ks w -> totalSize (arena w) <= 256 ->
  interface_objs w !! i = Some x ->
  exists p w',
    itf_descriptor_data x = Some p
    /\ interface_setter f i value w = Ok (i, w')
    /\ arena_byte w' (p + interface_field_offset f) = Some (value mod 256)
    /\ (forall q, q <> p + interface_field_offset f ->
          arena_byte w' q = arena_byte w q)
    /\ Laid ks ks w'.
Proof.
  intros HL Htot Hx. destruct (laid_itfs _ _ _ HL i x Hx) as (p & Hp & Hr).
  assert (forall j v, 2 <= j < 9 ->
            exists w',
              (let* d := itf_descriptor i in wr8 d j v >> ret i) w = Ok (i, w')
              /\ arena_byte w' (p + j) = Some (uint8 v)
              /\ (forall q, q <> p + j -> arena_byte w' q = arena_byte w q)
              /\ Laid ks ks w') as Hgen.
  { intros j v Hj.
    destruct (payload_write ks w p j v KInterface HL Htot Hr Hj)
      as (Hw & Hsame & Hother & HL').
    eexists. split; [|split; [exact Hsame|split; [exact Hother|exact HL']]].
    unfold itf_descriptor, bind, the_interface, deref, lift. rewrite Hx.
    unfold ret. rewrite Hp, Hw. reflexivity. }
  assert (uint8 (uint16 value) = value mod 256) as H16.
  { unfold uint8, uint16. change 65536 with (256 * 256).
    rewrite Z.rem_mul_r by lia. rewrite Z.mul_comm, Z.mod_add by lia.
    apply Z.mod_mod. lia. }
  assert (uint8 (uint8 value) = value mod 256) as H8
    by (unfold uint8; apply Z.mod_mod; lia).
  exists p.
  destruct f; cbn [interface_setter interface_field_offset];
    [ destruct (Hgen Off.iInterface (uint16 value) ltac:(cbv; done))
        as (w' & H1 & H2 & H3 & H4); rewrite H16 in H2
    | destruct (Hgen Off.bAlternateSetting (uint8 value) ltac:(cbv; done))
        as (w' & H1 & H2 & H3 & H4); rewrite H8 in H2
    | destruct (Hgen Off.bInterfaceClass (uint8 value) ltac:(cbv; done))
        as (w' & H1 & H2 & H3 & H4); rewrite H8 in H2
    | destruct (Hgen Off.bInterfaceSubClass (uint8 value) ltac:(cbv; done))
        as (w' & H1 & H2 & H3 & H4); rewrite H8 in H2
    | destruct (Hgen Off.bInterfaceProtocol (uint8 value) ltac:(cbv; done))
        as (w' & H1 & H2 & H3 & H4); rewrite H8 in H2 ];
    exists w'; (split; [exact Hp|]); (split; [exact H1|]);
    (split; [exact H2|]); (split; [exact H3|exact H4]).
Qed.

(** [bInterfaceClass(0x01)] on the interface of [sample_world], whose
    record starts at byte 9. *)
Lemma interface_setter_writes_its_byte_witness :
  exists w',
    itf_bInterfaceClass 0 0x01 sample_world = Ok (0%nat, w')
    /\ arena_byte w' 14 = Some 1
    /\ arena_byte w' 9 = Some 9.
Proof.
  destruct (from_start_invariants zeroed born_null sample_program tt
              sample_world)
    as [_ [ks HL]]; [reflexivity|vm_compute; reflexivity|].
  destruct (interface_objs sample_world !! 0%nat) as [x|] eqn:Hx;
    [|discriminate].
  destruct (interface_setter_writes_its_byte I_bInterfaceClass 0 0x01
              sample_world ks x HL) as (p & w' & Hp & H1 & H2 & H3 & _).
  - vm_compute. discriminate.
  - exact Hx.
  - vm_compute in Hx. injection Hx as <-. injection Hp as <-.
    exists w'. split; [exact H1|]. split; [exact H2|].
    rewrite H3 by (cbv; discriminate). reflexivity.
Defined.

(** X29: for a configuration whose record exists in an arena laid out as
    a chain of records, [bMaxPower(mAmp)] stores half the argument (the
    unit of the field is 2 mA) in byte 8 of the record and
    [bmAttributes(value)] stores the argument in byte 7; each returns the
    configuration and changes no other byte of the arena. *)
Theorem configuration_setters_write_their_byte (junk : nat -> Z) (c : nat)
    (arg : Z) (w : World) (ks : list kind) (x : USBConfiguration) (p : Z) :
  Laid ks ks w -> totalSize (arena w) <= 256 ->
  configuration_objs w !! c = Some x -> conf_descriptor_data x = Some p ->
  (exists w',
     conf_bMaxPower junk c arg w = Ok (c, w')
     /\ arena_byte w' (p + Off.bMaxPower) = Some (arg mod 256 / 2)
     /\ (forall q, q <> p + Off.bMaxPower -> arena_byte w' q = arena_byte w q)
     /\ Laid ks ks w')
  /\ (exists w',
        conf_bmAttributes junk c arg w = Ok (c, w')
        /\ arena_byte w' (p + Off.bmAttributes) = Some (arg mod 256)
        /\ (forall q, q <> p + Off.bmAttributes ->
              arena_byte w' q = arena_byte w q)
        /\ Laid ks ks w').
Proof.
  intros HL Htot Hx Hp. pose proof (laid_confs _ _ _ HL c x p Hx Hp) as Hr.
  assert (0 <= arg mod 256 < 256) as Hb by (apply Z.mod_pos_bound; lia).
  split.
  - destruct (payload_write ks w p Off.bMaxPower (uint8 arg / 2) KConfiguration
                HL Htot Hr ltac:(cbv; done)) as (Hw & Hsame & Hother & HL').
    eexists. split; [|split; [|split; [exact Hother|exact HL']]].
    + unfold conf_bMaxPower, conf_descriptor, bind, the_configuration, deref,
        lift.
      rewrite Hx, Hp. unfold ret. rewrite Hw. reflexivity.
    + rewrite Hsame. f_equal. unfold uint8.
      apply Z.mod_small. split; [apply Z.div_pos; lia|].
      apply Z.div_lt_upper_bound; lia.
  - destruct (payload_write ks w p Off.bmAttributes (uint8 arg) KConfiguration
                HL Htot Hr ltac:(cbv; done)) as (Hw & Hsame & Hother & HL').
    eexists. split; [|split; [|split; [exact Hother|exact HL']]].
    + unfold conf_bmAttributes, conf_descriptor, bind, the_configuration,
        deref, lift.
      rewrite Hx, Hp. unfold ret. rewrite Hw. reflexivity.
    + rewrite Hsame. f_equal. unfold uint8. apply Z.mod_mod. lia.
Qed.

(** [bMaxPower(100)] on the first configuration of [sample_world], whose
    record starts at byte 0: byte 8 reads 50. *)
Lemma configuration_setters_write_their_byte_witness :
  exists w',
    conf_bMaxPower zeroed 0 100 sample_world = Ok (0%nat, w')
    /\ arena_byte w' 8 = Some 50.
Proof.
  destruct (from_start_invariants zeroed born_null sample_program tt
              sample_world)
    as [_ [ks HL]]; [reflexivity|vm_compute; reflexivity|].
  destruct (configuration_objs sample_world !! 0%nat) as [x|] eqn:Hx;
    [|discriminate].
  destruct (configuration_setters_write_their_byte zeroed 0 100 sample_world
              ks x 0 HL) as [(w' & H1 & H2 & _) _].
  - vm_compute. discriminate.
  - exact Hx.
  - vm_compute in Hx. injection Hx as <-. reflexivity.
  - exists w'. split; [exact H1|exact H2].
Defined.

(** ** The order of the records *)


Lemma keeps_confs_USBEndpoint_new junk parent n isInput xfer :
  keeps configuration_objs (USBEndpoint_new junk parent n isInput xfer).
Proof. unfold USBEndpoint_new, set_wMaxPacketSize_size. keeps_tac. Qed.

Lemma keeps_confs_createEndpoint junk i isInput xfer :
  keeps configuration_objs (createEndpoint junk i isInput xfer).
Proof.
  unfold createEndpoint, usbEndpointCount, itf_bNumEndpoints_incr,
    itf_append_endpoint, itf_descriptor.
  keeps_tac. apply keeps_confs_USBEndpoint_new.
Qed.

Lemma keeps_confs_USBInterface_new junk parent n :
  keeps configuration_objs (USBInterface_new junk parent n).
Proof.
  unfold USBInterface_new. keeps_tac. apply keeps_confs_createEndpoint.
Qed.

Lemma have_of_insert (w : World) (c : nat) (x x' : USBConfiguration) :
  configuration_objs w !! c = Some x ->
  map has_record (<[c := x']> (configuration_objs w))
  = <[c := has_record x']> (have_of w).
Proof. intros Hx. unfold have_of. by rewrite list_fmap_insert. Qed.

Lemma have_of_lookup (w : World) (c : nat) (x : USBConfiguration) :
  configuration_objs w !! c = Some x -> have_of w !! c = Some (has_record x).
Proof. intros Hx. unfold have_of. by rewrite list_lookup_fmap, Hx. Qed.

(** [createConfiguration] adds one node, without a record when it is born
    with a null [descriptor_data]. *)
Lemma createConfiguration_have stale (w : World) (c : nat) (w' : World) :
  (forall c, stale c = None) ->
  createConfiguration stale w = Ok (c, w') ->
  have_of w' = have_of w ++ [false].
Proof.
  intros Hnull. unfold createConfiguration. intros H.
  apply bind_Ok in H as (u1 & w1 & H1 & H).
  assert (configuration_objs w1 = configuration_objs w) as E1
    by (revert H1; apply keeps_descriptor_ptr; intros; reflexivity).
  apply bind_Ok in H as (u2 & w2 & H2 & H).
  assert (configuration_objs w2 = configuration_objs w1) as E2.
  { revert H2. apply keeps_bind; [apply keeps_dev_rd8|]. intros n.
    apply keeps_dev_wr8. intros; reflexivity. }
  apply bind_Ok in H as (k & w3 & H3 & H). injection H3 as <- <-.
  apply bind_Ok in H as (itfs & w4 & H4 & H).
  apply lift_Ok in H4 as [_ ->].
  apply bind_Ok in H as (w0 & w0' & H0 & H). injection H0 as <- <-.
  rewrite Hnull in H.
  apply bind_Ok in H as (c' & w5 & H5 & H). injection H5 as <- <-.
  apply bind_Ok in H as (w6 & w6' & H6 & H). injection H6 as <- <-.
  apply bind_Ok in H as (cs & w7 & H7 & H). apply lift_Ok in H7 as [H7 ->].
  apply bind_Ok in H as (u8 & w8 & H8 & H). injection H8 as _ <-.
  injection H as _ <-. unfold have_of. simpl.
  rewrite E2, E1, map_app. reflexivity.
Qed.

(** [descriptor()] of a configuration that has its record. *)
Lemma conf_descriptor_present junk (c : nat) (w : World) (x : USBConfiguration)
    (p : Z) :
  configuration_objs w !! c = Some x -> conf_descriptor_data x = Some p ->
  conf_descriptor junk c w = Ok (Some p, w).
Proof.
  intros Hx Hp. unfold conf_descriptor, bind, the_configuration, deref, lift.
  rewrite Hx, Hp. reflexivity.
Qed.

(** [descriptor()] of a configuration that has no record yet: the record
    is appended. *)
Lemma Laid_conf_descriptor_fresh junk ks c x :
  conf_descriptor_data x = None ->
  hoare (fun w => Laid ks ks w /\ configuration_objs w !! c = Some x)
    (conf_descriptor junk c)
    (fun d w => d = Some (chain_total ks)
                /\ Laid (ks ++ [KConfiguration]) (ks ++ [KConfiguration]) w).
Proof.
  intros Hnone. unfold conf_descriptor.
  eapply hoare_bind; [apply hoare_the_configuration|]. intros x'.
  intros w d w' [[HL Hx] Hx'] H.
  assert (x' = x) as -> by congruence. rewrite Hnone in H.
  clear Hx Hx'. revert w d w' HL H.
  change (hoare (Laid ks ks)
            (let* d := on_arena (addDescriptor junk None sizeof_configuration) in
             set_conf_descriptor_data c d >>
             wr8 d Off.bLength sizeof_configuration >>
             wr8 d Off.bDescriptorType 2 >>
             wr8 d Off.bConfigurationValue (conf_id x) >>
             wr8 d Off.iConfiguration 0 >>
             wr8 d Off.bmAttributes 0 >>
             wr8 d Off.bMaxPower 50 >>
             wr8 d Off.bNumInterfaces 0 >> ret d)
            (fun d w => d = Some (chain_total ks)
                        /\ Laid (ks ++ [KConfiguration])
                             (ks ++ [KConfiguration]) w)).
  eapply hoare_bind; [apply (Laid_add junk ks KConfiguration)|].
  intros [p|].
  2:{ eapply (hoare_bind _ _ (fun _ _ => True)); [intros w a w' _ _; exact I|].
      intros i. apply hoare_wr8_null. }
  apply hoare_pure. intros ->.
  pose proof (record_at_last ks KConfiguration) as Hr.
  eapply (hoare_bind _ _ (fun _ => Laid ks (ks ++ [KConfiguration]))).
  { unfold set_conf_descriptor_data.
    eapply hoare_bind; [apply hoare_the_configuration|]. intros x'.
    eapply hoare_pre; [|apply Laid_put_configuration].
    - intros w [H _]; exact H.
    - simpl. intros p [= <-]. exact Hr. }
  intros ?.
  eapply hoare_bind; [apply hoare_header0; lia|]. intros ?.
  eapply hoare_bind; [apply (hoare_header1 ks KConfiguration)|]. intros ?.
  do 5 (eapply hoare_bind; [payload KConfiguration|]; intros ?).
  apply hoare_ret. intros w HL. eauto.
Qed.

Lemma conf_descriptor_fresh_have junk (c : nat) (w : World)
    (x : USBConfiguration) (d : option Z) (w' : World) :
  configuration_objs w !! c = Some x -> conf_descriptor_data x = None ->
  conf_descriptor junk c w = Ok (d, w') ->
  have_of w' = <[c := true]> (have_of w).
Proof.
  intros Hx Hnone H. unfold conf_descriptor in H.
  apply bind_Ok in H as (x' & w0 & H0 & H).
  apply lift_Ok in H0 as [H0 ->]. simpl in H0. rewrite Hx in H0.
  injection H0 as <-. rewrite Hnone in H.
  apply bind_Ok in H as (d' & w1 & H1 & H).
  assert (configuration_objs w1 = configuration_objs w) as E1
    by (revert H1; apply keeps_on_arena; intros; reflexivity).
  destruct d' as [p|].
  2:{ apply bind_Ok in H as (u & w2 & _ & H).
      apply bind_Ok in H as (u' & w3 & H & _). discriminate. }
  apply bind_Ok in H as (u2 & w2 & H2 & H).
  assert (have_of w2 = <[c := true]> (have_of w)) as E2.
  { unfold set_conf_descriptor_data in H2.
    apply bind_Ok in H2 as (x' & w1' & Hx' & H2).
    apply lift_Ok in Hx' as [Hx' ->]. injection H2 as _ <-.
    unfold have_of at 1. simpl. rewrite E1.
    by rewrite (have_of_insert w c x). }
  rewrite <- E2. unfold have_of. f_equal.
  revert H.
  assert (keeps configuration_objs
            (wr8 (Some p) Off.bLength sizeof_configuration >>
             wr8 (Some p) Off.bDescriptorType 2 >>
             wr8 (Some p) Off.bConfigurationValue (conf_id x) >>
             wr8 (Some p) Off.iConfiguration 0 >>
             wr8 (Some p) Off.bmAttributes 0 >>
             wr8 (Some p) Off.bMaxPower 50 >>
             wr8 (Some p) Off.bNumInterfaces 0 >> ret (Some p))) as Hk
    by keeps_tac.
  apply Hk.
Qed.

Lemma conf_append_interface_have (c i : nat) (w : World) (u : unit)
    (w' : World) :
  conf_append_interface c i w = Ok (u, w') -> have_of w' = have_of w.
Proof.
  unfold conf_append_interface. intros H.
  apply bind_Ok in H as (x & w0 & H0 & H).
  apply lift_Ok in H0 as [H0 ->]. simpl in H0.
  destruct (configuration_objs w !! c) as [x0|] eqn:Hx; [|discriminate].
  injection H0 as ->.
  apply bind_Ok in H as (itfs & w1 & H1 & H). apply lift_Ok in H1 as [_ ->].
  injection H as _ <-. unfold have_of at 1. simpl.
  rewrite (have_of_insert w c x) by done.
  apply list_insert_id. rewrite (have_of_lookup w c x Hx). reflexivity.
Qed.

Lemma Laid_bNumInterfaces_incr ks p :
  record_at ks p KConfiguration ->
  hoare (Laid ks ks)
    (let* n := rd8 (Some p) Off.bNumInterfaces in
     wr8 (Some p) Off.bNumInterfaces (n + 1))
    (fun _ => Laid ks ks).
Proof. intros Hr. read_then_payload KConfiguration. Qed.

Lemma createInterface_layout junk ks c w i w' :
  Laid ks ks w -> createInterface junk c w = Ok (i, w') ->
  Laid (ks ++ step_layout (CreateInterface c) (have_of w))
       (ks ++ step_layout (CreateInterface c) (have_of w)) w'
  /\ have_of w' = <[c := true]> (have_of w).
Proof.
  intros HL H. unfold createInterface in H.
  apply bind_Ok in H as (u1 & w1 & H1 & H).
  apply bind_Ok in H1 as (d & w0 & Hd & H1).
  assert (exists x, configuration_objs w !! c = Some x) as [x Hx].
  { unfold conf_descriptor in Hd. apply bind_Ok in Hd as (x & w0' & Hx & _).
    apply lift_Ok in Hx as [Hx _]. simpl in Hx.
    destruct (configuration_objs w !! c); [eauto|discriminate]. }
  assert (exists ks1 p,
             ks1 = ks ++ match has_record x with
                         | false => [KConfiguration]
                         | true => []
                         end
             /\ d = Some p /\ record_at ks1 p KConfiguration
             /\ Laid ks1 ks1 w0 /\ have_of w0 = <[c := true]> (have_of w))
    as (ks1 & p & Hks1 & -> & Hr & HL0 & Hh0).
  { unfold has_record. destruct (conf_descriptor_data x) as [p|] eqn:Hp.
    - rewrite (conf_descriptor_present junk c w x p Hx Hp) in Hd.
      injection Hd as <- <-. exists ks, p. rewrite app_nil_r.
      split; [done|]. split; [done|].
      split; [by eapply (laid_confs _ _ _ HL)|]. split; [done|].
      symmetry. apply list_insert_id. rewrite (have_of_lookup w c x Hx).
      unfold has_record. by rewrite Hp.
    - pose proof (Laid_conf_descriptor_fresh junk ks c x Hp w d w0
                    (conj HL Hx) Hd) as [-> HL0].
      eexists _, _. split; [reflexivity|]. split; [reflexivity|].
      split; [apply record_at_last|]. split; [done|].
      by eapply conf_descriptor_fresh_have. }
  assert (Laid ks1 ks1 w1 /\ have_of w1 = have_of w0) as [HL1 Hh1].
  { split.
    - eapply (Laid_bNumInterfaces_incr ks1 p Hr); eauto.
    - unfold have_of. f_equal. revert H1.
      assert (keeps configuration_objs
                (let* n := rd8 (Some p) Off.bNumInterfaces in
                 wr8 (Some p) Off.bNumInterfaces (n + 1))) as Hk by keeps_tac.
      apply Hk. }
  apply bind_Ok in H as (k & w2 & H2 & H).
  assert (w2 = w1) as ->.
  { unfold usbInterfaceCount in H2. apply bind_Ok in H2 as (y & w1' & Hy & H2).
    apply lift_Ok in Hy as [_ ->]. by injection H2 as _ <-. }
  apply bind_Ok in H as (i' & w3 & H3 & H).
  pose proof (Laid_USBInterface_new junk ks1 c k w1 i' w3 HL1 H3) as HL3.
  assert (have_of w3 = have_of w1) as Hh3.
  { unfold have_of. f_equal. revert H3. apply keeps_confs_USBInterface_new. }
  apply bind_Ok in H as (u4 & w4 & H4 & H). injection H as _ <-.
  pose proof (Laid_conf_append_interface _ _ c i' w3 u4 w4 HL3 H4) as HL4.
  pose proof (conf_append_interface_have c i' w3 u4 w4 H4) as Hh4.
  split.
  - cbn [step_layout]. rewrite (have_of_lookup w c x Hx).
    subst ks1. destruct (has_record x).
    + by rewrite app_nil_r in HL4.
    + by rewrite <- app_assoc in HL4.
  - by rewrite Hh4, Hh3, Hh1.
Qed.

Lemma keeps_have {A} (m : M A) (w : World) (a : A) (w' : World) :
  keeps configuration_objs m -> m w = Ok (a, w') -> have_of w' = have_of w.
Proof. intros Hk H. unfold have_of. f_equal. by eapply Hk. Qed.

Lemma keeps_confs_setters junk stale s :
  match s with
  | CreateConfiguration | CreateInterface _ => True
  | _ => keeps configuration_objs (do_step junk stale s)
  end.
Proof.
  destruct s; try exact I; cbn [do_step];
    unfold ep_wMaxPacketSize, ep_bInterval, ep_descriptor, itf_name,
      itf_descriptor, dev_manufacturer, dev_product, dev_serialNumber;
    keeps_tac.
  apply keeps_confs_createEndpoint.
Qed.

Lemma Laid_setters junk stale s ks :
  match s with
  | CreateConfiguration | CreateInterface _ | CreateEndpoint _ _ _ => True
  | _ => hoare (Laid ks ks) (do_step junk stale s) (fun _ => Laid ks ks)
  end.
Proof.
  destruct s; try exact I; cbn [do_step].
  - eapply hoare_bind; [apply Laid_ep_wMaxPacketSize|]. intros ?.
    by apply hoare_ret.
  - eapply hoare_bind; [apply Laid_ep_bInterval|]. intros ?.
    by apply hoare_ret.
  - eapply hoare_bind; [apply Laid_itf_name|]. intros ?. by apply hoare_ret.
  - unfold dev_manufacturer. device_only.
  - unfold dev_product. device_only.
  - unfold dev_serialNumber. device_only.
Qed.

Lemma do_step_layout junk stale s ks w u w' :
  (forall c, stale c = None) ->
  Laid ks ks w -> do_step junk stale s w = Ok (u, w') ->
  Laid (ks ++ step_layout s (have_of w)) (ks ++ step_layout s (have_of w)) w'
  /\ have_of w' = step_have s (have_of w).
Proof.
  intros Hnull HL H.
  pose proof (keeps_confs_setters junk stale s) as Hk.
  pose proof (Laid_setters junk stale s ks) as Hs.
  destruct s; cbn [step_layout step_have]; rewrite ?app_nil_r;
    try (split; [by eapply Hs|by eapply keeps_have]).
  - cbn [do_step] in H.
    apply bind_Ok in H as (c & w1 & H1 & H). injection H as _ <-.
    split; [by eapply (Laid_createConfiguration stale ks Hnull)|].
    by eapply createConfiguration_have.
  - cbn [do_step] in H.
    apply bind_Ok in H as (i & w1 & H1 & H). injection H as _ <-.
    by eapply createInterface_layout.
  - split; [|by eapply keeps_have]. cbn [do_step] in H.
    apply bind_Ok in H as (e & w1 & H1 & H). injection H as _ <-.
    by eapply Laid_createEndpoint.
Qed.

Lemma do_steps_layout junk stale prog :
  (forall c, stale c = None) ->
  forall ks w u w',
    Laid ks ks w -> do_steps junk stale prog w = Ok (u, w') ->
    Laid (ks ++ layout_of prog (have_of w)) (ks ++ layout_of prog (have_of w)) w'.
Proof.
  intros Hnull.
  induction prog as [|s prog IH]; intros ks w u w' HL H; simpl in *.
  - injection H as _ <-. by rewrite app_nil_r.
  - apply bind_Ok in H as (u1 & w1 & H1 & H).
    destruct (do_step_layout junk stale s ks w u1 w1 Hnull HL H1) as [HL1 Hh1].
    rewrite app_assoc, <- Hh1. by eapply IH.
Qed.

(** C7, amended: after every builder program that completes, all of whose
    configurations were born with a null [descriptor_data], the used part
    of the arena is exactly the chain of the records the calls appended, in
    the order of the calls: [createInterface] appends the 9-byte record of
    the interface and then the 7-byte record of its control endpoint,
    preceded by the 9-byte record of the configuration when that record
    did not exist yet; [createEndpoint] appends one 7-byte record;
    [createConfiguration] and the setters append nothing.  The record of
    every node is a record of its kind in that chain and starts with its
    length and its type tag: 9 and 0x02 for a Configuration record, 9 and
    0x04 for an Interface record, 7 and 0x05 for an Endpoint record.  The
    Device record, 18 bytes with the tag 0x01, lies in storage of its own
    and exists once a configuration was created. *)
Theorem builder_records_have_headers (junk : nat -> Z)
    (stale : nat -> option Z) (prog : list step) (w : World) :
  (forall c, stale c = None) ->
  from_start (do_steps junk stale prog) = Ok (tt, w) ->
  arena_chain w (layout_of prog [])
  /\ headers_in_place w
  /\ (forall c x p,
        configuration_objs w !! c = Some x -> conf_descriptor_data x = Some p ->
        record_at (layout_of prog []) p KConfiguration)
  /\ (forall i x,
        interface_objs w !! i = Some x ->
        exists p, itf_descriptor_data x = Some p
                  /\ record_at (layout_of prog []) p KInterface)
  /\ (forall e x,
        endpoint_objs w !! e = Some x ->
        exists p, ep_descriptor_data x = Some p
                  /\ record_at (layout_of prog []) p KEndpoint)
  /\ (0 < created_configurations prog ->
      is_Some (dev_descriptor_data (device w))).
Proof.
  intros Hnull H. pose proof (from_start_device _ _ _ _ _ H) as Hd.
  destruct World_new_invariants as (w0 & H0 & _ & HL).
  unfold from_start in H. rewrite H0 in H. simpl in H.
  assert (have_of w0 = []) as Hh by (injection H0 as <-; reflexivity).
  pose proof (do_steps_layout junk stale prog Hnull [] w0 tt w HL H) as HL'.
  rewrite Hh in HL'. simpl in HL'.
  split; [by apply Laid_arena_chain|].
  split; [by eapply invariants_headers_in_place|].
  split; [exact (laid_confs _ _ _ HL')|].
  split; [exact (laid_itfs _ _ _ HL')|].
  split; [exact (laid_eps _ _ _ HL')|].
  intros Hpos. destruct Hd as (_ & _ & _ & _ & _ & Hbytes).
  destruct (dev_descriptor_data (device w)); [eauto|lia].
Qed.

(** [sample_program] completes: it lays out a configuration, an interface
    and its control endpoint, and one more endpoint; the second
    configuration has no record. *)
Lemma builder_records_have_headers_witness :
  from_start (do_steps zeroed born_null sample_program) = Ok (tt, sample_world)
  /\ layout_of sample_program []
     = [KConfiguration; KInterface; KEndpoint; KEndpoint]
  /\ arena_chain sample_world (layout_of sample_program [])
  /\ headers_in_place sample_world
  /\ is_Some (dev_descriptor_data (device sample_world)).
Proof.
  assert (from_start (do_steps zeroed born_null sample_program)
          = Ok (tt, sample_world)) as H by (vm_compute; reflexivity).
  destruct (builder_records_have_headers zeroed born_null sample_program
              sample_world ltac:(reflexivity) H)
    as (H1 & H2 & _ & _ & _ & H6).
  split; [exact H|]. split; [reflexivity|]. split; [exact H1|].
  split; [exact H2|]. apply H6. vm_compute. reflexivity.
Defined.

(** ** The uninitialised descriptor of a configuration *)

(** X30: the constructor of [USBConfiguration] does not initialise
    [descriptor_data], and [descriptor()] tests it against null.  When the
    first configuration of a new process is born with a value that is not
    null, [descriptor()] hands out that value, appending and initialising
    nothing, and [createInterface], [size] and [bMaxPower] go through it:
    an access outside any storage of the arena, which has none yet. *)
Theorem first_configuration_born_stale (junk : nat -> Z)
    (stale : nat -> option Z) (p : Z) :
  stale 0%nat = Some p ->
  exists w,
    from_start (createConfiguration stale) = Ok (0%nat, w)
    /\ conf_descriptor junk 0 w = Ok (Some p, w)
    /\ arena_bytes w = []
    /\ createInterface junk 0 w = Fault OutOfBounds
    /\ conf_size junk 0 w = Fault OutOfBounds
    /\ (forall mAmp, conf_bMaxPower junk 0 mAmp w = Fault OutOfBounds).
Proof.
  intros Hp.
  assert (exists w, from_start (createConfiguration stale) = Ok (0%nat, w)
                    /\ buffer_ptr (arena w) = None
                    /\ exists x, configuration_objs w !! 0%nat = Some x
                                 /\ conf_descriptor_data x = stale 0%nat)
    as (w & Hw & Hv & x & Hx & Hd)
    by (eexists; split; [vm_compute; reflexivity|];
        split; [reflexivity|]; eexists; split; reflexivity).
  rewrite Hp in Hd.
  pose proof (conf_descriptor_present junk 0 w x p Hx Hd) as Hc.
  exists w. split; [exact Hw|]. split; [exact Hc|].
  split; [unfold arena_bytes; by rewrite Hv|].
  split; [|split; [|intros mAmp]].
  - unfold createInterface. unfold bind at 1. unfold bind at 1. rewrite Hc.
    unfold bind at 1. unfold rd8. by rewrite Hv.
  - unfold conf_size, bind. rewrite Hc. unfold rd8. by rewrite Hv.
  - unfold conf_bMaxPower. unfold bind at 1. rewrite Hc.
    unfold bind at 1. unfold wr8. by rewrite Hv.
Qed.

(** The storage of the first configuration held the bytes 0x5A. *)
Lemma first_configuration_born_stale_witness :
  exists w,
    from_start (createConfiguration (fun _ => Some 0x5A5A5A5A)) = Ok (0%nat, w)
    /\ createInterface zeroed 0 w = Fault OutOfBounds.
Proof.
  destruct (first_configuration_born_stale zeroed (fun _ => Some 0x5A5A5A5A)
              0x5A5A5A5A eq_refl) as (w & H1 & _ & _ & H4 & _).
  exists w. split; [exact H1|exact H4].
Defined.
